(** * BTCVM: the gossip-driven block-production subsystem

    A shallow embedding of the Go sources of MetalBlockchain/btcvm: those
    that the specification's claims are about,

    - [vm/gossip_wrapper.go]  : [BTCGossip], [GossipID], [hashToID];
    - [vm/gossip.go]          : [MarshalGossip], [UnmarshalGossip] and the
                                [UnifiedBTCSet] operations [Add], [Has],
                                [Iterate];
    - [vm/gossip_item.go]     : [GossipConfig], [DefaultGossipConfig],
                                [Validate];
    - the block builder       : [signalCanBuild], [scheduleBlockBuild],
                                [needToBuild], [calculateBuildingDelay],
                                [handleBuildAttempt], [clearPendingSignal],
                                and the VM's [BuildBlock] that drives it;
    - [vm/block_adapter.go]   : [Accept];

    and, after them, more of the repository:

    - [vm/block_adapter.go]   : [NewBlockAdapter] and the constructors
                                from a hash, an identity and bytes;
    - the VM                  : [ParseBlock], [GetBlock], [SetPreference],
                                [LastAccepted], [GetBlockIDAtHeight],
                                [SetState], [onNormalOperationsStarted],
                                [initBlockBuilding] and the block-relay
                                callback of [Initialize];
    - [cmd/genesis-generator] : [createGenesisBlock], [compactToBig],
                                [hashToBig];
    - [cmd/btcvm]             : [config.validate],
                                [checkRequiredDirectories], [startProfiler].

    Conventions.  A Go pointer that the code compares with [nil] is an
    [option]; a Go [error] result is an [option error] ([None] is [nil]); a
    Go [(T, error)] result is a [result T].  A method that mutates its
    receiver takes the receiver's state and returns the new one, together
    with the list of the [Action]s it performs on the outside world, in
    program order (lock operations, log lines, goroutines started, channel
    sends, callbacks called).  Structured log fields are not recorded. *)

From Stdlib Require Import ZArith List Bool Lia PeanoNat.
From Stdlib Require Import Strings.String Strings.Byte.
From Stdlib Require Import Floats.SpecFloat.
Import ListNotations.

Local Open Scope Z_scope.

(** ** Go values *)

(** A Go [error]: one made by [fmt.Errorf] from a format string, or one that
    wraps a cause with [%w].  Errors returned by the ledger engine are values
    of this type as well. *)
Inductive error : Type :=
| Errorf (format : string)
| Wrapf (format : string) (cause : error).

Arguments Errorf format%_string.
Arguments Wrapf format%_string cause.

(** A Go result pair [(T, error)]. *)
Inductive result (A : Type) : Type :=
| Ok (a : A)
| Err (e : error).

Arguments Ok {A} a.
Arguments Err {A} e.

(** The levels of the logger behind [vm.ctx.Log]. *)
Inductive LogLevel : Type := LvlDebug | LvlInfo | LvlWarn | LvlError.

(** The locks of the subsystem: the builder's [lock] and [buildBlockLock],
    the VM's [blocksMu] and [buildBlockLock], and the [lock] of
    [UnifiedBTCSet]. *)
Inductive mutex : Type :=
| builder_lock
| builder_buildBlockLock
| vm_blocksMu
| vm_buildBlockLock
| set_lock.

(** ** Go's [time] package

    [time.Duration] is an [int64] count of nanoseconds.  An instant is kept
    as its offset in nanoseconds from the zero [time.Time] (January 1, year
    1, UTC); [Sub] saturates at the two ends of [Duration], as Go's does. *)
Module gotime.

Definition Duration : Type := Z.

Definition minDuration : Duration := - 2 ^ 63.
Definition maxDuration : Duration := 2 ^ 63 - 1.

Definition Nanosecond : Duration := 1.
Definition Microsecond : Duration := 1000 * Nanosecond.
Definition Millisecond : Duration := 1000 * Microsecond.
Definition Second : Duration := 1000 * Millisecond.

Definition Time : Type := Z.

(** [t.IsZero()] *)
Definition IsZero (t : Time) : bool := t =? 0.

(** [t.Add(d)] *)
Definition Add (t : Time) (d : Duration) : Time := t + d.

(** [t.Sub(u)]: the duration [t - u], or the largest (smallest) duration
    when the difference does not fit. *)
Definition Sub (t u : Time) : Duration :=
  let d := t - u in
  if d <? minDuration then minDuration
  else if maxDuration <? d then maxDuration
  else d.

End gotime.

(** ** Hashes and identities *)

(** [chainhash.Hash] and [ids.ID] are both [[32]byte]. *)
Definition HashSize : nat := 32.
Definition Hash : Type := list byte.
Definition ID : Type := list byte.

(** [ids.Empty], the all-zero identity. *)
Definition ids_Empty : ID := repeat x00 HashSize.

(** Modelled from the spec: [chainhash.Hash.IsEqual] (package
    [btcd/chaincfg/chainhash] is not among the sources).  The spec's "the
    current best-block hash equals the last attempted parent": equality of the
    two byte arrays. *)
Definition Hash_IsEqual (h target : Hash) : bool :=
  if list_eq_dec Byte.byte_eq_dec h target then true else false.

(** [hashToID] (gossip_wrapper.go): a nil pointer gives [ids.Empty], any
    other hash is converted as it is. *)
Definition hashToID (hash : option Hash) : ID :=
  match hash with
  | None => ids_Empty
  | Some h => h
  end.

(** ** The wire package and [btcutil]

    Packages [btcd/wire] and [btcd/btcutil] are used by the sources and are
    not among them.  The messages, their content hashes and their wire codec
    are the parameters of the development. *)

(** [wire.MessageEncoding] *)
Inductive MessageEncoding : Type := BaseEncoding | WitnessEncoding.

Class Wire : Type := {
  MsgTx : Type;
  MsgBlock : Type;
  (** [msgTx.TxHash()] and [msgBlock.BlockHash()] *)
  TxHash : MsgTx -> Hash;
  BlockHash : MsgBlock -> Hash;
  (** [msg.BtcEncode(w, pver, enc)]: the bytes written to [w], or an error *)
  MsgTx_BtcEncode : MsgTx -> Z -> MessageEncoding -> result (list byte);
  MsgBlock_BtcEncode : MsgBlock -> Z -> MessageEncoding -> result (list byte);
  (** [msg.BtcDecode(r, pver, enc)]: the message read from [r], or an error *)
  MsgTx_BtcDecode : list byte -> Z -> MessageEncoding -> result MsgTx;
  MsgBlock_BtcDecode : list byte -> Z -> MessageEncoding -> result MsgBlock
}.

Section Gossip.

Context {W : Wire}.

(** [btcutil.Tx] and [btcutil.Block] wrap a wire message; [Hash()] is the
    content hash of the wrapped message. *)
Record btcutil_Tx : Type := NewTx { Tx_MsgTx : MsgTx }.
Record btcutil_Block : Type := NewBlock { Block_MsgBlock : MsgBlock }.

Definition Tx_Hash (t : btcutil_Tx) : Hash := TxHash (Tx_MsgTx t).
Definition Block_Hash (b : btcutil_Block) : Hash := BlockHash (Block_MsgBlock b).

(** *** gossip_item.go, gossip_wrapper.go *)

(** [type GossipItemType byte] *)
Definition GossipItemType : Type := byte.
Definition GossipItemTypeTx : GossipItemType := x01.
Definition GossipItemTypeBlock : GossipItemType := x02.

Record BTCGossip : Type := {
  ItemType : GossipItemType;
  Tx : option btcutil_Tx;
  Block : option btcutil_Block
}.

Definition GossipID (g : BTCGossip) : ID :=
  match ItemType g with
  | x01 =>
      match Tx g with
      | Some tx => hashToID (Some (Tx_Hash tx))
      | None => ids_Empty
      end
  | x02 =>
      match Block g with
      | Some blk => hashToID (Some (Block_Hash blk))
      | None => ids_Empty
      end
  | _ => ids_Empty
  end.

Definition BTCGossip_Type (g : BTCGossip) : GossipItemType := ItemType g.

Definition NewTxGossip (tx : option btcutil_Tx) : BTCGossip :=
  {| ItemType := GossipItemTypeTx; Tx := tx; Block := None |}.

Definition NewBlockGossip (block : option btcutil_Block) : BTCGossip :=
  {| ItemType := GossipItemTypeBlock; Tx := None; Block := block |}.

(** *** gossip.go: the marshaller *)

(** [MarshalGossip]: [buf] starts with the discriminator byte; the payload
    encoder appends to it. *)
Definition MarshalGossip (item : option BTCGossip) : result (list byte) :=
  match item with
  | None => Err (Errorf "nil gossip item")
  | Some item =>
      let buf := [ItemType item] in
      match ItemType item with
      | x01 =>
          match Tx item with
          | None => Err (Errorf "nil transaction in gossip item")
          | Some tx =>
              match MsgTx_BtcEncode (Tx_MsgTx tx) 0 WitnessEncoding with
              | Err err => Err (Wrapf "failed to encode tx: %w" err)
              | Ok written => Ok (buf ++ written)
              end
          end
      | x02 =>
          match Block item with
          | None => Err (Errorf "nil block in gossip item")
          | Some blk =>
              match MsgBlock_BtcEncode (Block_MsgBlock blk) 0 WitnessEncoding with
              | Err err => Err (Wrapf "failed to encode block: %w" err)
              | Ok written => Ok (buf ++ written)
              end
          end
      | _ => Err (Errorf "unknown gossip item type: %d")
      end
  end.

(** [UnmarshalGossip]: the first byte selects the decoder, which reads
    [data[1:]]. *)
Definition UnmarshalGossip (data : list byte) : result BTCGossip :=
  match data with
  | [] => Err (Errorf "empty gossip data")
  | itemType :: rest =>
      match itemType with
      | x01 =>
          match MsgTx_BtcDecode rest 0 WitnessEncoding with
          | Err err => Err (Wrapf "failed to decode tx: %w" err)
          | Ok msgTx =>
              Ok {| ItemType := itemType; Tx := Some (NewTx msgTx); Block := None |}
          end
      | x02 =>
          match MsgBlock_BtcDecode rest 0 WitnessEncoding with
          | Err err => Err (Wrapf "failed to decode block: %w" err)
          | Ok msgBlock =>
              Ok {| ItemType := itemType; Tx := None; Block := Some (NewBlock msgBlock) |}
          end
      | _ => Err (Errorf "unknown gossip item type: %d")
      end
  end.

End Gossip.

(** ** gossip_item.go: the gossip configuration *)

(** Go's [float64] is IEEE 754 binary64: the standard library's
    specification floats at precision 53, with the IEEE comparisons (every
    comparison with a NaN is false). *)
Definition float64 : Type := spec_float.

Definition f64_lt (x y : float64) : bool := SFltb x y.
Definition f64_le (x y : float64) : bool := SFleb x y.
Definition f64_gt (x y : float64) : bool := SFltb y x.
Definition f64_ge (x y : float64) : bool := SFleb y x.

(** The constants of the file, as the nearest binary64 values. *)
Definition f64_0 : float64 := S754_zero false.
Definition f64_1 : float64 := S754_finite false 4503599627370496 (-52).
Definition f64_0_9 : float64 := S754_finite false 8106479329266893 (-53).
Definition f64_0_01 : float64 := S754_finite false 5764607523034235 (-59).
Definition f64_0_05 : float64 := S754_finite false 7205759403792794 (-57).

Record GossipConfig : Type := {
  PushGossipPercentStake : float64;
  PushGossipNumValidators : Z;
  PushGossipNumPeers : Z;
  PushGossipFrequency : gotime.Duration;
  PullGossipFrequency : gotime.Duration;
  PushRegossipNumValidators : Z;
  PushRegossipNumPeers : Z;
  RegossipFrequency : gotime.Duration;
  BloomFilterSize : Z;
  BloomFalsePositiveRate : float64;
  BloomResetThreshold : float64
}.

Definition DefaultGossipConfig : GossipConfig := {|
  PushGossipPercentStake := f64_0_9;
  PushGossipNumValidators := 100;
  PushGossipNumPeers := 0;
  PushGossipFrequency := 100 * gotime.Millisecond;
  PullGossipFrequency := 1 * gotime.Second;
  PushRegossipNumValidators := 10;
  PushRegossipNumPeers := 0;
  RegossipFrequency := 30 * gotime.Second;
  BloomFilterSize := 8192;
  BloomFalsePositiveRate := f64_0_01;
  BloomResetThreshold := f64_0_05
|}.

(** [Validate]: the checks in the order of the source; the first one that
    fires decides the error. *)
Definition Validate (c : GossipConfig) : option error :=
  if f64_lt (PushGossipPercentStake c) f64_0 || f64_gt (PushGossipPercentStake c) f64_1 then
    Some (Errorf "push gossip percent stake must be between 0 and 1, got %f")
  else if PushGossipNumValidators c <? 0 then
    Some (Errorf "push gossip num validators must be non-negative, got %d")
  else if PushGossipNumPeers c <? 0 then
    Some (Errorf "push gossip num peers must be non-negative, got %d")
  else if PushGossipFrequency c <=? 0 then
    Some (Errorf "push gossip frequency must be positive, got %s")
  else if PullGossipFrequency c <=? 0 then
    Some (Errorf "pull gossip frequency must be positive, got %s")
  else if PushRegossipNumValidators c <? 0 then
    Some (Errorf "push regossip num validators must be non-negative, got %d")
  else if PushRegossipNumPeers c <? 0 then
    Some (Errorf "push regossip num peers must be non-negative, got %d")
  else if RegossipFrequency c <=? 0 then
    Some (Errorf "regossip frequency must be positive, got %s")
  else if BloomFilterSize c <=? 0 then
    Some (Errorf "bloom filter size must be positive, got %d")
  else if f64_le (BloomFalsePositiveRate c) f64_0 || f64_ge (BloomFalsePositiveRate c) f64_1 then
    Some (Errorf "bloom false positive rate must be between 0 and 1, got %f")
  else if f64_le (BloomResetThreshold c) f64_0 || f64_ge (BloomResetThreshold c) f64_1 then
    Some (Errorf "bloom reset threshold must be between 0 and 1, got %f")
  else None.

(** The constraints as the specification words them, for comparison with
    [Validate]: a fraction lies in the closed interval [0,1], a filter
    parameter in the open interval (0,1), a count is not negative, a
    frequency and the filter size are positive. *)
Definition in_closed_unit (x : float64) : bool := f64_le f64_0 x && f64_le x f64_1.
Definition in_open_unit (x : float64) : bool := f64_lt f64_0 x && f64_lt x f64_1.

Definition constraints_hold (c : GossipConfig) : bool :=
  in_closed_unit (PushGossipPercentStake c)
  && (0 <=? PushGossipNumValidators c)
  && (0 <=? PushGossipNumPeers c)
  && (0 <? PushGossipFrequency c)
  && (0 <? PullGossipFrequency c)
  && (0 <=? PushRegossipNumValidators c)
  && (0 <=? PushRegossipNumPeers c)
  && (0 <? RegossipFrequency c)
  && (0 <? BloomFilterSize c)
  && in_open_unit (BloomFalsePositiveRate c)
  && in_open_unit (BloomResetThreshold c).

Definition is_NaN (x : float64) : bool :=
  match x with
  | S754_nan => true
  | _ => false
  end.

(** [math.NaN()] *)
Definition f64_NaN : float64 := S754_nan.

(** A configuration with its three [float64] fields replaced. *)
Definition with_floats (stake rate threshold : float64) (c : GossipConfig) : GossipConfig := {|
  PushGossipPercentStake := stake;
  PushGossipNumValidators := PushGossipNumValidators c;
  PushGossipNumPeers := PushGossipNumPeers c;
  PushGossipFrequency := PushGossipFrequency c;
  PullGossipFrequency := PullGossipFrequency c;
  PushRegossipNumValidators := PushRegossipNumValidators c;
  PushRegossipNumPeers := PushRegossipNumPeers c;
  RegossipFrequency := RegossipFrequency c;
  BloomFilterSize := BloomFilterSize c;
  BloomFalsePositiveRate := rate;
  BloomResetThreshold := threshold
|}.

(** ** The block builder's state *)

Record blockBuilder : Type := {
  hasPendingTxs : bool;
  lastBuildTime : gotime.Time;
  lastBuildParentHash : Hash
}.

Definition txSubmitChannelSize : nat := 1024.
Definition TargetBlockTime : gotime.Duration := 2 * gotime.Second.
Definition RetryDelay : gotime.Duration := 100 * gotime.Millisecond.

(** [common.Message] of the host engine; the builder sends [PendingTxs]. *)
Inductive Message : Type := PendingTxs | StateSyncDone.

(** ** The ledger engine, the VM and the dedup set *)

Section Engine.

Context {W : Wire}.

(** [mempool.TxDesc]: the descriptor of a pooled transaction; of its fields
    the sources read [Tx]. *)
Record TxDesc : Type := { desc_Tx : btcutil_Tx }.

(** [blockchain.BehaviorFlags] *)
Definition BehaviorFlags : Type := Z.
Definition BFNone : BehaviorFlags := 0.

(** The capability the set and the builder consume from the embedded
    ledger engine ([vm.btcdAdapter.TxMemPool()] and [vm.chain]; package
    [btcd] is not among the sources).  [Ledger] is the engine's state; an
    operation that may change it returns the new state. *)
Class LedgerEngine : Type := {
  Ledger : Type;
  (** [TxMemPool().HaveTransaction(hash)] *)
  HaveTransaction : Ledger -> Hash -> bool;
  (** [TxMemPool().ProcessTransaction(tx, allowOrphan, rateLimit, tag)] *)
  ProcessTransaction :
    btcutil_Tx -> bool -> bool -> Z -> Ledger -> result (list TxDesc) * Ledger;
  (** [TxMemPool().TxDescs()] and [TxMemPool().MiningDescs()] *)
  TxDescs : Ledger -> list TxDesc;
  MiningDescs : Ledger -> list TxDesc;
  (** [chain.HaveBlock(hash)] *)
  HaveBlock : Ledger -> Hash -> result bool;
  (** [chain.ProcessBlock(block, flags)], giving [(isMainChain, isOrphan)] *)
  ProcessBlock :
    btcutil_Block -> BehaviorFlags -> Ledger -> result (bool * bool) * Ledger
}.

Context {E : LedgerEngine}.

(** What a method does to the world outside the state it returns. *)
Inductive Action : Type :=
| Lock (m : mutex)
| Unlock (m : mutex)
| RLock (m : mutex)
| RUnlock (m : mutex)
| Log (lvl : LogLevel) (msg : string)
(** [vm.pushGossiper.Add(item)] *)
| PushGossiper_Add (item : BTCGossip)
(** the call [f(item)] of [Iterate]'s callback, and its answer *)
| Visit (item : BTCGossip) (answer : bool)
(** [b.pendingSignal.Broadcast()] *)
| Broadcast
(** [go b.scheduleBlockBuild()] *)
| Go_scheduleBlockBuild
(** [b.vm.toEngine <- msg], when the channel took it *)
| Send_toEngine (msg : Message).

Arguments Log lvl msg%_string.

(** The fields of [VM] that the modelled methods read or write.  [bloom]
    stands for [vm.btcSet.bloom]. *)
Record VM : Type := {
  ledger : Ledger;
  OnTxRelay : option (list TxDesc -> list Action);
  bloom : list ID;
  preferred : ID;
  lastAccepted : ID;
  vm_blockBuilder : option blockBuilder;
  initialized : bool
}.

Definition set_ledger (l : Ledger) (vm : VM) : VM :=
  {| ledger := l; OnTxRelay := OnTxRelay vm; bloom := bloom vm;
     preferred := preferred vm; lastAccepted := lastAccepted vm;
     vm_blockBuilder := vm_blockBuilder vm; initialized := initialized vm |}.

Definition set_bloom (bl : list ID) (vm : VM) : VM :=
  {| ledger := ledger vm; OnTxRelay := OnTxRelay vm; bloom := bl;
     preferred := preferred vm; lastAccepted := lastAccepted vm;
     vm_blockBuilder := vm_blockBuilder vm; initialized := initialized vm |}.

Definition set_preferred (i : ID) (vm : VM) : VM :=
  {| ledger := ledger vm; OnTxRelay := OnTxRelay vm; bloom := bloom vm;
     preferred := i; lastAccepted := lastAccepted vm;
     vm_blockBuilder := vm_blockBuilder vm; initialized := initialized vm |}.

Definition set_lastAccepted (i : ID) (vm : VM) : VM :=
  {| ledger := ledger vm; OnTxRelay := OnTxRelay vm; bloom := bloom vm;
     preferred := preferred vm; lastAccepted := i;
     vm_blockBuilder := vm_blockBuilder vm; initialized := initialized vm |}.

(** Modelled from the spec: [gossip.BloomFilter] (package
    [metalgo/network/p2p/gossip] is not among the sources).  The spec's
    dedup filter: an item once added is known for the rest of the filter
    generation, by its identity.  The filter is kept as the identities added
    so far, oldest first. *)
Definition bloom_Add (item : BTCGossip) (vm : VM) : VM :=
  set_bloom (bloom vm ++ [GossipID item]) vm.

Definition bloom_Has (item : BTCGossip) (vm : VM) : bool :=
  existsb (Hash_IsEqual (GossipID item)) (bloom vm).

(** The closure that [VM.Initialize] stores in [btcdAdapter.OnTxRelay]; it
    reads [vm.pushGossiper] when called ([pushGossiper] tells whether it is
    non-nil then). *)
Definition Initialize_OnTxRelay (pushGossiper : bool) (txns : list TxDesc) : list Action :=
  flat_map
    (fun txD =>
       if pushGossiper then
         [PushGossiper_Add (NewTxGossip (Some (desc_Tx txD)));
          Log LvlDebug "Gossiped transaction via unified gossip"]
       else [])
    txns.

(** *** gossip.go: [UnifiedBTCSet] *)

(** [Add], the [GossipItemTypeTx] case. *)
Definition Add_tx (item : BTCGossip) (vm : VM) : option error * VM * list Action :=
  match Tx item with
  | None => (Some (Errorf "nil transaction in gossip item"), vm, [])
  | Some tx =>
      let txHash := Tx_Hash tx in
      let received := Log LvlDebug "UnifiedBTCSet.Add: received transaction" in
      if HaveTransaction (ledger vm) txHash then
        (None, bloom_Add item vm,
         [received; Log LvlDebug "UnifiedBTCSet.Add: transaction already known"])
      else
        let '(res, ledger') := ProcessTransaction tx false false 0 (ledger vm) in
        let vm1 := set_ledger ledger' vm in
        match res with
        | Err err =>
            (Some err, vm1,
             [received; Log LvlError "UnifiedBTCSet.Add: failed to process transaction"])
        | Ok acceptedTxs =>
            let relayed :=
              if (0 <? List.length acceptedTxs)%nat then
                match OnTxRelay vm1 with
                | Some relay => relay acceptedTxs
                | None => []
                end
              else [] in
            (None, bloom_Add item vm1,
             [received; Log LvlInfo "UnifiedBTCSet.Add: successfully processed transaction"]
               ++ relayed)
        end
  end.

(** [Add], the [GossipItemTypeBlock] case. *)
Definition Add_block (item : BTCGossip) (vm : VM) : option error * VM * list Action :=
  match Block item with
  | None => (Some (Errorf "nil block in gossip item"), vm, [])
  | Some blk =>
      let blockHash := Block_Hash blk in
      let received := Log LvlDebug "UnifiedBTCSet.Add: received block" in
      match HaveBlock (ledger vm) blockHash with
      | Err err =>
          (Some err, vm,
           [received; Log LvlError "UnifiedBTCSet.Add: failed to check for existing block"])
      | Ok true =>
          (None, bloom_Add item vm,
           [received; Log LvlDebug "UnifiedBTCSet.Add: block already known"])
      | Ok false =>
          let '(res, ledger') := ProcessBlock blk BFNone (ledger vm) in
          let vm1 := set_ledger ledger' vm in
          let outcome :=
            match res with
            | Err _ => Log LvlDebug "UnifiedBTCSet.Add: failed to process block"
            | Ok _ => Log LvlInfo "UnifiedBTCSet.Add: processed block"
            end in
          (None, bloom_Add item vm1, [received; outcome])
      end
  end.

(** [Add]: the set's lock is held for the whole call. *)
Definition Add (item : option BTCGossip) (vm : VM) : option error * VM * list Action :=
  let '(err, vm', acts) :=
    match item with
    | None => (Some (Errorf "nil gossip item"), vm, [])
    | Some item =>
        match ItemType item with
        | x01 => Add_tx item vm
        | x02 => Add_block item vm
        | _ => (Some (Errorf "unknown gossip item type: %d"), vm, [])
        end
    end in
  (err, vm', [Lock set_lock] ++ acts ++ [Unlock set_lock]).

(** [idToHash]: [chainhash.NewHash] fails on a slice that is not 32 bytes
    long, and the empty hash is returned then. *)
Definition idToHash (i : ID) : Hash :=
  if (List.length i =? HashSize)%nat then i else repeat x00 HashSize.

Definition Has (i : ID) (vm : VM) : bool * list Action :=
  let hash := idToHash i in
  let found :=
    if HaveTransaction (ledger vm) hash then true
    else
      match HaveBlock (ledger vm) hash with
      | Err _ => false
      | Ok haveBlock => haveBlock
      end in
  (found, [RLock set_lock; RUnlock set_lock]).

(** [Iterate]'s loop over [txDescs].  The callback [f] is a Go closure: it
    answers on an item and may change its own state [V].  The third
    component tells whether the loop returned early. *)
Fixpoint Iterate_loop {V : Type} (f : BTCGossip -> V -> bool * V)
    (txDescs : list TxDesc) (v : V) : V * list Action * bool :=
  match txDescs with
  | [] => (v, [], false)
  | desc :: rest =>
      let item := {| ItemType := GossipItemTypeTx; Tx := Some (desc_Tx desc); Block := None |} in
      let '(answer, v1) := f item v in
      if answer then
        let '(v2, acts, stopped) := Iterate_loop f rest v1 in
        (v2, Visit item true :: acts, stopped)
      else
        (v1,
         [Visit item false;
          Log LvlDebug "UnifiedBTCSet.Iterate: iteration stopped early during tx iteration"],
         true)
  end.

Definition Iterate {V : Type} (f : BTCGossip -> V -> bool * V) (vm : VM) (v : V)
    : V * list Action :=
  let txDescs := TxDescs (ledger vm) in
  let '(v', acts, stopped) := Iterate_loop f txDescs v in
  (v',
   [RLock set_lock;
    Log LvlDebug "UnifiedBTCSet.Iterate: iterating over gossiped items";
    Log LvlDebug "UnifiedBTCSet.Iterate: found transactions in mempool"]
     ++ acts
     ++ (if stopped then [] else [Log LvlDebug "UnifiedBTCSet.Iterate: finished iterating"])
     ++ [RUnlock set_lock]).

End Engine.

(** ** The block builder *)

Section Builder.

Context {W : Wire} {E : LedgerEngine}.

Definition set_hasPendingTxs (p : bool) (b : blockBuilder) : blockBuilder :=
  {| hasPendingTxs := p;
     lastBuildTime := lastBuildTime b;
     lastBuildParentHash := lastBuildParentHash b |}.

(** [onTxAccepted]: a send on [txSubmitChan] that never blocks; [queued] is
    the number of signals waiting in the channel's buffer, and a signal that
    finds the buffer full is dropped. *)
Definition onTxAccepted (queued : nat) : nat * list Action :=
  if (queued <? txSubmitChannelSize)%nat then
    (S queued,
     [Log LvlInfo "onTxAccepted called"; Log LvlInfo "onTxAccepted sent signal to txSubmitChan"])
  else
    (queued,
     [Log LvlInfo "onTxAccepted called";
      Log LvlInfo "onTxAccepted txSubmitChan full, signal dropped"]).

(** [signalCanBuild]: the flag is read and set while [b.lock] is held. *)
Definition signalCanBuild (b : blockBuilder) : blockBuilder * list Action :=
  let alreadyPending := hasPendingTxs b in
  let b' := set_hasPendingTxs true b in
  (b',
   [Log LvlInfo "signalCanBuild called - transactions are available";
    Lock builder_lock; Unlock builder_lock]
     ++ (if alreadyPending then
           [Log LvlInfo "signalCanBuild: build already scheduled, skipping"]
         else
           [Broadcast;
            Log LvlInfo "signalCanBuild broadcasted to condition variable";
            Go_scheduleBlockBuild])).

(** [awaitTxSubmissions]: every signal taken from [txSubmitChan] calls
    [signalCanBuild]; [received] is the number of signals taken before the
    shutdown channel closes. *)
Fixpoint awaitTxSubmissions (received : nat) (b : blockBuilder)
    : blockBuilder * list Action :=
  match received with
  | O => (b, [])
  | S n =>
      let '(b1, acts1) := signalCanBuild b in
      let '(b2, acts2) := awaitTxSubmissions n b1 in
      (b2, acts1 ++ acts2)
  end.

(** [needToBuild]: [mempool] is what [b.vm.btcdAdapter.TxMemPool()] returns. *)
Definition needToBuild (mempool : option Ledger) : bool :=
  match mempool with
  | None => false
  | Some mp => (0 <? List.length (MiningDescs mp))%nat
  end.

(** [calculateBuildingDelay]: [now] is what [time.Now()] returns when the
    function reads the clock. *)
Definition calculateBuildingDelay (b : blockBuilder) (currentBlockHash : Hash)
    (now : gotime.Time) : gotime.Duration * list Action :=
  if gotime.IsZero (lastBuildTime b) then
    (0,
     [Lock builder_buildBlockLock;
      Log LvlDebug "first block build, no delay";
      Unlock builder_buildBlockLock])
  else
    let isRetry := Hash_IsEqual (lastBuildParentHash b) currentBlockHash in
    let nextBuildTime :=
      if isRetry then gotime.Add (lastBuildTime b) RetryDelay
      else gotime.Add (lastBuildTime b) TargetBlockTime in
    let remainingDelay := gotime.Sub nextBuildTime now in
    let remainingDelay := if remainingDelay <? 0 then 0 else remainingDelay in
    (remainingDelay,
     [Lock builder_buildBlockLock;
      (if isRetry then Log LvlDebug "retry detected, using retry delay"
       else Log LvlDebug "normal build, using target block time");
      Log LvlDebug "calculated building delay";
      Unlock builder_buildBlockLock]).

(** What the world answers to one run of [scheduleBlockBuild]. *)
Inductive Waited : Type :=
| TimerFired       (* [<-timer.C] *)
| ShutdownClosed.  (* [<-b.shutdownChan] *)

Record TaskEnv : Type := {
  (** [b.vm.getCurrentBlock()], as the hash of the block it returns *)
  env_getCurrentBlock : result Hash;
  (** the clock, when the delay is computed *)
  env_now : gotime.Time;
  (** the case the [select] takes when the task waits *)
  env_waited : Waited;
  (** the mempool, when the task asks [needToBuild] *)
  env_TxMemPool : option Ledger;
  (** whether [vm.toEngine] takes the message *)
  env_toEngine_ready : bool
}.

(** The end of [scheduleBlockBuild], after the delay. *)
Definition scheduleBlockBuild_notify (env : TaskEnv) (b : blockBuilder)
    : blockBuilder * list Action :=
  if negb (needToBuild (env_TxMemPool env)) then
    (set_hasPendingTxs false b,
     [Log LvlInfo "scheduleBlockBuild no transactions to build";
      Lock builder_lock; Unlock builder_lock])
  else if env_toEngine_ready env then
    (b,
     [Log LvlInfo "scheduleBlockBuild notifying engine";
      Send_toEngine PendingTxs;
      Log LvlInfo "scheduleBlockBuild successfully notified engine"])
  else
    (b,
     [Log LvlInfo "scheduleBlockBuild notifying engine";
      Log LvlWarn "scheduleBlockBuild failed to notify engine (channel full)"]).

Definition scheduleBlockBuild (env : TaskEnv) (b : blockBuilder)
    : blockBuilder * list Action :=
  let started := Log LvlInfo "scheduleBlockBuild started" in
  match env_getCurrentBlock env with
  | Err _ =>
      (set_hasPendingTxs false b,
       [started;
        Log LvlError "scheduleBlockBuild failed to get current block";
        Lock builder_lock; Unlock builder_lock])
  | Ok currentBlockHash =>
      let '(delay, acts) := calculateBuildingDelay b currentBlockHash (env_now env) in
      let calculated := Log LvlInfo "scheduleBlockBuild calculated delay" in
      if 0 <? delay then
        let waiting := Log LvlInfo "scheduleBlockBuild waiting for delay" in
        match env_waited env with
        | TimerFired =>
            let '(b', acts') := scheduleBlockBuild_notify env b in
            (b',
             [started] ++ acts ++ [calculated; waiting;
                                   Log LvlInfo "scheduleBlockBuild delay elapsed"] ++ acts')
        | ShutdownClosed =>
            (b,
             [started] ++ acts ++ [calculated; waiting;
                                   Log LvlInfo "scheduleBlockBuild cancelled due to shutdown"])
        end
      else
        let '(b', acts') := scheduleBlockBuild_notify env b in
        (b',
         [started] ++ acts ++ [calculated; Log LvlInfo "scheduleBlockBuild no delay needed"]
           ++ acts')
  end.

(** [handleBuildAttempt]: [now] is the clock when the attempt is recorded,
    [mempool] the pool when [needToBuild] is asked. *)
Definition handleBuildAttempt (parentHash : Hash) (now : gotime.Time)
    (mempool : option Ledger) (b : blockBuilder) : blockBuilder * list Action :=
  let b1 :=
    {| hasPendingTxs := hasPendingTxs b;
       lastBuildTime := now;
       lastBuildParentHash := parentHash |} in
  let b2 := set_hasPendingTxs false b1 in
  let recorded :=
    [Lock builder_buildBlockLock; Unlock builder_buildBlockLock;
     Log LvlDebug "recorded build attempt";
     Lock builder_lock; Unlock builder_lock] in
  if needToBuild mempool then
    let '(b3, acts) := signalCanBuild b2 in
    (b3,
     recorded
       ++ [Log LvlInfo "handleBuildAttempt: more transactions pending, scheduling next build"]
       ++ acts)
  else (b2, recorded).

Definition clearPendingSignal (b : blockBuilder) : blockBuilder * list Action :=
  (set_hasPendingTxs false b,
   [Lock builder_lock; Unlock builder_lock;
    Log LvlDebug "cleared pending transaction signal"]).

(** The goroutines a trace starts and the messages it sends to the host
    engine. *)
Definition is_spawn (a : Action) : bool :=
  match a with
  | Go_scheduleBlockBuild => true
  | _ => false
  end.

Definition is_notification (a : Action) : bool :=
  match a with
  | Send_toEngine _ => true
  | _ => false
  end.

Definition spawned (acts : list Action) : nat := List.length (filter is_spawn acts).
Definition notifications (acts : list Action) : nat :=
  List.length (filter is_notification acts).

(** The delay-computation tasks that a trace started, run one after the
    other, each against its own answers of the world (a task that finds no
    answers left has not run yet). *)
Fixpoint run_spawned (acts : list Action) (envs : list TaskEnv) (b : blockBuilder)
    : blockBuilder * list Action :=
  match acts with
  | [] => (b, [])
  | Go_scheduleBlockBuild :: rest =>
      match envs with
      | [] => (b, [])
      | env :: envs' =>
          let '(b1, acts1) := scheduleBlockBuild env b in
          let '(b2, acts2) := run_spawned rest envs' b1 in
          (b2, acts1 ++ acts2)
      end
  | _ :: rest => run_spawned rest envs b
  end.

(** *** block_adapter.go *)

Record BlockAdapter : Type := {
  adapter_btcBlock : option btcutil_Block;
  adapter_id : ID;
  adapter_parentID : ID;
  adapter_height : Z;
  adapter_timestamp : gotime.Time;
  adapter_bytes : list byte
}.

Definition Verify (b : BlockAdapter) (vm : VM) : option error * VM * list Action :=
  (None, vm, [Log LvlDebug "Block verified"]).

(** [Accept]: the two writes happen between [blocksMu.Lock()] and the
    deferred [blocksMu.Unlock()]. *)
Definition Accept (b : BlockAdapter) (vm : VM) : option error * VM * list Action :=
  let vm1 := set_lastAccepted (adapter_id b) vm in
  let vm2 := set_preferred (adapter_id b) vm1 in
  (None, vm2, [Lock vm_blocksMu; Log LvlInfo "Block accepted"; Unlock vm_blocksMu]).

Definition Reject (b : BlockAdapter) (vm : VM) : option error * VM * list Action :=
  (None, vm, [Log LvlInfo "Block rejected"]).

(** *** The VM's [BuildBlock]

    What the world answers to one call of [BuildBlock]: the steps after the
    attempt is recorded are calls into the ledger engine. *)
Record BuildEnv : Type := {
  (** whether [vm.btcdAdapter] is non-nil *)
  build_btcdAdapter : bool;
  (** [vm.getCurrentBlock()], as the hash of the block it returns *)
  build_getCurrentBlock : result Hash;
  (** the clock and the mempool, when the attempt is recorded *)
  build_now : gotime.Time;
  build_TxMemPool : option Ledger;
  (** whether [GetBlockTemplateGenerator()] is non-nil *)
  build_generator : bool;
  (** [vm.config.MiningAddrs] *)
  build_MiningAddrs : list string;
  (** [btcutil.DecodeAddress(...)], as its error *)
  build_DecodeAddress : option error;
  (** [generator.NewBlockTemplate(payToAddr)], as the block of the template *)
  build_NewBlockTemplate : result btcutil_Block;
  (** [vm.btcdAdapter.ProcessBlockNoPoW(block)], giving [(isMainChain, isOrphan)] *)
  build_ProcessBlockNoPoW : result (bool * bool);
  (** [NewBlockAdapter(vm, block)] *)
  build_NewBlockAdapter : result BlockAdapter
}.

Definition set_blockBuilder (bb : option blockBuilder) (vm : VM) : VM :=
  {| ledger := ledger vm; OnTxRelay := OnTxRelay vm; bloom := bloom vm;
     preferred := preferred vm; lastAccepted := lastAccepted vm;
     vm_blockBuilder := bb; initialized := initialized vm |}.

(** [BuildBlock], from the template generator on; [vm] already holds the
    recorded attempt. *)
Definition BuildBlock_template (env : BuildEnv) (vm : VM)
    : result BlockAdapter * VM * list Action :=
  if negb (build_generator env) then
    (Err (Errorf "block template generator not available"), vm, [])
  else if (List.length (build_MiningAddrs env) =? 0)%nat then
    (Err (Errorf "no mining address configured"), vm, [])
  else
    match build_DecodeAddress env with
    | Some err => (Err (Wrapf "failed to decode mining address: %w" err), vm, [])
    | None =>
        match build_NewBlockTemplate env with
        | Err err => (Err (Wrapf "failed to create block template: %w" err), vm, [])
        | Ok block =>
            match build_ProcessBlockNoPoW env with
            | Err err => (Err (Wrapf "failed to process block: %w" err), vm, [])
            | Ok (isMainChain, isOrphan) =>
                if isOrphan then
                  (Err (Errorf "generated block is orphan (parent missing)"), vm, [])
                else
                  match build_NewBlockAdapter env with
                  | Err err =>
                      (Err (Wrapf "failed to create block adapter: %w" err), vm, [])
                  | Ok blockAdapter =>
                      match vm_blockBuilder vm with
                      | Some bb =>
                          let '(bb', acts) := clearPendingSignal bb in
                          (Ok blockAdapter, set_blockBuilder (Some bb') vm,
                           acts ++ [Log LvlInfo "Built block"])
                      | None => (Ok blockAdapter, vm, [Log LvlInfo "Built block"])
                      end
                  end
            end
        end
    end.

(** [BuildBlock]: the attempt is recorded as soon as the parent is known,
    before the template is asked for.  The VM's [buildBlockLock] is held
    for the whole call. *)
Definition BuildBlock (env : BuildEnv) (vm : VM) : result BlockAdapter * VM * list Action :=
  let '(res, vm', acts) :=
    if negb (build_btcdAdapter env) then
      (Err (Errorf "btcd adapter not initialized"), vm, [])
    else
      match build_getCurrentBlock env with
      | Err err =>
          (Err (Wrapf "failed to get current block: %w" err), vm,
           [Log LvlError "BuildBlock failed to get current block"])
      | Ok parentHash =>
          let '(vm1, recorded) :=
            match vm_blockBuilder vm with
            | Some bb =>
                let '(bb', acts) :=
                  handleBuildAttempt parentHash (build_now env) (build_TxMemPool env) bb in
                (set_blockBuilder (Some bb') vm, acts)
            | None => (vm, [])
            end in
          let '(res, vm2, acts) := BuildBlock_template env vm1 in
          (res, vm2, [Log LvlInfo "BuildBlock starting"] ++ recorded ++ acts)
      end in
  (res, vm',
   [Log LvlInfo "BuildBlock called by Snowman engine"; Lock vm_buildBlockLock]
     ++ acts ++ [Unlock vm_buildBlockLock]).

(** *** Interleavings of the builder's critical sections

    The goroutines that touch the builder's flag do so in critical sections
    of [b.lock], one at a time.  [handleBuildAttempt] has two of them: it
    records the attempt and clears the flag, and then it may call
    [signalCanBuild].  A run of the builder is a list of such steps, in the
    order in which they take the lock. *)
Inductive BuilderStep : Type :=
(** a call of [signalCanBuild] *)
| StepSignal
(** a task started earlier runs [scheduleBlockBuild] *)
| StepTask (env : TaskEnv)
(** [handleBuildAttempt] up to the clearing of the flag *)
| StepRecordAttempt (parentHash : Hash) (now : gotime.Time)
(** [clearPendingSignal] *)
| StepClearPending
(** [waitForNeedToBuild] returns: it clears the flag, [b.lock] held *)
| StepWaitReturned.

(** The builder, and the number of tasks started and not yet run. *)
Record BuilderSys : Type := {
  sys_builder : blockBuilder;
  sys_inflight : nat
}.

(** The first half of [handleBuildAttempt]. *)
Definition recordAttempt (parentHash : Hash) (now : gotime.Time) (b : blockBuilder)
    : blockBuilder * list Action :=
  ({| hasPendingTxs := false; lastBuildTime := now; lastBuildParentHash := parentHash |},
   [Lock builder_buildBlockLock; Unlock builder_buildBlockLock;
    Log LvlDebug "recorded build attempt";
    Lock builder_lock; Unlock builder_lock]).

Definition builder_step (s : BuilderStep) (sys : BuilderSys) : BuilderSys * list Action :=
  match s with
  | StepSignal =>
      let '(b, acts) := signalCanBuild (sys_builder sys) in
      ({| sys_builder := b; sys_inflight := sys_inflight sys + spawned acts |}, acts)
  | StepTask env =>
      match sys_inflight sys with
      | O => (sys, [])
      | S k =>
          let '(b, acts) := scheduleBlockBuild env (sys_builder sys) in
          ({| sys_builder := b; sys_inflight := k |}, acts)
      end
  | StepRecordAttempt parentHash now =>
      let '(b, acts) := recordAttempt parentHash now (sys_builder sys) in
      ({| sys_builder := b; sys_inflight := sys_inflight sys |}, acts)
  | StepClearPending =>
      let '(b, acts) := clearPendingSignal (sys_builder sys) in
      ({| sys_builder := b; sys_inflight := sys_inflight sys |}, acts)
  | StepWaitReturned =>
      ({| sys_builder := set_hasPendingTxs false (sys_builder sys);
          sys_inflight := sys_inflight sys |},
       [Log LvlDebug "transactions available in mempool"])
  end.

Fixpoint builder_run (steps : list BuilderStep) (sys : BuilderSys)
    : BuilderSys * list Action :=
  match steps with
  | [] => (sys, [])
  | s :: rest =>
      let '(sys1, acts1) := builder_step s sys in
      let '(sys2, acts2) := builder_run rest sys1 in
      (sys2, acts1 ++ acts2)
  end.

(** The pending windows a run opens: the steps that find the flag unset
    and leave it set. *)
Definition opens_window (s : BuilderStep) (sys : BuilderSys) : bool :=
  negb (hasPendingTxs (sys_builder sys))
  && hasPendingTxs (sys_builder (fst (builder_step s sys))).

Fixpoint windows_opened (steps : list BuilderStep) (sys : BuilderSys) : nat :=
  match steps with
  | [] => O
  | s :: rest =>
      ((if opens_window s sys then 1 else 0)
       + windows_opened rest (fst (builder_step s sys)))%nat
  end.

(** The actions by which the block builder is driven: a goroutine started,
    a wake-up of its condition variable, a message to the host engine, or
    one of its two locks taken. *)
Definition is_builder_action (a : Action) : bool :=
  match a with
  | Go_scheduleBlockBuild | Broadcast | Send_toEngine _ => true
  | Lock builder_lock | Unlock builder_lock => true
  | Lock builder_buildBlockLock | Unlock builder_buildBlockLock => true
  | _ => false
  end.

End Builder.

(** ** Vocabulary of the properties *)

Section Vocabulary.

Context {W : Wire} {E : LedgerEngine}.

(** A valid gossip item: a Tx item with a transaction, or a Block item with
    a block. *)
Definition valid_item (x : BTCGossip) : Prop :=
  (ItemType x = GossipItemTypeTx /\ Tx x <> None)
  \/ (ItemType x = GossipItemTypeBlock /\ Block x <> None).

(** [w] is the wire encoding of the payload of [x], and the wire decoder
    reads that payload back from [w]. *)
Definition wire_roundtrips (x : BTCGossip) (w : list byte) : Prop :=
  (ItemType x = GossipItemTypeTx ->
   forall tx, Tx x = Some tx ->
     MsgTx_BtcEncode (Tx_MsgTx tx) 0 WitnessEncoding = Ok w
     /\ MsgTx_BtcDecode w 0 WitnessEncoding = Ok (Tx_MsgTx tx))
  /\ (ItemType x = GossipItemTypeBlock ->
      forall blk, Block x = Some blk ->
        MsgBlock_BtcEncode (Block_MsgBlock blk) 0 WitnessEncoding = Ok w
        /\ MsgBlock_BtcDecode w 0 WitnessEncoding = Ok (Block_MsgBlock blk)).

(** The items a trace hands to the push gossiper, in order. *)
Fixpoint pushed (acts : list Action) : list BTCGossip :=
  match acts with
  | [] => []
  | PushGossiper_Add item :: rest => item :: pushed rest
  | _ :: rest => pushed rest
  end.

(** The calls of [Iterate]'s callback in a trace, each with its answer. *)
Fixpoint visits (acts : list Action) : list (BTCGossip * bool) :=
  match acts with
  | [] => []
  | Visit item answer :: rest => (item, answer) :: visits rest
  | _ :: rest => visits rest
  end.

(** The lines a trace logs at a level. *)
Fixpoint logged (lvl : LogLevel) (acts : list Action) : list string :=
  match acts with
  | [] => []
  | Log l msg :: rest =>
      match l, lvl with
      | LvlDebug, LvlDebug | LvlInfo, LvlInfo | LvlWarn, LvlWarn | LvlError, LvlError =>
          msg :: logged lvl rest
      | _, _ => logged lvl rest
      end
  | _ :: rest => logged lvl rest
  end.

(** The messages a trace sends to the host engine, in order. *)
Fixpoint sent (acts : list Action) : list Message :=
  match acts with
  | [] => []
  | Send_toEngine msg :: rest => msg :: sent rest
  | _ :: rest => sent rest
  end.

(** The VM as it is whenever the set can be called.  [Initialize] stores its
    relay closure in [btcdAdapter.OnTxRelay] unconditionally; the set is made
    later, by [initializeGossip], which puts the push gossiper in place
    before it registers the handler that calls [Add]. *)
Definition gossip_ready (vm : VM) : Prop :=
  OnTxRelay vm = Some (Initialize_OnTxRelay true).

(** The mempool's transactions as [Iterate] wraps them. *)
Definition mempool_items (vm : VM) : list BTCGossip :=
  map (fun desc => NewTxGossip (Some (desc_Tx desc))) (TxDescs (ledger vm)).

(** The builder is Pending when its flag is set, Idle otherwise. *)
Definition Pending (b : blockBuilder) : Prop := hasPendingTxs b = true.
Definition Idle (b : blockBuilder) : Prop := hasPendingTxs b = false.

End Vocabulary.

(** ** Payloads that wrap a nil message

    [btcutil.NewTx(msgTx)] and [btcutil.NewBlock(msgBlock)] keep the pointer
    they are given, nil included, and [Hash()] computes the hash from the
    message behind that pointer: on a nil message the call dereferences nil
    and the program panics.  The items the program makes itself
    ([UnmarshalGossip], [Iterate], the relay callbacks) always wrap a message,
    and [btcutil_Tx] and [btcutil_Block] above stand for those.  Here are
    [GossipID] and the constructors of gossip_wrapper.go over payloads whose
    message pointer may be nil. *)
Module Ptr.

(** How a call ends: with a value, or in a run-time panic. *)
Inductive outcome (A : Type) : Type :=
| Returns (a : A)
| Panics.

Arguments Returns {A} a.
Arguments Panics {A}.

Section WithWire.

Context {W : Wire}.

Record btcutil_Tx : Type := NewTx { msgTx : option MsgTx }.
Record btcutil_Block : Type := NewBlock { msgBlock : option MsgBlock }.

(** [t.Hash()] and [b.Hash()] *)
Definition Tx_Hash (t : btcutil_Tx) : outcome Hash :=
  match msgTx t with
  | Some m => Returns (TxHash m)
  | None => Panics
  end.

Definition Block_Hash (b : btcutil_Block) : outcome Hash :=
  match msgBlock b with
  | Some m => Returns (BlockHash m)
  | None => Panics
  end.

Record BTCGossip : Type := {
  ItemType : GossipItemType;
  Tx : option btcutil_Tx;
  Block : option btcutil_Block
}.

Definition GossipID (g : BTCGossip) : outcome ID :=
  match ItemType g with
  | x01 =>
      match Tx g with
      | Some tx =>
          match Tx_Hash tx with
          | Returns h => Returns (hashToID (Some h))
          | Panics => Panics
          end
      | None => Returns ids_Empty
      end
  | x02 =>
      match Block g with
      | Some blk =>
          match Block_Hash blk with
          | Returns h => Returns (hashToID (Some h))
          | Panics => Panics
          end
      | None => Returns ids_Empty
      end
  | _ => Returns ids_Empty
  end.

Definition NewTxGossip (tx : option btcutil_Tx) : BTCGossip :=
  {| ItemType := GossipItemTypeTx; Tx := tx; Block := None |}.

Definition NewBlockGossip (block : option btcutil_Block) : BTCGossip :=
  {| ItemType := GossipItemTypeBlock; Tx := None; Block := block |}.

End WithWire.

End Ptr.

(** An item whose payloads wrap a message, as an item over pointers. *)
Definition Ptr_of_item {W : Wire} (g : BTCGossip) : Ptr.BTCGossip :=
  {| Ptr.ItemType := ItemType g;
     Ptr.Tx := option_map (fun t => Ptr.NewTx (Some (Tx_MsgTx t))) (Tx g);
     Ptr.Block := option_map (fun b => Ptr.NewBlock (Some (Block_MsgBlock b))) (Block g) |}.

(** ** A small engine for the examples

    A wire format whose messages are byte strings, written as a length byte
    followed by the bytes, and a ledger that keeps its pool and block index
    as lists.  The ledger refuses a transaction or a block with an empty
    message, and its block index can be out of service. *)
Module Sample.

Definition pad32 (m : list byte) : Hash := firstn HashSize (m ++ repeat x00 HashSize).

Definition encode (m : list byte) : result (list byte) :=
  match Byte.of_N (N.of_nat (List.length m)) with
  | Some n => Ok (n :: m)
  | None => Err (Errorf "message too long")
  end.

Definition decode (data : list byte) : result (list byte) :=
  match data with
  | [] => Err (Errorf "unexpected EOF")
  | n :: rest =>
      if (N.of_nat (List.length rest) =? Byte.to_N n)%N then Ok rest
      else Err (Errorf "length mismatch")
  end.

#[export] Instance wire : Wire := {|
  MsgTx := list byte;
  MsgBlock := list byte;
  TxHash := pad32;
  BlockHash := pad32;
  MsgTx_BtcEncode := fun m _ _ => encode m;
  MsgBlock_BtcEncode := fun m _ _ => encode m;
  MsgTx_BtcDecode := fun data _ _ => decode data;
  MsgBlock_BtcDecode := fun data _ _ => decode data
|}.

Record ledger_state : Type := {
  pool : list btcutil_Tx;
  index : list Hash;
  index_in_service : bool
}.

Definition have_transaction (l : ledger_state) (h : Hash) : bool :=
  existsb (fun t => Hash_IsEqual (Tx_Hash t) h) (pool l).

Definition process_transaction (tx : btcutil_Tx) (allowOrphan rateLimit : bool) (tag : Z)
    (l : ledger_state) : result (list TxDesc) * ledger_state :=
  match Tx_MsgTx tx with
  | [] => (Err (Errorf "transaction has no inputs"), l)
  | _ :: _ =>
      (Ok [{| desc_Tx := tx |}],
       {| pool := pool l ++ [tx]; index := index l; index_in_service := index_in_service l |})
  end.

Definition have_block (l : ledger_state) (h : Hash) : result bool :=
  if index_in_service l then Ok (existsb (Hash_IsEqual h) (index l))
  else Err (Errorf "block index is not available").

Definition process_block (blk : btcutil_Block) (flags : BehaviorFlags) (l : ledger_state)
    : result (bool * bool) * ledger_state :=
  match Block_MsgBlock blk with
  | [] => (Err (Errorf "block has no transactions"), l)
  | _ :: _ =>
      (Ok (true, false),
       {| pool := pool l; index := index l ++ [Block_Hash blk];
          index_in_service := index_in_service l |})
  end.

#[export] Instance engine : LedgerEngine := {|
  Ledger := ledger_state;
  HaveTransaction := have_transaction;
  ProcessTransaction := process_transaction;
  TxDescs := fun l => map (fun t => {| desc_Tx := t |}) (pool l);
  MiningDescs := fun l => map (fun t => {| desc_Tx := t |}) (pool l);
  HaveBlock := have_block;
  ProcessBlock := process_block
|}.

Definition tx1 : btcutil_Tx := NewTx [x0a; x0b].
Definition tx2 : btcutil_Tx := NewTx [x0c].
Definition tx_bad : btcutil_Tx := NewTx [].
Definition block1 : btcutil_Block := NewBlock [xb1; xb2; xb3].
Definition block_bad : btcutil_Block := NewBlock [].

Definition empty_ledger : ledger_state :=
  {| pool := []; index := []; index_in_service := true |}.

Definition builder0 : blockBuilder :=
  {| hasPendingTxs := false; lastBuildTime := 0; lastBuildParentHash := repeat x00 HashSize |}.

(** A VM as [Initialize] leaves it, with a push gossiper in place. *)
Definition vm0 : VM :=
  {| ledger := empty_ledger;
     OnTxRelay := Some (Initialize_OnTxRelay true);
     bloom := [];
     preferred := ids_Empty;
     lastAccepted := ids_Empty;
     vm_blockBuilder := Some builder0;
     initialized := true |}.

(** The same VM whose block index is out of service. *)
Definition vm_index_down : VM :=
  {| ledger := {| pool := []; index := []; index_in_service := false |};
     OnTxRelay := Some (Initialize_OnTxRelay true);
     bloom := [];
     preferred := ids_Empty;
     lastAccepted := ids_Empty;
     vm_blockBuilder := Some builder0;
     initialized := true |}.

(** The same VM with two transactions in the mempool. *)
Definition vm_two_txs : VM :=
  {| ledger := {| pool := [tx1; tx2]; index := []; index_in_service := true |};
     OnTxRelay := Some (Initialize_OnTxRelay true);
     bloom := [];
     preferred := ids_Empty;
     lastAccepted := ids_Empty;
     vm_blockBuilder := Some builder0;
     initialized := true |}.

(** A build against the parent [block1] whose template cannot be made. *)
Definition build_env_failing : BuildEnv :=
  {| build_btcdAdapter := true;
     build_getCurrentBlock := Ok (Block_Hash block1);
     build_now := 1700000000000000000;
     build_TxMemPool := Some (ledger vm_two_txs);
     build_generator := true;
     build_MiningAddrs := ["addr"%string];
     build_DecodeAddress := None;
     build_NewBlockTemplate := Err (Errorf "no template");
     build_ProcessBlockNoPoW := Ok (true, false);
     build_NewBlockAdapter := Err (Errorf "unused") |}.

End Sample.

(** ** A wire format with a marker

    The wire format of a transaction in [btcd/wire] opens with the number of
    inputs, and under [WitnessEncoding] the decoder takes a count of zero for
    the marker of the extended form, which the flag byte 1 must follow.  A
    transaction with no inputs and no witness data is written in the plain
    form, with the count 0.  The sample format has the same two forms for a
    transaction: a message is the list of its parts, written as their count,
    the parts (each with its length before it) and a closing zero byte.  A
    block is read in the plain form only. *)
Module MarkerSample.

Fixpoint write_parts (parts : list (list byte)) : option (list byte) :=
  match parts with
  | [] => Some []
  | part :: rest =>
      match Byte.of_N (N.of_nat (List.length part)), write_parts rest with
      | Some n, Some written => Some (n :: part ++ written)
      | _, _ => None
      end
  end.

Definition encode (m : list (list byte)) : result (list byte) :=
  match Byte.of_N (N.of_nat (List.length m)), write_parts m with
  | Some count, Some written => Ok (count :: written ++ [x00])
  | _, _ => Err (Errorf "message too long")
  end.

Fixpoint read_parts (count : nat) (data : list byte) : result (list (list byte)) :=
  match count with
  | O => Ok []
  | S count' =>
      match data with
      | [] => Err (Errorf "unexpected EOF")
      | n :: rest =>
          let size := N.to_nat (Byte.to_N n) in
          if (List.length rest <? size)%nat then Err (Errorf "unexpected EOF")
          else
            match read_parts count' (skipn size rest) with
            | Err err => Err err
            | Ok parts => Ok (firstn size rest :: parts)
            end
      end
  end.

Definition decode (data : list byte) (enc : MessageEncoding) : result (list (list byte)) :=
  match data with
  | [] => Err (Errorf "unexpected EOF")
  | count :: rest =>
      match count, enc with
      | x00, WitnessEncoding =>
          match rest with
          | [] => Err (Errorf "unexpected EOF")
          | x01 :: extended =>
              match extended with
              | [] => Err (Errorf "unexpected EOF")
              | count' :: rest' => read_parts (N.to_nat (Byte.to_N count')) rest'
              end
          | _ :: _ => Err (Errorf "witness tx but flag byte is %x")
          end
      | _, _ => read_parts (N.to_nat (Byte.to_N count)) rest
      end
  end.

Definition hash_of (m : list (list byte)) : Hash := Sample.pad32 (List.concat m).

#[export] Instance wire : Wire := {|
  MsgTx := list (list byte);
  MsgBlock := list (list byte);
  TxHash := hash_of;
  BlockHash := hash_of;
  MsgTx_BtcEncode := fun m _ _ => encode m;
  MsgBlock_BtcEncode := fun m _ _ => encode m;
  MsgTx_BtcDecode := fun data _ enc => decode data enc;
  MsgBlock_BtcDecode := fun data _ _ => decode data BaseEncoding
|}.

(** A transaction with no inputs, and one with an input. *)
Definition tx_no_inputs : btcutil_Tx := NewTx [].
Definition tx_one_input : btcutil_Tx := NewTx [[x0a; x0b]].

End MarkerSample.

(** * More of the repository *)

(** ** Integer conversions of Go *)

(** [int32(x)] of a [uint64], and [uint64(x)] of an [int32]. *)
Definition int32_of_uint64 (x : Z) : Z :=
  let w := x mod 2 ^ 32 in
  if w <? 2 ^ 31 then w else w - 2 ^ 32.

Definition uint64_of_int32 (x : Z) : Z := x mod 2 ^ 64.

(** [x++] on a [uint32]. *)
Definition uint32_incr (x : Z) : Z := (x + 1) mod 2 ^ 32.

(** ** cmd/genesis-generator *)

Module genesis.

Definition byte_value (b : byte) : Z := Z.of_N (Byte.to_N b).

(** [big.Int.SetBytes]: the bytes read as a big-endian unsigned number. *)
Definition SetBytes (buf : list byte) : Z :=
  fold_left (fun acc b => acc * 256 + byte_value b) buf 0.

(** [compactToBig]: [compact] is a [uint32]; the shifts are those of
    [big.Int.Rsh] and [big.Int.Lsh]. *)
Definition compactToBig (compact : Z) : Z :=
  let exponent := Z.shiftr compact 24 in
  let mantissa := Z.land compact 16777215 in
  if exponent <=? 3 then Z.shiftr mantissa (8 * (3 - exponent))
  else Z.shiftl mantissa (8 * (exponent - 3)).

(** [hashToBig]: [buf[i] = hash[HashSize-1-i]], then [SetBytes]. *)
Definition hashToBig (hash : Hash) : Z :=
  let buf := map (fun i => nth (HashSize - 1 - i) hash x00) (seq 0 HashSize) in
  SetBytes buf.

(** The bytes of a list read as a little-endian number. *)
Fixpoint little_endian (l : list byte) : Z :=
  match l with
  | [] => 0
  | b :: rest => byte_value b + 256 * little_endian rest
  end.

(** The messages of package [wire] that [createGenesisBlock] fills in. *)
Record OutPoint : Type := { op_Hash : Hash; op_Index : Z }.
Record TxIn : Type := {
  PreviousOutPoint : OutPoint;
  SignatureScript : list byte;
  Sequence : Z
}.
Record TxOut : Type := { Value : Z; PkScript : list byte }.
Record MsgTx : Type := {
  tx_Version : Z;
  tx_TxIn : list TxIn;
  tx_TxOut : list TxOut;
  tx_LockTime : Z
}.
Record BlockHeader : Type := {
  Version : Z;
  PrevBlock : Hash;
  MerkleRoot : Hash;
  Timestamp : gotime.Time;
  Bits : Z;
  Nonce : Z
}.
Record MsgBlock : Type := {
  Header : BlockHeader;
  Transactions : list MsgTx
}.

(** [chainhash.Hash{}] *)
Definition zero_hash : Hash := repeat x00 HashSize.

(** [time.Unix(sec, 0)]: the Unix epoch is 62135596800 seconds after the
    zero time. *)
Definition time_Unix (sec : Z) : gotime.Time := (62135596800 + sec) * gotime.Second.

Definition set_Nonce (n : Z) (h : BlockHeader) : BlockHeader :=
  {| Version := Version h; PrevBlock := PrevBlock h; MerkleRoot := MerkleRoot h;
     Timestamp := Timestamp h; Bits := Bits h; Nonce := n |}.

Section Mining.

(** What the generator takes from packages [txscript] and [wire]: the
    output script of an address, and the hashes of a transaction and of a
    block (a block's hash is the hash of its header). *)
Variable Address : Type.
Variable PayToAddrScript : Address -> result (list byte).
Variable TxHash : MsgTx -> Hash.
Variable BlockHash : BlockHeader -> Hash.

(** The constant [wire.TxVersion]. *)
Variable TxVersion : Z.

(** The mining loop of [createGenesisBlock].  It has no bound of its own:
    [fuel] is the number of nonces tried, and [None] says that the loop is
    still running after them. *)
Fixpoint mine (target : Z) (fuel : nat) (header : BlockHeader) : option BlockHeader :=
  match fuel with
  | O => None
  | S fuel' =>
      let hashNum := hashToBig (BlockHash header) in
      if hashNum <=? target then Some header
      else mine target fuel' (set_Nonce (uint32_incr (Nonce header)) header)
  end.

(** [createGenesisBlock]: [now] is what [time.Now()] returns.  [None] when
    the mining loop is still running after [fuel] nonces. *)
Definition createGenesisBlock (addr : Address) (coinbaseMsg : list byte) (reward : Z)
    (timestamp : Z) (now : gotime.Time) (fuel : nat) : option (result MsgBlock) :=
  let blockTime := if timestamp =? 0 then now else time_Unix timestamp in
  let coinbaseIn :=
    {| PreviousOutPoint := {| op_Hash := zero_hash; op_Index := 4294967295 |};
       SignatureScript := coinbaseMsg;
       Sequence := 4294967295 |} in
  match PayToAddrScript addr with
  | Err err => Some (Err (Wrapf "failed to create output script: %w" err))
  | Ok pkScript =>
      let coinbaseTx :=
        {| tx_Version := TxVersion;
           tx_TxIn := [coinbaseIn];
           tx_TxOut := [{| Value := reward; PkScript := pkScript |}];
           tx_LockTime := 0 |} in
      let merkleRoot := TxHash coinbaseTx in
      let header :=
        {| Version := 1; PrevBlock := zero_hash; MerkleRoot := merkleRoot;
           Timestamp := blockTime; Bits := 486604799; Nonce := 0 |} in
      let target := compactToBig (Bits header) in
      match mine target fuel header with
      | None => None
      | Some mined => Some (Ok {| Header := mined; Transactions := [coinbaseTx] |})
      end
  end.

End Mining.

End genesis.

(** ** The block adapter's constructors and the VM's queries *)

(** [errors.New("VM not initialized")] *)
Definition errNotInitialized : error := Errorf "VM not initialized".

Section Adapter.

Context {W : Wire} {E : LedgerEngine}.

(** A [*btcutil.Block] as the adapter reads it: the wrapped message, and
    the height the block carries ([Height()], an [int32]). *)
Record BlockObj : Type := {
  obj_block : btcutil_Block;
  obj_height : Z
}.

(** What the adapter and the VM's queries read from packages [wire],
    [btcutil] and [blockchain] besides [LedgerEngine]. *)
Class ChainAccess : Type := {
  (** [msgBlock.Header.PrevBlock] and [msgBlock.Header.Timestamp] *)
  Header_PrevBlock : MsgBlock -> Hash;
  Header_Timestamp : MsgBlock -> gotime.Time;
  (** [btcBlock.Bytes()] *)
  Block_Bytes : btcutil_Block -> result (list byte);
  (** [chain.BlockByHashAny(hash)] *)
  BlockByHashAny : Ledger -> Hash -> result BlockObj;
  (** [chain.BlockHashByHeight(height)], [height] an [int32] *)
  BlockHashByHeight : Ledger -> Z -> result Hash
}.

Context {C : ChainAccess}.

Definition NewBlockAdapter (btcBlock : BlockObj) : result BlockAdapter :=
  let blockHash := Block_Hash (obj_block btcBlock) in
  let id := hashToID (Some blockHash) in
  let msgBlock := Block_MsgBlock (obj_block btcBlock) in
  let parentID := hashToID (Some (Header_PrevBlock msgBlock)) in
  let height := uint64_of_int32 (obj_height btcBlock) in
  let timestamp := Header_Timestamp msgBlock in
  match Block_Bytes (obj_block btcBlock) with
  | Err err => Err (Wrapf "failed to serialize block: %w" err)
  | Ok bytes =>
      Ok {| adapter_btcBlock := Some (obj_block btcBlock);
            adapter_id := id;
            adapter_parentID := parentID;
            adapter_height := height;
            adapter_timestamp := timestamp;
            adapter_bytes := bytes |}
  end.

Definition NewBlockAdapterFromHash (hash : Hash) (vm : VM) : result BlockAdapter :=
  match BlockByHashAny (ledger vm) hash with
  | Err err => Err (Wrapf "failed to get block by hash: %w" err)
  | Ok block => NewBlockAdapter block
  end.

Definition NewBlockAdapterFromID (blockID : ID) (vm : VM) : result BlockAdapter :=
  NewBlockAdapterFromHash (idToHash blockID) vm.

(** [NewBlockAdapterFromBytes]: the decoded block goes through
    [ProcessBlock], and the adapter is made from the block as stored. *)
Definition NewBlockAdapterFromBytes (blockBytes : list byte) (vm : VM)
    : result BlockAdapter * VM * list Action :=
  match MsgBlock_BtcDecode blockBytes 0 WitnessEncoding with
  | Err err => (Err (Wrapf "failed to deserialize block: %w" err), vm, [])
  | Ok msgBlock =>
      let block := NewBlock msgBlock in
      let blockHash := Block_Hash block in
      let deserialized := Log LvlInfo "Deserialized block from bytes" in
      let '(res, ledger') := ProcessBlock block BFNone (ledger vm) in
      let vm1 := set_ledger ledger' vm in
      match res with
      | Err err =>
          (Err (Wrapf "failed to process block: %w" err), vm1,
           [deserialized; Log LvlError "Failed to process parsed block"])
      | Ok _ =>
          let processed := Log LvlInfo "Processed parsed block through btcd" in
          match BlockByHashAny ledger' blockHash with
          | Err err =>
              (Err (Wrapf "failed to retrieve processed block: %w" err), vm1,
               [deserialized; processed])
          | Ok storedBlock => (NewBlockAdapter storedBlock, vm1, [deserialized; processed])
          end
      end
  end.

(** *** The VM's queries *)

Definition ParseBlock (blockBytes : list byte) (vm : VM)
    : result BlockAdapter * VM * list Action :=
  if negb (initialized vm) then (Err errNotInitialized, vm, [])
  else
    let '(res, vm', acts) := NewBlockAdapterFromBytes blockBytes vm in
    match res with
    | Err err => (Err (Wrapf "failed to parse block: %w" err), vm', acts)
    | Ok blockAdapter => (Ok blockAdapter, vm', acts ++ [Log LvlInfo "Successfully parsed block"])
    end.

Definition getBlock (blockID : ID) (vm : VM) : result BlockAdapter :=
  match NewBlockAdapterFromID blockID vm with
  | Err err => Err (Wrapf "failed to get block adapter: %w" err)
  | Ok blockAdapter => Ok blockAdapter
  end.

Definition GetBlock (blockID : ID) (vm : VM) : result BlockAdapter * list Action :=
  if negb (initialized vm) then (Err errNotInitialized, [])
  else
    match getBlock blockID vm with
    | Err err => (Err err, [Log LvlDebug "getting block"; Log LvlError "failed to get block"])
    | Ok block => (Ok block, [Log LvlDebug "getting block"])
    end.

Definition SetPreference (blockID : ID) (vm : VM) : option error * VM * list Action :=
  if negb (initialized vm) then (Some errNotInitialized, vm, [])
  else (None, set_preferred blockID vm, [Log LvlDebug "set preference"]).

Definition LastAccepted (vm : VM) : result ID :=
  if negb (initialized vm) then Err errNotInitialized
  else Ok (lastAccepted vm).

(** [GetBlockIDAtHeight]: [height] is a [uint64], and the chain is asked
    for [int32(height)]. *)
Definition GetBlockIDAtHeight (height : Z) (vm : VM) : result ID * list Action :=
  if negb (initialized vm) then (Err errNotInitialized, [])
  else
    match BlockHashByHeight (ledger vm) (int32_of_uint64 height) with
    | Err err =>
        (Err (Wrapf "failed to get block hash at height %d: %w" err),
         [Log LvlError "failed to get block hash at height"])
    | Ok blockHash =>
        (Ok (hashToID (Some blockHash)), [Log LvlDebug "retrieved block ID at height"])
    end.

(** The closure that [VM.Initialize] stores in [btcdAdapter.OnBlockRelay],
    as the goroutine it starts runs it: [pushGossiper] and [btcSet] tell
    whether [vm.pushGossiper] and [vm.btcSet] with its filter are non-nil
    then. *)
Definition Initialize_OnBlockRelay (pushGossiper btcSet : bool) (block : btcutil_Block)
    (vm : VM) : list Action :=
  if pushGossiper then
    let item := NewBlockGossip (Some block) in
    if btcSet && bloom_Has item vm then
      [Log LvlDebug "Skipping block gossip - already in bloom filter"]
    else
      [PushGossiper_Add item; Log LvlInfo "Gossiped block via unified gossip"]
  else [].

End Adapter.

(** ** The VM's life cycle *)

Section Lifecycle.

Context {W : Wire} {E : LedgerEngine}.

(** [snow.State]: the three states [SetState] names, and any other value. *)
Inductive snow_State : Type := StateSyncing | Bootstrapping | NormalOp | OtherState.

(** What the life-cycle methods do besides the [Action]s of the builder. *)
Inductive LifeEvent : Type :=
| Did (a : Action)
(** [vm.builderLock] *)
| Lock_builderLock
| Unlock_builderLock
(** [go b.awaitTxSubmissions()], by [blockBuilder.start] *)
| Go_awaitTxSubmissions
(** the call of [vm.initializeGossip()] *)
| Call_initializeGossip
(** the two goroutines of [startGossipLoops] *)
| Go_pushGossipLoop
| Go_pullGossipLoop.

(** The VM with its [bootstrapped] flag. *)
Record Node : Type := {
  node_vm : VM;
  bootstrapped : bool
}.

(** [initBlockBuilding]: [mempool] is what [vm.btcdAdapter.TxMemPool()]
    returns. *)
Definition initBlockBuilding (mempool : option Ledger) (vm : VM)
    : option error * VM * list LifeEvent :=
  let starting := [Did (Log LvlInfo "initBlockBuilding starting"); Lock_builderLock] in
  match vm_blockBuilder vm with
  | None =>
      (Some (Errorf "block builder not initialized"), vm, starting ++ [Unlock_builderLock])
  | Some bb =>
      let started :=
        [Go_awaitTxSubmissions; Did (Log LvlInfo "initBlockBuilding blockBuilder started")] in
      let '(bb', checked) :=
        match mempool with
        | Some mp =>
            let txCount := List.length (MiningDescs mp) in
            let checking := Did (Log LvlInfo "initBlockBuilding checking mempool") in
            if (0 <? txCount)%nat then
              let '(bb1, acts) := signalCanBuild bb in
              (bb1,
               [checking] ++ map Did acts
                 ++ [Did (Log LvlInfo
                            "initBlockBuilding signaled can build due to existing transactions")])
            else (bb, [checking])
        | None => (bb, [])
        end in
      (None, set_blockBuilder (Some bb') vm,
       starting ++ started ++ checked
         ++ [Did (Log LvlInfo "initBlockBuilding completed"); Unlock_builderLock])
  end.

(** [onNormalOperationsStarted]: [initializeGossip] is what
    [vm.initializeGossip()] returns. *)
Definition onNormalOperationsStarted (initializeGossip : option error)
    : option error * list LifeEvent :=
  let starting := [Did (Log LvlInfo "Starting normal operations"); Call_initializeGossip] in
  match initializeGossip with
  | Some err => (Some (Wrapf "failed to initialize gossip: %w" err), starting)
  | None =>
      (None,
       starting
         ++ [Did (Log LvlInfo "Starting gossip loops");
             Go_pushGossipLoop; Go_pullGossipLoop;
             Did (Log LvlInfo "Gossip loops started successfully");
             Did (Log LvlInfo "Normal operations started successfully")])
  end.

(** What the world answers when the VM enters normal operation. *)
Record NormalOpEnv : Type := {
  env_initializeGossip : option error;
  env_pool : option Ledger
}.

Definition set_bootstrapped (flag : bool) (node : Node) : Node :=
  {| node_vm := node_vm node; bootstrapped := flag |}.

(** The [switch] of [SetState]. *)
Definition SetState_switch (state : snow_State) (env : NormalOpEnv) (node : Node)
    : option error * Node * list LifeEvent :=
  match state with
  | StateSyncing =>
      (None, set_bootstrapped false node,
       [Did (Log LvlInfo "Bitcoin VM entering state sync")])
  | Bootstrapping =>
      (None, set_bootstrapped false node, [Did (Log LvlInfo "Bitcoin VM bootstrapping")])
  | NormalOp =>
      if bootstrapped node then
        (None, node,
         [Did (Log LvlDebug
                 "Bitcoin VM already bootstrapped, skipping gossip initialization")])
      else
        let node1 := set_bootstrapped true node in
        let entering := Did (Log LvlInfo "Bitcoin VM entering normal operation") in
        match onNormalOperationsStarted (env_initializeGossip env) with
        | (Some err, evs) => (Some err, node1, entering :: evs)
        | (None, evs) =>
            let '(err, vm', evs') := initBlockBuilding (env_pool env) (node_vm node1) in
            (err, {| node_vm := vm'; bootstrapped := true |}, entering :: evs ++ evs')
        end
  | OtherState => (Some (Errorf "unknown state: %s"), node, [])
  end.

(** [SetState]: the entry is logged first and, by the [defer], the exit
    last. *)
Definition SetState (state : snow_State) (env : NormalOpEnv) (node : Node)
    : option error * Node * list LifeEvent :=
  let '(err, node', evs) := SetState_switch state env node in
  (err, node',
   [Did (Log LvlDebug "entering SetState"); Did (Log LvlInfo "setting VM state")]
     ++ evs ++ [Did (Log LvlDebug "exiting SetState")]).

(** A run of calls of [SetState], each with its answers of the world. *)
Fixpoint SetState_run (calls : list (snow_State * NormalOpEnv)) (node : Node)
    : list (option error) * Node * list LifeEvent :=
  match calls with
  | [] => ([], node, [])
  | (state, env) :: rest =>
      let '(err, node1, evs1) := SetState state env node in
      let '(errs, node2, evs2) := SetState_run rest node1 in
      (err :: errs, node2, evs1 ++ evs2)
  end.

(** The calls of [initializeGossip] in a trace. *)
Definition gossip_initializations (evs : list LifeEvent) : nat :=
  List.length
    (filter (fun ev => match ev with Call_initializeGossip => true | _ => false end) evs).

(** The tasks of the builder that a trace starts. *)
Definition life_spawned (evs : list LifeEvent) : nat :=
  List.length
    (filter (fun ev => match ev with Did Go_scheduleBlockBuild => true | _ => false end) evs).

(** The goroutines a trace starts, in order, and what it does to
    [vm.builderLock]. *)
Definition is_goroutine (ev : LifeEvent) : bool :=
  match ev with
  | Go_awaitTxSubmissions | Go_pushGossipLoop | Go_pullGossipLoop
  | Did Go_scheduleBlockBuild => true
  | _ => false
  end.

Definition goroutines (evs : list LifeEvent) : list LifeEvent := filter is_goroutine evs.

Definition on_builderLock (evs : list LifeEvent) : list LifeEvent :=
  filter (fun ev => match ev with Lock_builderLock | Unlock_builderLock => true | _ => false end)
    evs.

(** [n] calls of [onTxAccepted], from [queued] signals in the channel. *)
Fixpoint onTxAccepted_burst (n : nat) (queued : nat) : nat :=
  match n with
  | O => queued
  | S n' => onTxAccepted_burst n' (fst (onTxAccepted queued))
  end.

End Lifecycle.

(** ** cmd/btcvm: configuration and profiling *)

Module btcvm_cmd.

Record config : Type := {
  cfg_LogLevel : string;
  cfg_LogDir : string;
  cfg_CPUProfile : string;
  cfg_MemProfile : string;
  cfg_HTTPProfile : string;
  cfg_DataDir : string;
  cfg_ShowVersion : bool
}.

(** Package [os]: the file system, and [os.MkdirAll(path, perm)] on it. *)
Class OS : Type := {
  FS : Type;
  MkdirAll : string -> Z -> FS -> option error * FS
}.

Section WithOS.

Context {os : OS}.

Definition validLevels : list string :=
  ["trace"; "debug"; "info"; "warn"; "error"; "crit"]%string.

(** The loop [for _, dir := range dirs] of [validate] and of
    [checkRequiredDirectories]; [0700] is 448. *)
Fixpoint mkdir_dirs (dirs : list string) (fs : FS) : option error * FS :=
  match dirs with
  | [] => (None, fs)
  | dir :: rest =>
      match MkdirAll dir 448 fs with
      | (Some err, fs') => (Some (Wrapf "failed to create directory %s: %w" err), fs')
      | (None, fs') => mkdir_dirs rest fs'
      end
  end.

(** [config.validate] *)
Definition validate (c : config) (fs : FS) : option error * FS :=
  let validLevel := existsb (String.eqb (cfg_LogLevel c)) validLevels in
  if negb validLevel then (Some (Errorf "invalid log level: %s (valid: %v)"), fs)
  else
    let dirs :=
      [cfg_DataDir c] ++ (if String.eqb (cfg_LogDir c) "" then [] else [cfg_LogDir c]) in
    mkdir_dirs dirs fs.

Definition checkRequiredDirectories (dataDir logDir : string) (fs : FS) : option error * FS :=
  mkdir_dirs [dataDir; logDir] fs.

End WithOS.

(** What [startProfiler] and the cleanup it returns do to the process. *)
Inductive ProfEvent : Type :=
(** [os.Create(path)], and whether it gave a file *)
| os_Create (path : string) (ok : bool)
(** [f.Close()] of the file created at [path] *)
| file_Close (path : string)
| StartCPUProfile (ok : bool)
| StopCPUProfile
| runtime_GC
| WriteHeapProfile (ok : bool)
(** the goroutine serving HTTP profiling on a port *)
| Go_httpServer (port : string)
| ProfLog (lvl : LogLevel) (msg : string).

(** What the world answers to the profiler. *)
Record ProfEnv : Type := {
  env_Create_cpu : option error;
  env_StartCPUProfile : option error;
  env_Create_mem : option error;
  env_WriteHeapProfile : option error
}.

(** The closures appended to [cleanupFuncs]. *)
Inductive Cleanup : Type :=
| CleanupCPU (path : string)
| CleanupMem (path : string).

Definition run_one_cleanup (env : ProfEnv) (c : Cleanup) : list ProfEvent :=
  match c with
  | CleanupCPU path =>
      [StopCPUProfile; file_Close path; ProfLog LvlInfo "CPU profile written"]
  | CleanupMem path =>
      match env_Create_mem env with
      | Some _ => [os_Create path false; ProfLog LvlError "Failed to create memory profile"]
      | None =>
          match env_WriteHeapProfile env with
          | Some _ =>
              [os_Create path true; runtime_GC; WriteHeapProfile false;
               ProfLog LvlError "Failed to write memory profile"; file_Close path]
          | None =>
              [os_Create path true; runtime_GC; WriteHeapProfile true;
               ProfLog LvlInfo "Memory profile written"; file_Close path]
          end
      end
  end.

(** The function [startProfiler] returns: it runs the cleanups in order. *)
Definition run_cleanup (env : ProfEnv) (cleanupFuncs : list Cleanup) : list ProfEvent :=
  flat_map (run_one_cleanup env) cleanupFuncs.

Definition startProfiler (cpuProfile memProfile httpProfile : string) (env : ProfEnv)
    : result (list Cleanup) * list ProfEvent :=
  let finish (cleanupFuncs : list Cleanup) (evs : list ProfEvent) :=
    let cleanupFuncs :=
      if String.eqb memProfile "" then cleanupFuncs
      else cleanupFuncs ++ [CleanupMem memProfile] in
    let evs :=
      if String.eqb httpProfile "" then evs else evs ++ [Go_httpServer httpProfile] in
    (Ok cleanupFuncs, evs) in
  if String.eqb cpuProfile "" then finish [] []
  else
    match env_Create_cpu env with
    | Some err =>
        (Err (Wrapf "failed to create CPU profile: %w" err), [os_Create cpuProfile false])
    | None =>
        match env_StartCPUProfile env with
        | Some err =>
            (Err (Wrapf "failed to start CPU profile: %w" err),
             [os_Create cpuProfile true; StartCPUProfile false; file_Close cpuProfile])
        | None =>
            finish [CleanupCPU cpuProfile]
              [os_Create cpuProfile true; StartCPUProfile true;
               ProfLog LvlInfo "CPU profiling enabled"]
        end
    end.

(** The files a trace leaves open, and whether it leaves the CPU profiler
    running. *)
Fixpoint remove_one (path : string) (files : list string) : list string :=
  match files with
  | [] => []
  | f :: rest => if String.eqb path f then rest else f :: remove_one path rest
  end.

Fixpoint open_files (evs : list ProfEvent) (files : list string) : list string :=
  match evs with
  | [] => files
  | os_Create path true :: rest => open_files rest (path :: files)
  | file_Close path :: rest => open_files rest (remove_one path files)
  | _ :: rest => open_files rest files
  end.

Fixpoint cpu_profiling (evs : list ProfEvent) (running : bool) : bool :=
  match evs with
  | [] => running
  | StartCPUProfile true :: rest => cpu_profiling rest true
  | StopCPUProfile :: rest => cpu_profiling rest false
  | _ :: rest => cpu_profiling rest running
  end.

End btcvm_cmd.

(** ** Samples for the rest of the repository

    A chain that hands back, for a hash of its index, a block whose message
    is that hash; header hashes for the genesis generator; a file system that
    keeps the directories made, and refuses the empty path. *)
Module SampleChain.

Import Sample.

Definition block_by_hash (l : Sample.ledger_state) (h : Hash)
    : result (BlockObj (W := Sample.wire)) :=
  if (List.length h =? HashSize)%nat && existsb (Hash_IsEqual h) (Sample.index l) then
    Ok {| obj_block := NewBlock (W := Sample.wire) h;
          obj_height := Z.of_nat (List.length (Sample.index l)) - 1 |}
  else Err (Errorf "block not found").

Definition block_hash_by_height (l : Sample.ledger_state) (height : Z) : result Hash :=
  if (0 <=? height) && (height <? Z.of_nat (List.length (Sample.index l))) then
    Ok (nth (Z.to_nat height) (Sample.index l) (repeat x00 HashSize))
  else Err (Errorf "no block at height").

#[export] Instance chain : ChainAccess (W := Sample.wire) (E := Sample.engine) :=
  @Build_ChainAccess Sample.wire Sample.engine
    (fun _ => repeat x00 HashSize)
    (fun _ => 1700000000000000000)
    (fun b => Sample.encode (Block_MsgBlock (W := Sample.wire) b))
    block_by_hash
    block_hash_by_height.

(** [Sample.block1] on the wire. *)
Definition block1_bytes : list byte := [x03; xb1; xb2; xb3].

(** A VM whose chain has the one block [Sample.block1]. *)
Definition ledger_one_block : Sample.ledger_state :=
  {| Sample.pool := []; Sample.index := [Block_Hash Sample.block1];
     Sample.index_in_service := true |}.

Definition vm_one_block : VM (W := Sample.wire) (E := Sample.engine) :=
  {| ledger := ledger_one_block;
     OnTxRelay := Some (Initialize_OnTxRelay true);
     bloom := [];
     preferred := ids_Empty;
     lastAccepted := ids_Empty;
     vm_blockBuilder := Some Sample.builder0;
     initialized := true |}.

(** The generator's parameters: a header hash that meets the target at
    nonce 3 only, and one that never meets it. *)
Definition header_hash (h : genesis.BlockHeader) : Hash :=
  if genesis.Nonce h =? 3 then repeat x00 HashSize else repeat xff HashSize.

Definition header_hash_never (h : genesis.BlockHeader) : Hash := repeat xff HashSize.

Definition tx_hash (t : genesis.MsgTx) : Hash := repeat x11 HashSize.

Definition pay_to_addr_script (addr : string) : result (list byte) :=
  if String.eqb addr "" then Err (Errorf "unsupported address type")
  else Ok [x76; xa9].

Definition header0 : genesis.BlockHeader :=
  {| genesis.Version := 1; genesis.PrevBlock := genesis.zero_hash;
     genesis.MerkleRoot := repeat x11 HashSize; genesis.Timestamp := 1700000000000000000;
     genesis.Bits := 486604799; genesis.Nonce := 0 |}.

(** A file system as the directories made so far; the empty path cannot be
    made. *)
#[export] Instance os : btcvm_cmd.OS := {|
  btcvm_cmd.FS := list string;
  btcvm_cmd.MkdirAll := fun path _ fs =>
    if String.eqb path "" then (Some (Errorf "mkdir : no such file or directory"), fs)
    else (None, fs ++ [path])
|}.

Definition config0 : btcvm_cmd.config :=
  {| btcvm_cmd.cfg_LogLevel := "info";
     btcvm_cmd.cfg_LogDir := "";
     btcvm_cmd.cfg_CPUProfile := "";
     btcvm_cmd.cfg_MemProfile := "";
     btcvm_cmd.cfg_HTTPProfile := "";
     btcvm_cmd.cfg_DataDir := "data";
     btcvm_cmd.cfg_ShowVersion := false |}.

End SampleChain.


(** * Properties *)

(** ** Identities of gossip items *)

Section GossipProperties.

Context {W : Wire}.

Lemma ids_Empty_all_zero :
  List.length ids_Empty = HashSize /\ Forall (eq x00) ids_Empty.
Proof.
  unfold ids_Empty. split.
  - apply repeat_length.
  - apply Forall_forall. intros b Hb. symmetry. exact (repeat_spec _ _ _ Hb).
Qed.

Lemma hashToID_Some (h : Hash) : hashToID (Some h) = h.
Proof. reflexivity. Qed.

Lemma GossipID_tx (g : BTCGossip) :
  ItemType g = GossipItemTypeTx ->
  GossipID g = match Tx g with Some tx => Tx_Hash tx | None => ids_Empty end.
Proof.
  unfold GossipID, GossipItemTypeTx. intros ->. now destruct (Tx g).
Qed.

Lemma GossipID_block (g : BTCGossip) :
  ItemType g = GossipItemTypeBlock ->
  GossipID g = match Block g with Some blk => Block_Hash blk | None => ids_Empty end.
Proof.
  unfold GossipID, GossipItemTypeBlock. intros ->. now destruct (Block g).
Qed.

Lemma GossipID_unknown (g : BTCGossip) :
  ItemType g <> GossipItemTypeTx ->
  ItemType g <> GossipItemTypeBlock ->
  GossipID g = ids_Empty.
Proof.
  unfold GossipID, GossipItemTypeTx, GossipItemTypeBlock.
  intros Htx Hblock.
  destruct (ItemType g); try reflexivity; congruence.
Qed.

(** Over payloads that wrap a message: a Tx item with a transaction has the
    transaction's hash, a Block item with a block has the block's hash, and
    every other wrapper (the payload of the tagged kind is nil, or the tag is
    neither Tx nor Block) has the all-zero identity [ids.Empty]. *)
Lemma GossipID_total (g : BTCGossip) :
  (forall tx, ItemType g = GossipItemTypeTx -> Tx g = Some tx ->
     GossipID g = Tx_Hash tx)
  /\ (forall blk, ItemType g = GossipItemTypeBlock -> Block g = Some blk ->
        GossipID g = Block_Hash blk)
  /\ (ItemType g = GossipItemTypeTx -> Tx g = None -> GossipID g = ids_Empty)
  /\ (ItemType g = GossipItemTypeBlock -> Block g = None -> GossipID g = ids_Empty)
  /\ (ItemType g <> GossipItemTypeTx -> ItemType g <> GossipItemTypeBlock ->
        GossipID g = ids_Empty)
  /\ ids_Empty = repeat x00 32.
Proof.
  repeat split.
  - intros tx Hkind Htx. rewrite (GossipID_tx g Hkind), Htx. reflexivity.
  - intros blk Hkind Hblk. rewrite (GossipID_block g Hkind), Hblk. reflexivity.
  - intros Hkind Htx. rewrite (GossipID_tx g Hkind), Htx. reflexivity.
  - intros Hkind Hblk. rewrite (GossipID_block g Hkind), Hblk. reflexivity.
  - apply GossipID_unknown.
Qed.

(** On an item whose payloads wrap a message, [GossipID] over pointers
    returns, and returns what [GossipID] above gives. *)
Lemma Ptr_GossipID_of_item (g : BTCGossip) :
  Ptr.GossipID (Ptr_of_item g) = Ptr.Returns (GossipID g).
Proof.
  unfold Ptr.GossipID, Ptr_of_item, GossipID. cbn.
  destruct (ItemType g); try reflexivity.
  - now destruct (Tx g).
  - now destruct (Block g).
Qed.

(** C10, as the code has it.  [GossipID] guards the payload pointer and not
    the message behind it.  On a Tx item with a transaction that wraps a
    message it returns the transaction's hash, on a Block item with a block
    that wraps a message the block's hash, and on every other wrapper whose
    tagged payload is nil, or whose tag is neither Tx nor Block, the all-zero
    identity [ids.Empty].  It panics exactly on a Tx item whose transaction,
    or a Block item whose block, wraps a nil message. *)
Theorem GossipID_outcome (g : Ptr.BTCGossip) :
  (forall tx m, Ptr.ItemType g = GossipItemTypeTx -> Ptr.Tx g = Some tx ->
     Ptr.msgTx tx = Some m ->
     Ptr.GossipID g = Ptr.Returns (TxHash m))
  /\ (forall blk m, Ptr.ItemType g = GossipItemTypeBlock -> Ptr.Block g = Some blk ->
        Ptr.msgBlock blk = Some m ->
        Ptr.GossipID g = Ptr.Returns (BlockHash m))
  /\ (Ptr.ItemType g = GossipItemTypeTx -> Ptr.Tx g = None ->
        Ptr.GossipID g = Ptr.Returns ids_Empty)
  /\ (Ptr.ItemType g = GossipItemTypeBlock -> Ptr.Block g = None ->
        Ptr.GossipID g = Ptr.Returns ids_Empty)
  /\ (Ptr.ItemType g <> GossipItemTypeTx -> Ptr.ItemType g <> GossipItemTypeBlock ->
        Ptr.GossipID g = Ptr.Returns ids_Empty)
  /\ (Ptr.GossipID g = Ptr.Panics
      <-> (Ptr.ItemType g = GossipItemTypeTx
           /\ exists tx, Ptr.Tx g = Some tx /\ Ptr.msgTx tx = None)
          \/ (Ptr.ItemType g = GossipItemTypeBlock
              /\ exists blk, Ptr.Block g = Some blk /\ Ptr.msgBlock blk = None))
  /\ ids_Empty = repeat x00 32.
Proof.
  unfold GossipItemTypeTx, GossipItemTypeBlock.
  split; [| split; [| split; [| split; [| split; [| split]]]]].
  - intros tx m Hkind Htx Hm. unfold Ptr.GossipID, Ptr.Tx_Hash.
    now rewrite Hkind, Htx, Hm.
  - intros blk m Hkind Hblk Hm. unfold Ptr.GossipID, Ptr.Block_Hash.
    now rewrite Hkind, Hblk, Hm.
  - intros Hkind Htx. unfold Ptr.GossipID. now rewrite Hkind, Htx.
  - intros Hkind Hblk. unfold Ptr.GossipID. now rewrite Hkind, Hblk.
  - intros Htx Hblk. unfold Ptr.GossipID.
    destruct (Ptr.ItemType g); try reflexivity; congruence.
  - unfold Ptr.GossipID, Ptr.Tx_Hash, Ptr.Block_Hash. split.
    + intros Hpanic.
      destruct (Ptr.ItemType g); try discriminate Hpanic.
      * left. split; [reflexivity |].
        destruct (Ptr.Tx g) as [tx |]; [| discriminate Hpanic].
        exists tx. split; [reflexivity |].
        destruct (Ptr.msgTx tx); [discriminate Hpanic | reflexivity].
      * right. split; [reflexivity |].
        destruct (Ptr.Block g) as [blk |]; [| discriminate Hpanic].
        exists blk. split; [reflexivity |].
        destruct (Ptr.msgBlock blk); [discriminate Hpanic | reflexivity].
    + intros [[Hkind (tx & Htx & Hm)] | [Hkind (blk & Hblk & Hm)]].
      * now rewrite Hkind, Htx, Hm.
      * now rewrite Hkind, Hblk, Hm.
  - reflexivity.
Qed.

(** ** The codec *)

Lemma MarshalGossip_tx (x : BTCGossip) (tx : btcutil_Tx) (w : list byte) :
  ItemType x = GossipItemTypeTx ->
  Tx x = Some tx ->
  MsgTx_BtcEncode (Tx_MsgTx tx) 0 WitnessEncoding = Ok w ->
  MarshalGossip (Some x) = Ok (GossipItemTypeTx :: w).
Proof.
  intros Hkind Htx Henc. unfold MarshalGossip.
  rewrite Hkind, Htx. unfold GossipItemTypeTx. rewrite Henc. reflexivity.
Qed.

Lemma MarshalGossip_block (x : BTCGossip) (blk : btcutil_Block) (w : list byte) :
  ItemType x = GossipItemTypeBlock ->
  Block x = Some blk ->
  MsgBlock_BtcEncode (Block_MsgBlock blk) 0 WitnessEncoding = Ok w ->
  MarshalGossip (Some x) = Ok (GossipItemTypeBlock :: w).
Proof.
  intros Hkind Hblk Henc. unfold MarshalGossip.
  rewrite Hkind, Hblk. unfold GossipItemTypeBlock. rewrite Henc. reflexivity.
Qed.

Lemma UnmarshalGossip_tx (w : list byte) (m : MsgTx) :
  MsgTx_BtcDecode w 0 WitnessEncoding = Ok m ->
  UnmarshalGossip (GossipItemTypeTx :: w)
  = Ok {| ItemType := GossipItemTypeTx; Tx := Some (NewTx m); Block := None |}.
Proof. intros Hdec. cbn. rewrite Hdec. reflexivity. Qed.

Lemma UnmarshalGossip_block (w : list byte) (m : MsgBlock) :
  MsgBlock_BtcDecode w 0 WitnessEncoding = Ok m ->
  UnmarshalGossip (GossipItemTypeBlock :: w)
  = Ok {| ItemType := GossipItemTypeBlock; Tx := None; Block := Some (NewBlock m) |}.
Proof. intros Hdec. cbn. rewrite Hdec. reflexivity. Qed.

(** C2, as the code has it.  The codec adds the kind byte and leaves the
    payload to the wire codec: for a valid item [x] whose payload the wire
    codec writes as [w] and reads back from [w], [MarshalGossip] succeeds
    with the kind byte followed by [w], and [UnmarshalGossip] of those bytes
    succeeds with an item of the same kind and the same [GossipID].  A valid
    item whose own encoding the wire decoder refuses marshals and does not
    unmarshal. *)
Theorem codec_roundtrip (x : BTCGossip) (w : list byte) :
  valid_item x ->
  wire_roundtrips x w ->
  MarshalGossip (Some x) = Ok (ItemType x :: w)
  /\ exists y,
       UnmarshalGossip (ItemType x :: w) = Ok y
       /\ ItemType y = ItemType x
       /\ GossipID y = GossipID x.
Proof.
  intros Hvalid [Hwtx Hwblock].
  destruct Hvalid as [[Hkind Hsome] | [Hkind Hsome]].
  - destruct (Tx x) as [tx |] eqn:Htx; [clear Hsome | congruence].
    destruct (Hwtx Hkind tx eq_refl) as [Henc Hdec].
    rewrite Hkind. split.
    + now apply MarshalGossip_tx with (tx := tx).
    + eexists. split; [exact (UnmarshalGossip_tx w _ Hdec) |].
      split; [reflexivity |].
      rewrite (GossipID_tx x Hkind), Htx.
      now destruct tx.
  - destruct (Block x) as [blk |] eqn:Hblk; [clear Hsome | congruence].
    destruct (Hwblock Hkind blk eq_refl) as [Henc Hdec].
    rewrite Hkind. split.
    + now apply MarshalGossip_block with (blk := blk).
    + eexists. split; [exact (UnmarshalGossip_block w _ Hdec) |].
      split; [reflexivity |].
      rewrite (GossipID_block x Hkind), Hblk.
      now destruct blk.
Qed.

(** What the codec refuses: a nil item, a nil payload of the tagged kind and
    a kind that is neither Tx nor Block on the way out; empty input, an
    unknown discriminator and a payload the wire decoder refuses on the way
    in. *)
Theorem codec_errors :
  MarshalGossip None = Err (Errorf "nil gossip item")
  /\ (forall x, ItemType x = GossipItemTypeTx -> Tx x = None ->
        MarshalGossip (Some x) = Err (Errorf "nil transaction in gossip item"))
  /\ (forall x, ItemType x = GossipItemTypeBlock -> Block x = None ->
        MarshalGossip (Some x) = Err (Errorf "nil block in gossip item"))
  /\ (forall x, ItemType x <> GossipItemTypeTx -> ItemType x <> GossipItemTypeBlock ->
        MarshalGossip (Some x) = Err (Errorf "unknown gossip item type: %d"))
  /\ UnmarshalGossip [] = Err (Errorf "empty gossip data")
  /\ (forall t rest, t <> GossipItemTypeTx -> t <> GossipItemTypeBlock ->
        UnmarshalGossip (t :: rest) = Err (Errorf "unknown gossip item type: %d"))
  /\ (forall rest err, MsgTx_BtcDecode rest 0 WitnessEncoding = Err err ->
        UnmarshalGossip (GossipItemTypeTx :: rest)
        = Err (Wrapf "failed to decode tx: %w" err))
  /\ (forall rest err, MsgBlock_BtcDecode rest 0 WitnessEncoding = Err err ->
        UnmarshalGossip (GossipItemTypeBlock :: rest)
        = Err (Wrapf "failed to decode block: %w" err)).
Proof.
  split; [reflexivity |].
  split; [intros x Hkind Hnil; unfold MarshalGossip; rewrite Hkind, Hnil; reflexivity |].
  split; [intros x Hkind Hnil; unfold MarshalGossip; rewrite Hkind, Hnil; reflexivity |].
  split.
  { intros x Htx Hblock. unfold MarshalGossip.
    unfold GossipItemTypeTx, GossipItemTypeBlock in *.
    destruct (ItemType x); try reflexivity; congruence. }
  split; [reflexivity |].
  split.
  { intros t rest Htx Hblock. unfold UnmarshalGossip.
    unfold GossipItemTypeTx, GossipItemTypeBlock in *.
    destruct t; try reflexivity; congruence. }
  split; intros rest err Hdec; cbn; rewrite Hdec; reflexivity.
Qed.

End GossipProperties.

(** ** The gossip configuration *)

Section ConfigProperties.

(** The constants are binary64 numbers in canonical form. *)
Lemma f64_constants_valid :
  Forall (fun x => valid_binary 53 1024 x = true)
    [f64_0; f64_1; f64_0_9; f64_0_01; f64_0_05; f64_NaN].
Proof. repeat constructor. Qed.

Lemma SFcompare_antisym (x y : float64) :
  SFcompare y x = option_map CompOpp (SFcompare x y).
Proof.
  destruct x as [sx | sx | | sx mx ex], y as [sy | sy | | sy my ey]; cbn;
    try reflexivity;
    try (destruct sx; reflexivity);
    try (destruct sy; reflexivity);
    try (destruct sx, sy; reflexivity).
  destruct sx, sy; cbn; try reflexivity;
    rewrite (Z.compare_antisym ex ey);
    destruct (ex ?= ey); cbn; try reflexivity.
  - rewrite CompOpp_involutive. f_equal. exact (Pos.compare_cont_antisym my mx Eq).
  - f_equal. symmetry. exact (Pos.compare_cont_antisym mx my Eq).
Qed.

Lemma SFcompare_defined (x y : float64) :
  is_NaN x = false -> is_NaN y = false -> exists c, SFcompare x y = Some c.
Proof.
  destruct x, y; cbn; intros Hx Hy; try discriminate; eauto.
Qed.

(** Away from NaN the IEEE order is total: [x < y] is the negation of
    [y <= x]. *)
Lemma f64_lt_not_ge (x y : float64) :
  is_NaN x = false -> is_NaN y = false -> f64_lt x y = negb (f64_le y x).
Proof.
  intros Hx Hy. unfold f64_lt, f64_le, SFltb, SFleb.
  rewrite (SFcompare_antisym x y).
  destruct (SFcompare_defined x y Hx Hy) as [c ->].
  now destruct c.
Qed.

Lemma f64_le_not_gt (x y : float64) :
  is_NaN x = false -> is_NaN y = false -> f64_le x y = negb (f64_lt y x).
Proof.
  intros Hx Hy. rewrite (f64_lt_not_ge y x Hy Hx). now rewrite negb_involutive.
Qed.

(** What [Validate] tests on a fraction and on a filter parameter. *)
Lemma stake_test_spec (x : float64) :
  is_NaN x = false ->
  f64_lt x f64_0 || f64_gt x f64_1 = negb (in_closed_unit x).
Proof.
  intros Hx. unfold in_closed_unit.
  change (f64_gt x f64_1) with (f64_lt f64_1 x).
  rewrite (f64_lt_not_ge x f64_0 Hx eq_refl), (f64_lt_not_ge f64_1 x eq_refl Hx).
  now rewrite negb_andb.
Qed.

Lemma rate_test_spec (x : float64) :
  is_NaN x = false ->
  f64_le x f64_0 || f64_ge x f64_1 = negb (in_open_unit x).
Proof.
  intros Hx. unfold in_open_unit.
  change (f64_ge x f64_1) with (f64_le f64_1 x).
  rewrite (f64_le_not_gt x f64_0 Hx eq_refl), (f64_le_not_gt f64_1 x eq_refl Hx).
  now rewrite negb_andb.
Qed.

(** [Validate] answers [nil] exactly when none of its eleven tests fires. *)
Lemma Validate_nil_iff (c : GossipConfig) :
  Validate c = None <->
  (f64_lt (PushGossipPercentStake c) f64_0 || f64_gt (PushGossipPercentStake c) f64_1 = false
   /\ 0 <= PushGossipNumValidators c
   /\ 0 <= PushGossipNumPeers c
   /\ 0 < PushGossipFrequency c
   /\ 0 < PullGossipFrequency c
   /\ 0 <= PushRegossipNumValidators c
   /\ 0 <= PushRegossipNumPeers c
   /\ 0 < RegossipFrequency c
   /\ 0 < BloomFilterSize c
   /\ f64_le (BloomFalsePositiveRate c) f64_0 || f64_ge (BloomFalsePositiveRate c) f64_1 = false
   /\ f64_le (BloomResetThreshold c) f64_0 || f64_ge (BloomResetThreshold c) f64_1 = false).
Proof.
  unfold Validate.
  destruct (f64_lt (PushGossipPercentStake c) f64_0 || f64_gt (PushGossipPercentStake c) f64_1);
    [split; [discriminate | intros [H _]; discriminate] |].
  destruct (Z.ltb_spec (PushGossipNumValidators c) 0);
    [split; [discriminate | intros; lia] |].
  destruct (Z.ltb_spec (PushGossipNumPeers c) 0);
    [split; [discriminate | intros; lia] |].
  destruct (Z.leb_spec (PushGossipFrequency c) 0);
    [split; [discriminate | intros; lia] |].
  destruct (Z.leb_spec (PullGossipFrequency c) 0);
    [split; [discriminate | intros; lia] |].
  destruct (Z.ltb_spec (PushRegossipNumValidators c) 0);
    [split; [discriminate | intros; lia] |].
  destruct (Z.ltb_spec (PushRegossipNumPeers c) 0);
    [split; [discriminate | intros; lia] |].
  destruct (Z.leb_spec (RegossipFrequency c) 0);
    [split; [discriminate | intros; lia] |].
  destruct (Z.leb_spec (BloomFilterSize c) 0);
    [split; [discriminate | intros; lia] |].
  destruct (f64_le (BloomFalsePositiveRate c) f64_0 || f64_ge (BloomFalsePositiveRate c) f64_1);
    [split; [discriminate | intros (_ & _ & _ & _ & _ & _ & _ & _ & _ & Hf & _); discriminate] |].
  destruct (f64_le (BloomResetThreshold c) f64_0 || f64_ge (BloomResetThreshold c) f64_1);
    [split; [discriminate | intros (_ & _ & _ & _ & _ & _ & _ & _ & _ & _ & Hf); discriminate] |].
  split; [intros _; repeat split; (reflexivity || lia) | reflexivity].
Qed.

Lemma constraints_hold_iff (c : GossipConfig) :
  constraints_hold c = true <->
  (in_closed_unit (PushGossipPercentStake c) = true
   /\ 0 <= PushGossipNumValidators c
   /\ 0 <= PushGossipNumPeers c
   /\ 0 < PushGossipFrequency c
   /\ 0 < PullGossipFrequency c
   /\ 0 <= PushRegossipNumValidators c
   /\ 0 <= PushRegossipNumPeers c
   /\ 0 < RegossipFrequency c
   /\ 0 < BloomFilterSize c
   /\ in_open_unit (BloomFalsePositiveRate c) = true
   /\ in_open_unit (BloomResetThreshold c) = true).
Proof.
  unfold constraints_hold.
  rewrite !andb_true_iff, !Z.leb_le, !Z.ltb_lt. tauto.
Qed.

(** Away from NaN, [Validate] returns an error if and only if a constraint
    of the specification is violated. *)
Theorem Validate_iff_constraints (c : GossipConfig) :
  is_NaN (PushGossipPercentStake c) = false ->
  is_NaN (BloomFalsePositiveRate c) = false ->
  is_NaN (BloomResetThreshold c) = false ->
  (Validate c = None <-> constraints_hold c = true)
  /\ ((exists err, Validate c = Some err) <-> constraints_hold c = false).
Proof.
  intros Hstake Hrate Hthreshold.
  assert (Hnil : Validate c = None <-> constraints_hold c = true).
  { rewrite Validate_nil_iff, constraints_hold_iff.
    rewrite (stake_test_spec _ Hstake), (rate_test_spec _ Hrate),
      (rate_test_spec _ Hthreshold).
    rewrite !negb_false_iff. tauto. }
  split; [exact Hnil |].
  destruct (Validate c) as [err |] eqn:Hv; destruct (constraints_hold c) eqn:Hc.
  - destruct Hnil as [_ Hnil]. now specialize (Hnil eq_refl).
  - split; eauto.
  - split; [intros [err Herr]; discriminate | discriminate].
  - destruct Hnil as [Hnil _]. now specialize (Hnil eq_refl).
Qed.

(** The default configuration validates. *)
Theorem Validate_DefaultGossipConfig :
  Validate DefaultGossipConfig = None /\ constraints_hold DefaultGossipConfig = true.
Proof.
  split; [| vm_compute; reflexivity].
  apply Validate_nil_iff. cbn. repeat apply conj; (reflexivity || lia).
Qed.

(** C9, at the inputs where the code leaves the claim.  A NaN lies in no
    interval, and [Validate] accepts it in each of the three [float64]
    fields, because every comparison with a NaN is false: the default
    configuration with a NaN stake fraction, a NaN false-positive rate or a
    NaN reset threshold violates a constraint and is returned no error. *)
Theorem Validate_accepts_NaN :
  (in_closed_unit f64_NaN = false /\ in_open_unit f64_NaN = false)
  /\ (Validate (with_floats f64_NaN f64_0_01 f64_0_05 DefaultGossipConfig) = None
      /\ constraints_hold (with_floats f64_NaN f64_0_01 f64_0_05 DefaultGossipConfig) = false)
  /\ (Validate (with_floats f64_0_9 f64_NaN f64_0_05 DefaultGossipConfig) = None
      /\ constraints_hold (with_floats f64_0_9 f64_NaN f64_0_05 DefaultGossipConfig) = false)
  /\ (Validate (with_floats f64_0_9 f64_0_01 f64_NaN DefaultGossipConfig) = None
      /\ constraints_hold (with_floats f64_0_9 f64_0_01 f64_NaN DefaultGossipConfig) = false).
Proof.
  split; [split; reflexivity |].
  split; [| split];
    (split;
     [apply Validate_nil_iff; cbn; repeat apply conj; (reflexivity || lia)
     | reflexivity]).
Qed.

End ConfigProperties.

(** ** The block builder *)

Section BuilderProperties.

Context {W : Wire} {E : LedgerEngine}.

Lemma Hash_IsEqual_true_iff (h target : Hash) : Hash_IsEqual h target = true <-> h = target.
Proof.
  unfold Hash_IsEqual. destruct (list_eq_dec Byte.byte_eq_dec h target); split;
    congruence.
Qed.

Lemma Hash_IsEqual_false_iff (h target : Hash) :
  Hash_IsEqual h target = false <-> h <> target.
Proof.
  unfold Hash_IsEqual. destruct (list_eq_dec Byte.byte_eq_dec h target); split;
    congruence.
Qed.

(** [Sub] is the exact difference whenever that fits a [Duration]. *)
Lemma Sub_exact (t u : gotime.Time) :
  gotime.minDuration <= t - u <= gotime.maxDuration -> gotime.Sub t u = t - u.
Proof.
  intros [Hlo Hhi]. unfold gotime.Sub. cbv zeta.
  destruct (Z.ltb_spec (t - u) gotime.minDuration); [lia |].
  destruct (Z.ltb_spec gotime.maxDuration (t - u)); [lia | reflexivity].
Qed.

Lemma calculateBuildingDelay_first (b : blockBuilder) (h : Hash) (now : gotime.Time) :
  gotime.IsZero (lastBuildTime b) = true ->
  fst (calculateBuildingDelay b h now) = 0.
Proof. unfold calculateBuildingDelay. now intros ->. Qed.

Lemma calculateBuildingDelay_later (b : blockBuilder) (h : Hash) (now : gotime.Time) :
  gotime.IsZero (lastBuildTime b) = false ->
  fst (calculateBuildingDelay b h now)
  = Z.max 0
      (gotime.Sub
         (gotime.Add (lastBuildTime b)
            (if Hash_IsEqual (lastBuildParentHash b) h then RetryDelay else TargetBlockTime))
         now).
Proof.
  unfold calculateBuildingDelay. intros ->. cbn [fst].
  destruct (Hash_IsEqual (lastBuildParentHash b) h);
    match goal with
    | |- context [if ?d <? 0 then _ else _] => destruct (Z.ltb_spec d 0); lia
    end.
Qed.

(** C1.  The delay before the next build: zero when no attempt was ever
    recorded ([lastBuildTime] is the zero time); otherwise what is left, at
    [now], of [RetryDelay] (100 ms) after [lastBuildTime] when the current
    best block is the parent of the last attempt, and of [TargetBlockTime]
    (2 s) after [lastBuildTime] when it is another block; never negative.
    The difference of the two instants is Go's [Sub], which is the exact
    difference whenever that fits a [Duration]. *)
Theorem calculateBuildingDelay_spec (b : blockBuilder) (currentBlockHash : Hash)
    (now : gotime.Time) :
  let delay := fst (calculateBuildingDelay b currentBlockHash now) in
  (gotime.IsZero (lastBuildTime b) = true -> delay = 0)
  /\ (gotime.IsZero (lastBuildTime b) = false ->
      lastBuildParentHash b = currentBlockHash ->
      delay = Z.max 0 (gotime.Sub (gotime.Add (lastBuildTime b) RetryDelay) now))
  /\ (gotime.IsZero (lastBuildTime b) = false ->
      lastBuildParentHash b <> currentBlockHash ->
      delay = Z.max 0 (gotime.Sub (gotime.Add (lastBuildTime b) TargetBlockTime) now))
  /\ 0 <= delay
  /\ (RetryDelay = 100 * gotime.Millisecond /\ gotime.Millisecond = 1000000)
  /\ (TargetBlockTime = 2 * gotime.Second /\ gotime.Second = 1000000000)
  /\ (forall d : gotime.Duration,
        gotime.minDuration <= lastBuildTime b + d - now <= gotime.maxDuration ->
        gotime.Sub (gotime.Add (lastBuildTime b) d) now = lastBuildTime b + d - now).
Proof.
  cbv zeta. split; [| split; [| split; [| split; [| split; [| split]]]]].
  - apply calculateBuildingDelay_first.
  - intros Hlater Hretry.
    rewrite (calculateBuildingDelay_later _ _ _ Hlater).
    apply Hash_IsEqual_true_iff in Hretry. now rewrite Hretry.
  - intros Hlater Hother.
    rewrite (calculateBuildingDelay_later _ _ _ Hlater).
    apply Hash_IsEqual_false_iff in Hother. now rewrite Hother.
  - destruct (gotime.IsZero (lastBuildTime b)) eqn:Hzero.
    + rewrite (calculateBuildingDelay_first _ _ _ Hzero). lia.
    + rewrite (calculateBuildingDelay_later _ _ _ Hzero). apply Z.le_max_l.
  - split; reflexivity.
  - split; reflexivity.
  - intros d Hfits. unfold gotime.Add. now apply Sub_exact.
Qed.

(** *** Counting the goroutines and the notifications of a trace *)

Lemma spawned_app (l1 l2 : list Action) :
  spawned (l1 ++ l2) = (spawned l1 + spawned l2)%nat.
Proof. unfold spawned. now rewrite filter_app, length_app. Qed.

Lemma notifications_app (l1 l2 : list Action) :
  notifications (l1 ++ l2) = (notifications l1 + notifications l2)%nat.
Proof. unfold notifications. now rewrite filter_app, length_app. Qed.

Lemma set_hasPendingTxs_same (b : blockBuilder) :
  set_hasPendingTxs (hasPendingTxs b) b = b.
Proof. now destruct b. Qed.

Lemma signalCanBuild_state (b : blockBuilder) :
  fst (signalCanBuild b) = set_hasPendingTxs true b.
Proof. reflexivity. Qed.

Lemma signalCanBuild_spawned (b : blockBuilder) :
  spawned (snd (signalCanBuild b)) = if hasPendingTxs b then 0%nat else 1%nat.
Proof. unfold signalCanBuild. cbn [snd]. now destruct (hasPendingTxs b). Qed.

Lemma signalCanBuild_notifications (b : blockBuilder) :
  notifications (snd (signalCanBuild b)) = 0%nat.
Proof. unfold signalCanBuild. cbn [snd]. now destruct (hasPendingTxs b). Qed.

(** A signal that finds the builder Pending changes nothing and starts
    nothing: it takes the lock, reads the flag and returns. *)
Lemma signalCanBuild_coalesced (b : blockBuilder) :
  Pending b ->
  signalCanBuild b
  = (b,
     [Log LvlInfo "signalCanBuild called - transactions are available";
      Lock builder_lock; Unlock builder_lock;
      Log LvlInfo "signalCanBuild: build already scheduled, skipping"]).
Proof.
  unfold Pending, signalCanBuild. intros Hp. rewrite Hp. cbn.
  rewrite <- Hp. now rewrite set_hasPendingTxs_same.
Qed.

Lemma awaitTxSubmissions_step (n : nat) (b : blockBuilder) :
  awaitTxSubmissions (S n) b
  = (fst (awaitTxSubmissions n (fst (signalCanBuild b))),
     snd (signalCanBuild b) ++ snd (awaitTxSubmissions n (fst (signalCanBuild b)))).
Proof.
  cbn [awaitTxSubmissions].
  destruct (signalCanBuild b) as [b1 acts1].
  cbn [fst snd]. now destruct (awaitTxSubmissions n b1).
Qed.

(** Signals delivered while the builder is Pending: by induction on their
    number, the state stays as it is and no task is started. *)
Lemma awaitTxSubmissions_pending (n : nat) (b : blockBuilder) :
  Pending b ->
  fst (awaitTxSubmissions n b) = b
  /\ spawned (snd (awaitTxSubmissions n b)) = 0%nat
  /\ notifications (snd (awaitTxSubmissions n b)) = 0%nat.
Proof.
  intros Hp. induction n as [| n IH]; [now cbn |].
  rewrite awaitTxSubmissions_step, (signalCanBuild_coalesced b Hp).
  cbn [fst snd]. destruct IH as (IHb & IHs & IHn).
  rewrite spawned_app, notifications_app, IHb, IHs, IHn. now cbn.
Qed.

(** Signals delivered to an Idle builder: the first one opens the window
    and starts its task, the others are coalesced. *)
Lemma awaitTxSubmissions_idle (n : nat) (b : blockBuilder) :
  Idle b ->
  fst (awaitTxSubmissions (S n) b) = set_hasPendingTxs true b
  /\ spawned (snd (awaitTxSubmissions (S n) b)) = 1%nat
  /\ notifications (snd (awaitTxSubmissions (S n) b)) = 0%nat.
Proof.
  unfold Idle. intros Hidle.
  rewrite awaitTxSubmissions_step, signalCanBuild_state.
  assert (Hp : Pending (set_hasPendingTxs true b)) by reflexivity.
  destruct (awaitTxSubmissions_pending n _ Hp) as (Hb & Hs & Hn).
  cbn [fst snd]. rewrite spawned_app, notifications_app, Hb, Hs, Hn.
  rewrite signalCanBuild_spawned, signalCanBuild_notifications, Hidle.
  now cbn.
Qed.

Lemma calculateBuildingDelay_quiet (b : blockBuilder) (h : Hash) (now : gotime.Time) :
  notifications (snd (calculateBuildingDelay b h now)) = 0%nat
  /\ spawned (snd (calculateBuildingDelay b h now)) = 0%nat.
Proof.
  unfold calculateBuildingDelay.
  destruct (gotime.IsZero (lastBuildTime b)); [now cbn |].
  cbn [snd]. now destruct (Hash_IsEqual (lastBuildParentHash b) h).
Qed.

Lemma scheduleBlockBuild_notify_once (env : TaskEnv) (b : blockBuilder) :
  (notifications (snd (scheduleBlockBuild_notify env b)) <= 1)%nat
  /\ spawned (snd (scheduleBlockBuild_notify env b)) = 0%nat.
Proof.
  unfold scheduleBlockBuild_notify.
  destruct (needToBuild (env_TxMemPool env)); cbn [negb];
    [destruct (env_toEngine_ready env) |]; cbn; lia.
Qed.

(** One run of [scheduleBlockBuild] sends the host engine at most one
    message, and starts no task of its own. *)
Lemma scheduleBlockBuild_once (env : TaskEnv) (b : blockBuilder) :
  (notifications (snd (scheduleBlockBuild env b)) <= 1)%nat
  /\ spawned (snd (scheduleBlockBuild env b)) = 0%nat.
Proof.
  unfold scheduleBlockBuild.
  destruct (env_getCurrentBlock env) as [h | err]; [| cbn; lia].
  pose proof (calculateBuildingDelay_quiet b h (env_now env)) as [Hqn Hqs].
  destruct (calculateBuildingDelay b h (env_now env)) as [delay acts].
  cbn [snd] in Hqn, Hqs.
  pose proof (scheduleBlockBuild_notify_once env b) as [Hn Hs].
  destruct (scheduleBlockBuild_notify env b) as [b' acts'].
  cbn [snd] in Hn, Hs.
  destruct (0 <? delay); [destruct (env_waited env) |]; cbn [snd];
    rewrite ?notifications_app, ?spawned_app, ?Hqn, ?Hqs, ?Hs; cbn; lia.
Qed.

Lemma spawned_cons (a : Action) (acts : list Action) :
  spawned (a :: acts) = ((if is_spawn a then 1 else 0) + spawned acts)%nat.
Proof. unfold spawned. cbn [filter]. now destruct (is_spawn a). Qed.

(** The tasks a trace started send, all together, at most one message
    each. *)
Lemma run_spawned_notifications (acts : list Action) :
  forall (envs : list TaskEnv) (b : blockBuilder),
    (notifications (snd (run_spawned acts envs b)) <= spawned acts)%nat.
Proof.
  induction acts as [| a acts IH]; intros envs b; [apply Nat.le_0_l |].
  rewrite spawned_cons.
  destruct (is_spawn a) eqn:Ha.
  - destruct a; try discriminate Ha. cbn [run_spawned].
    destruct envs as [| env envs]; [apply Nat.le_0_l |].
    pose proof (scheduleBlockBuild_once env b) as [Hn _].
    destruct (scheduleBlockBuild env b) as [b1 acts1]. cbn [snd] in Hn.
    specialize (IH envs b1).
    destruct (run_spawned acts envs b1) as [b2 acts2]. cbn [snd] in IH |- *.
    rewrite notifications_app. lia.
  - replace (run_spawned (a :: acts) envs b) with (run_spawned acts envs b)
      by (destruct a; try reflexivity; discriminate Ha).
    apply IH.
Qed.

(** *** All interleavings *)

Lemma scheduleBlockBuild_notify_flag (env : TaskEnv) (b : blockBuilder) :
  hasPendingTxs (fst (scheduleBlockBuild_notify env b)) = true -> hasPendingTxs b = true.
Proof.
  unfold scheduleBlockBuild_notify.
  destruct (needToBuild (env_TxMemPool env)); cbn [negb];
    [destruct (env_toEngine_ready env) |]; cbn; congruence.
Qed.

(** A task never sets the flag: it leaves it as it is or clears it. *)
Lemma scheduleBlockBuild_flag (env : TaskEnv) (b : blockBuilder) :
  hasPendingTxs (fst (scheduleBlockBuild env b)) = true -> hasPendingTxs b = true.
Proof.
  unfold scheduleBlockBuild.
  destruct (env_getCurrentBlock env) as [h | err]; [| cbn; congruence].
  destruct (calculateBuildingDelay b h (env_now env)) as [delay acts].
  pose proof (scheduleBlockBuild_notify_flag env b) as Hflag.
  destruct (scheduleBlockBuild_notify env b) as [b' acts'].
  destruct (0 <? delay); [destruct (env_waited env) |]; cbn [fst] in *; auto.
Qed.

(** A step starts a task exactly when it opens a window. *)
Lemma builder_step_spawned (s : BuilderStep) (sys : BuilderSys) :
  spawned (snd (builder_step s sys)) = if opens_window s sys then 1%nat else 0%nat.
Proof.
  unfold opens_window. destruct s as [| env | parentHash now | |]; cbn [builder_step].
  - pose proof (signalCanBuild_spawned (sys_builder sys)) as Hs.
    destruct (signalCanBuild (sys_builder sys)) as [b acts] eqn:Hsig.
    assert (Hb : b = fst (signalCanBuild (sys_builder sys))) by now rewrite Hsig.
    cbn [fst snd sys_builder] in *. rewrite Hs, Hb, signalCanBuild_state. cbn.
    now destruct (hasPendingTxs (sys_builder sys)).
  - destruct (sys_inflight sys) as [| k].
    + cbn [fst snd]. now destruct (hasPendingTxs (sys_builder sys)).
    + pose proof (scheduleBlockBuild_once env (sys_builder sys)) as [_ Hs].
      pose proof (scheduleBlockBuild_flag env (sys_builder sys)) as Hflag.
      destruct (scheduleBlockBuild env (sys_builder sys)) as [b acts].
      cbn [fst snd sys_builder] in *. rewrite Hs.
      destruct (hasPendingTxs (sys_builder sys)); [reflexivity |].
      destruct (hasPendingTxs b); [| reflexivity].
      now specialize (Hflag eq_refl).
  - cbn. now rewrite andb_false_r.
  - cbn. now rewrite andb_false_r.
  - cbn. now rewrite andb_false_r.
Qed.

(** A step sends a notification only by running a started task, which is
    then no longer in flight. *)
Lemma builder_step_inflight (s : BuilderStep) (sys : BuilderSys) :
  (notifications (snd (builder_step s sys)) + sys_inflight (fst (builder_step s sys))
   <= sys_inflight sys + spawned (snd (builder_step s sys)))%nat.
Proof.
  destruct s as [| env | parentHash now | |]; cbn [builder_step].
  - pose proof (signalCanBuild_notifications (sys_builder sys)) as Hn.
    destruct (signalCanBuild (sys_builder sys)) as [b acts].
    cbn [fst snd sys_inflight] in *. lia.
  - destruct (sys_inflight sys) as [| k] eqn:Hk.
    + cbn [fst snd]. rewrite Hk. apply Nat.le_refl.
    + pose proof (scheduleBlockBuild_once env (sys_builder sys)) as [Hn Hs].
      destruct (scheduleBlockBuild env (sys_builder sys)) as [b acts].
      cbn [fst snd sys_inflight] in *. lia.
  - cbn. lia.
  - cbn. lia.
  - cbn. lia.
Qed.

Lemma builder_run_step (s : BuilderStep) (rest : list BuilderStep) (sys : BuilderSys) :
  builder_run (s :: rest) sys
  = (fst (builder_run rest (fst (builder_step s sys))),
     snd (builder_step s sys) ++ snd (builder_run rest (fst (builder_step s sys)))).
Proof.
  cbn [builder_run]. destruct (builder_step s sys) as [sys1 acts1].
  cbn [fst snd]. now destruct (builder_run rest sys1).
Qed.

(** In every interleaving of the builder's steps, the tasks started are as
    many as the pending windows opened, one each; and the notifications
    sent, with the tasks still to run, never exceed them. *)
Lemma builder_run_one_task_per_window (steps : list BuilderStep) :
  forall sys : BuilderSys,
    spawned (snd (builder_run steps sys)) = windows_opened steps sys
    /\ (notifications (snd (builder_run steps sys))
        + sys_inflight (fst (builder_run steps sys))
        <= sys_inflight sys + windows_opened steps sys)%nat.
Proof.
  induction steps as [| s rest IH]; intros sys.
  - cbn. split; [reflexivity | lia].
  - rewrite builder_run_step. cbn [fst snd windows_opened].
    destruct (IH (fst (builder_step s sys))) as [IHs IHn].
    pose proof (builder_step_spawned s sys) as Hs.
    pose proof (builder_step_inflight s sys) as Hn.
    rewrite spawned_app, notifications_app, IHs, Hs.
    split; [reflexivity | lia].
Qed.

(** [awaitTxSubmissions] and [handleBuildAttempt] are runs of such steps. *)
Lemma awaitTxSubmissions_as_steps (n k : nat) (b : blockBuilder) :
  awaitTxSubmissions n b
  = (sys_builder
       (fst (builder_run (repeat StepSignal n) {| sys_builder := b; sys_inflight := k |})),
     snd (builder_run (repeat StepSignal n) {| sys_builder := b; sys_inflight := k |})).
Proof.
  revert k b. induction n as [| n IH]; intros k b; [reflexivity |].
  rewrite awaitTxSubmissions_step. cbn [repeat]. rewrite builder_run_step.
  cbn [builder_step fst snd sys_builder sys_inflight].
  destruct (signalCanBuild b) as [b1 acts1]. cbn [fst snd].
  now rewrite (IH (k + spawned acts1)%nat b1).
Qed.

Lemma handleBuildAttempt_as_steps (parentHash : Hash) (now : gotime.Time)
    (mempool : option Ledger) (k : nat) (b : blockBuilder) :
  let r :=
    builder_run
      (StepRecordAttempt parentHash now :: if needToBuild mempool then [StepSignal] else [])
      {| sys_builder := b; sys_inflight := k |} in
  fst (handleBuildAttempt parentHash now mempool b) = sys_builder (fst r)
  /\ filter is_builder_action (snd (handleBuildAttempt parentHash now mempool b))
     = filter is_builder_action (snd r).
Proof.
  cbv zeta. unfold handleBuildAttempt.
  destruct (needToBuild mempool); split; reflexivity.
Qed.

(** C5.  [signalCanBuild] always leaves the builder Pending, and starts a
    scheduling task when, and only when, it found it Idle; a signal that
    finds it Pending changes nothing.  So of the signals delivered in one
    pending window the first starts the window's only task, and the tasks
    of the window send the host engine at most one notification.  Over all
    interleavings of the builder's steps, the tasks started are one for each
    pending window opened, and the notifications are no more than these. *)
Theorem signalCanBuild_coalesces (b : blockBuilder) (n : nat) (envs : list TaskEnv) :
  (Pending (fst (signalCanBuild b))
   /\ (Idle b -> spawned (snd (signalCanBuild b)) = 1%nat)
   /\ (Pending b ->
       fst (signalCanBuild b) = b /\ spawned (snd (signalCanBuild b)) = 0%nat))
  /\ (Pending b ->
      fst (awaitTxSubmissions n b) = b
      /\ spawned (snd (awaitTxSubmissions n b)) = 0%nat)
  /\ (Idle b ->
      Pending (fst (awaitTxSubmissions (S n) b))
      /\ spawned (snd (awaitTxSubmissions (S n) b)) = 1%nat)
  /\ (notifications
        (snd (awaitTxSubmissions n b)
           ++ snd (run_spawned (snd (awaitTxSubmissions n b)) envs
                     (fst (awaitTxSubmissions n b))))
      <= 1)%nat
  /\ (forall steps : list BuilderStep,
        let start := {| sys_builder := b; sys_inflight := 0 |} in
        spawned (snd (builder_run steps start)) = windows_opened steps start
        /\ (notifications (snd (builder_run steps start)) <= windows_opened steps start)%nat).
Proof.
  split; [| split; [| split; [| split]]].
  - split; [reflexivity | split].
    + unfold Idle. intros Hidle. now rewrite signalCanBuild_spawned, Hidle.
    + intros Hp. now rewrite (signalCanBuild_coalesced b Hp).
  - intros Hp. destruct (awaitTxSubmissions_pending n b Hp) as (Hb & Hs & _).
    now split.
  - intros Hidle. destruct (awaitTxSubmissions_idle n b Hidle) as (Hb & Hs & _).
    split; [now rewrite Hb | exact Hs].
  - rewrite notifications_app.
    pose proof (run_spawned_notifications (snd (awaitTxSubmissions n b)) envs
                  (fst (awaitTxSubmissions n b))) as Hrun.
    destruct (hasPendingTxs b) eqn:Hflag.
    + destruct (awaitTxSubmissions_pending n b Hflag) as (_ & Hs & Hn). lia.
    + destruct n as [| n]; [cbn; lia |].
      destruct (awaitTxSubmissions_idle n b Hflag) as (_ & Hs & Hn). lia.
  - intros steps. cbv zeta.
    destruct (builder_run_one_task_per_window steps
                {| sys_builder := b; sys_inflight := 0 |}) as [Hs Hn].
    split; [exact Hs |]. cbn [sys_inflight] in Hn. lia.
Qed.

(** *** Recording a build attempt *)

Lemma needToBuild_iff (mempool : option Ledger) :
  needToBuild mempool = true <-> exists mp, mempool = Some mp /\ MiningDescs mp <> [].
Proof.
  unfold needToBuild. destruct mempool as [mp |].
  - destruct (MiningDescs mp) as [| d ds] eqn:Hdescs; cbn; split.
    + discriminate.
    + intros (mp' & Hmp & Hne). inversion Hmp; subst mp'. congruence.
    + intros _. exists mp. split; [reflexivity | now rewrite Hdescs].
    + reflexivity.
  - split; [discriminate | intros (mp & Hmp & _); discriminate].
Qed.

Lemma handleBuildAttempt_fields (parentHash : Hash) (now : gotime.Time)
    (mempool : option Ledger) (b : blockBuilder) :
  lastBuildTime (fst (handleBuildAttempt parentHash now mempool b)) = now
  /\ lastBuildParentHash (fst (handleBuildAttempt parentHash now mempool b)) = parentHash.
Proof.
  unfold handleBuildAttempt. destruct (needToBuild mempool); split; reflexivity.
Qed.

(** C6.  [handleBuildAttempt parentHash] records the attempt
    ([lastBuildTime] becomes the current time, [lastBuildParentHash] the
    parent), clears the pending flag, and then calls [signalCanBuild], on the
    cleared state, if and only if the mempool holds pending transactions; so
    the builder ends Pending, with one new scheduling task, exactly in that
    case, and Idle with no task otherwise. *)
Theorem handleBuildAttempt_spec (parentHash : Hash) (now : gotime.Time)
    (mempool : option Ledger) (b : blockBuilder) :
  let cleared :=
    {| hasPendingTxs := false; lastBuildTime := now; lastBuildParentHash := parentHash |} in
  let b' := fst (handleBuildAttempt parentHash now mempool b) in
  let acts := snd (handleBuildAttempt parentHash now mempool b) in
  lastBuildTime b' = now
  /\ lastBuildParentHash b' = parentHash
  /\ (needToBuild mempool = true <-> exists mp, mempool = Some mp /\ MiningDescs mp <> [])
  /\ (needToBuild mempool = true ->
      b' = fst (signalCanBuild cleared)
      /\ Pending b'
      /\ spawned acts = 1%nat
      /\ exists recorded,
           acts = recorded ++ snd (signalCanBuild cleared)
           /\ spawned recorded = 0%nat)
  /\ (needToBuild mempool = false ->
      b' = cleared /\ Idle b' /\ spawned acts = 0%nat
      /\ filter is_builder_action acts
         = [Lock builder_buildBlockLock; Unlock builder_buildBlockLock;
            Lock builder_lock; Unlock builder_lock]).
Proof.
  cbv zeta. pose proof (needToBuild_iff mempool) as Hiff.
  unfold handleBuildAttempt.
  destruct (needToBuild mempool) eqn:Hneed.
  - split; [reflexivity |]. split; [reflexivity |]. split; [exact Hiff |].
    split; [intros _ | discriminate].
    split; [reflexivity |]. split; [reflexivity |]. split; [reflexivity |].
    eexists. split.
    + cbn [snd signalCanBuild set_hasPendingTxs hasPendingTxs].
      rewrite app_assoc. reflexivity.
    + reflexivity.
  - split; [reflexivity |]. split; [reflexivity |]. split; [exact Hiff |].
    split; [discriminate | intros _].
    split; [reflexivity |]. split; [reflexivity |]. split; reflexivity.
Qed.

(** *** [BuildBlock] and the failures of a scheduling task *)

Lemma BuildBlock_template_builder (env : BuildEnv) (vm : VM) (bb : blockBuilder) :
  vm_blockBuilder vm = Some bb ->
  exists bb',
    vm_blockBuilder (snd (fst (BuildBlock_template env vm))) = Some bb'
    /\ lastBuildTime bb' = lastBuildTime bb
    /\ lastBuildParentHash bb' = lastBuildParentHash bb
    /\ (forall adapter, fst (fst (BuildBlock_template env vm)) = Ok adapter -> Idle bb').
Proof.
  intros Hbb. unfold BuildBlock_template.
  assert (Hkeep : forall (e : error) (acts : list Action),
            exists bb',
              vm_blockBuilder (snd (fst (@Err BlockAdapter e, vm, acts))) = Some bb'
              /\ lastBuildTime bb' = lastBuildTime bb
              /\ lastBuildParentHash bb' = lastBuildParentHash bb
              /\ (forall adapter,
                    fst (fst (@Err BlockAdapter e, vm, acts)) = Ok adapter -> Idle bb')).
  { intros e acts. exists bb. cbn [fst snd].
    repeat split; [exact Hbb | discriminate]. }
  destruct (negb (build_generator env)); [apply Hkeep |].
  destruct (List.length (build_MiningAddrs env) =? 0)%nat; [apply Hkeep |].
  destruct (build_DecodeAddress env); [apply Hkeep |].
  destruct (build_NewBlockTemplate env); [| apply Hkeep].
  destruct (build_ProcessBlockNoPoW env) as [[isMainChain isOrphan] |]; [| apply Hkeep].
  destruct isOrphan; [apply Hkeep |].
  destruct (build_NewBlockAdapter env); [| apply Hkeep].
  rewrite Hbb. cbn [clearPendingSignal fst snd set_blockBuilder vm_blockBuilder].
  eexists. repeat split.
Qed.

(** Whenever [BuildBlock] has found the parent to build on, the attempt is
    recorded in the builder, whatever the later steps of the build answer;
    and a build that succeeds leaves the builder Idle. *)
Theorem BuildBlock_records_attempt (env : BuildEnv) (vm : VM) (bb : blockBuilder)
    (parentHash : Hash) :
  build_btcdAdapter env = true ->
  build_getCurrentBlock env = Ok parentHash ->
  vm_blockBuilder vm = Some bb ->
  exists bb',
    vm_blockBuilder (snd (fst (BuildBlock env vm))) = Some bb'
    /\ lastBuildTime bb' = build_now env
    /\ lastBuildParentHash bb' = parentHash
    /\ (forall adapter, fst (fst (BuildBlock env vm)) = Ok adapter -> Idle bb').
Proof.
  intros Hadapter Hcurrent Hbb. unfold BuildBlock.
  rewrite Hadapter, Hcurrent, Hbb. cbn [negb].
  pose proof (handleBuildAttempt_fields parentHash (build_now env) (build_TxMemPool env) bb)
    as [Htime Hparent].
  destruct (handleBuildAttempt parentHash (build_now env) (build_TxMemPool env) bb)
    as [bb1 acts1].
  cbn [fst] in Htime, Hparent.
  destruct (BuildBlock_template_builder env (set_blockBuilder (Some bb1) vm) bb1 eq_refl)
    as (bb' & Hvm & Ht & Hp & Hidle).
  destruct (BuildBlock_template env (set_blockBuilder (Some bb1) vm)) as [[res vm2] acts2].
  cbn [fst snd] in *.
  exists bb'. repeat split; try congruence. exact Hidle.
Qed.

Lemma sent_app (l1 l2 : list Action) : sent (l1 ++ l2) = sent l1 ++ sent l2.
Proof.
  induction l1 as [| a l1 IH]; [reflexivity |].
  destruct a; cbn [app sent]; now rewrite ?IH.
Qed.

Lemma calculateBuildingDelay_sends_nothing (b : blockBuilder) (h : Hash)
    (now : gotime.Time) :
  sent (snd (calculateBuildingDelay b h now)) = [].
Proof.
  unfold calculateBuildingDelay.
  destruct (gotime.IsZero (lastBuildTime b)); [reflexivity |].
  now destruct (Hash_IsEqual (lastBuildParentHash b) h).
Qed.

(** The ways a scheduling task ends.  The current block cannot be read: the
    flag is cleared and nothing is sent.  Shutdown during the wait: the
    builder is as before and nothing is sent.  After the delay, with no
    transaction left: the flag is cleared and nothing is sent; with
    transactions pending: the builder is as before, and what the task sends
    to the host engine is the one message [PendingTxs] when the channel takes
    it, and nothing when the channel is full. *)
Theorem scheduleBlockBuild_failures (env : TaskEnv) (b : blockBuilder) :
  (forall err, env_getCurrentBlock env = Err err ->
     Idle (fst (scheduleBlockBuild env b))
     /\ sent (snd (scheduleBlockBuild env b)) = [])
  /\ (forall h, env_getCurrentBlock env = Ok h ->
      0 < fst (calculateBuildingDelay b h (env_now env)) ->
      env_waited env = ShutdownClosed ->
      fst (scheduleBlockBuild env b) = b
      /\ sent (snd (scheduleBlockBuild env b)) = [])
  /\ (forall h, env_getCurrentBlock env = Ok h ->
      (fst (calculateBuildingDelay b h (env_now env)) <= 0
       \/ env_waited env = TimerFired) ->
      (needToBuild (env_TxMemPool env) = false ->
       Idle (fst (scheduleBlockBuild env b))
       /\ sent (snd (scheduleBlockBuild env b)) = [])
      /\ (needToBuild (env_TxMemPool env) = true ->
          fst (scheduleBlockBuild env b) = b
          /\ sent (snd (scheduleBlockBuild env b))
             = if env_toEngine_ready env then [PendingTxs] else [])).
Proof.
  split; [| split].
  - intros err Herr. unfold scheduleBlockBuild. rewrite Herr. now split.
  - intros h Hcur Hdelay Hwait. unfold scheduleBlockBuild. rewrite Hcur, Hwait.
    pose proof (calculateBuildingDelay_sends_nothing b h (env_now env)) as Hqn.
    destruct (calculateBuildingDelay b h (env_now env)) as [delay acts].
    cbn [fst snd] in *. apply Z.ltb_lt in Hdelay. rewrite Hdelay.
    destruct (scheduleBlockBuild_notify env b) as [b' acts']. cbn [fst snd].
    split; [reflexivity |].
    rewrite !sent_app, Hqn. reflexivity.
  - intros h Hcur Hgo.
    assert (Hnotify :
              fst (scheduleBlockBuild env b) = fst (scheduleBlockBuild_notify env b)
              /\ sent (snd (scheduleBlockBuild env b))
                 = sent (snd (scheduleBlockBuild_notify env b))).
    { unfold scheduleBlockBuild. rewrite Hcur.
      pose proof (calculateBuildingDelay_sends_nothing b h (env_now env)) as Hqn.
      destruct (calculateBuildingDelay b h (env_now env)) as [delay acts].
      cbn [fst snd] in *.
      destruct (scheduleBlockBuild_notify env b) as [b' acts']. cbn [fst snd].
      destruct (Z.ltb_spec 0 delay) as [Hpos | Hnonpos].
      - destruct Hgo as [Hle | Hfired]; [lia |]. rewrite Hfired. cbn [fst snd].
        split; [reflexivity |]. rewrite !sent_app, Hqn. reflexivity.
      - cbn [fst snd]. split; [reflexivity |].
        rewrite !sent_app, Hqn. reflexivity. }
    destruct Hnotify as [-> ->]. unfold scheduleBlockBuild_notify.
    split; intros ->; cbn [negb].
    + now split.
    + destruct (env_toEngine_ready env); now split.
Qed.

(** ** The block adapter *)

(** C7.  [Accept] returns no error and sets both [lastAccepted] and
    [preferred] to the block's identity, between taking and releasing the
    exclusive lock [blocksMu]; every other field of the VM, the block
    builder's state among them, is as before (an Idle builder stays Idle),
    and the call starts no task, wakes no waiter and sends the host engine
    nothing. *)
Theorem Accept_spec (b : BlockAdapter) (vm : VM) :
  let err := fst (fst (Accept b vm)) in
  let vm' := snd (fst (Accept b vm)) in
  let acts := snd (Accept b vm) in
  err = None
  /\ lastAccepted vm' = adapter_id b
  /\ preferred vm' = adapter_id b
  /\ vm_blockBuilder vm' = vm_blockBuilder vm
  /\ (forall bb, vm_blockBuilder vm = Some bb -> Idle bb ->
        exists bb', vm_blockBuilder vm' = Some bb' /\ Idle bb')
  /\ (ledger vm' = ledger vm /\ bloom vm' = bloom vm /\ OnTxRelay vm' = OnTxRelay vm
      /\ initialized vm' = initialized vm)
  /\ filter is_builder_action acts = []
  /\ spawned acts = 0%nat
  /\ notifications acts = 0%nat
  /\ exists body,
       acts = [Lock vm_blocksMu] ++ body ++ [Unlock vm_blocksMu]
       /\ Forall (fun a => exists lvl msg, a = Log lvl msg) body.
Proof.
  cbv zeta. unfold Accept. cbn [fst snd].
  repeat apply conj; try reflexivity.
  - intros bb Hbb Hidle. exists bb. now split.
  - exists [Log LvlInfo "Block accepted"]. split; [reflexivity |].
    constructor; [now eexists _, _ | constructor].
Qed.

End BuilderProperties.

(** ** The dedup set *)

Section SetProperties.

Context {W : Wire} {E : LedgerEngine}.

Lemma pushed_app (l1 l2 : list Action) : pushed (l1 ++ l2) = pushed l1 ++ pushed l2.
Proof.
  induction l1 as [| a l1 IH]; [reflexivity |].
  destruct a; cbn; now rewrite ?IH.
Qed.

Lemma logged_app (lvl : LogLevel) (l1 l2 : list Action) :
  logged lvl (l1 ++ l2) = logged lvl l1 ++ logged lvl l2.
Proof.
  induction l1 as [| a l1 IH]; [reflexivity |].
  destruct a as [| | | | l msg | | | | |]; cbn; rewrite ?IH; try reflexivity.
  now destruct l, lvl.
Qed.

(** The callback of [Initialize] pushes every transaction it is given, in
    order, when the push gossiper is in place, and nothing otherwise. *)
Lemma Initialize_OnTxRelay_pushed (pushGossiper : bool) (txns : list TxDesc) :
  pushed (Initialize_OnTxRelay pushGossiper txns)
  = if pushGossiper then map (fun txD => NewTxGossip (Some (desc_Tx txD))) txns else [].
Proof.
  unfold Initialize_OnTxRelay.
  induction txns as [| txD txns IH]; [now destruct pushGossiper |].
  cbn [flat_map]. rewrite pushed_app, IH. now destruct pushGossiper.
Qed.

Lemma Add_tx_dispatch (item : BTCGossip) (vm : VM) :
  ItemType item = GossipItemTypeTx ->
  Add (Some item) vm
  = (fst (fst (Add_tx item vm)), snd (fst (Add_tx item vm)),
     [Lock set_lock] ++ snd (Add_tx item vm) ++ [Unlock set_lock]).
Proof.
  unfold Add, GossipItemTypeTx. intros ->.
  now destruct (Add_tx item vm) as [[err vm'] acts].
Qed.

Lemma Add_block_dispatch (item : BTCGossip) (vm : VM) :
  ItemType item = GossipItemTypeBlock ->
  Add (Some item) vm
  = (fst (fst (Add_block item vm)), snd (fst (Add_block item vm)),
     [Lock set_lock] ++ snd (Add_block item vm) ++ [Unlock set_lock]).
Proof.
  unfold Add, GossipItemTypeBlock. intros ->.
  now destruct (Add_block item vm) as [[err vm'] acts].
Qed.

(** [Add] on a Tx item with a transaction, whatever [OnTxRelay] holds:
    - the mempool has the transaction: the item is added to the filter, the
      ledger is not touched, nothing is relayed, and [Add] returns [nil];
    - processing fails: [Add] returns the engine's error and the filter is
      as before;
    - processing succeeds: the item is added to the filter, [Add] returns
      [nil], and the relay callback in [OnTxRelay], when the engine reports at
      least one accepted transaction, is called with the whole list; the
      callback that [Initialize] installs then hands every one of them to
      the push gossiper (when that is in place). *)
Lemma Add_tx_cases (item : BTCGossip) (tx : btcutil_Tx) (vm : VM) :
  ItemType item = GossipItemTypeTx ->
  Tx item = Some tx ->
  let err := fst (fst (Add (Some item) vm)) in
  let vm' := snd (fst (Add (Some item) vm)) in
  let acts := snd (Add (Some item) vm) in
  (HaveTransaction (ledger vm) (Tx_Hash tx) = true ->
   err = None
   /\ vm' = bloom_Add item vm
   /\ bloom vm' = bloom vm ++ [GossipID item]
   /\ ledger vm' = ledger vm
   /\ pushed acts = [])
  /\ (HaveTransaction (ledger vm) (Tx_Hash tx) = false ->
      forall e ledger',
        ProcessTransaction tx false false 0 (ledger vm) = (Err e, ledger') ->
        err = Some e
        /\ vm' = set_ledger ledger' vm
        /\ bloom vm' = bloom vm
        /\ pushed acts = []
        /\ logged LvlError acts = ["UnifiedBTCSet.Add: failed to process transaction"%string])
  /\ (HaveTransaction (ledger vm) (Tx_Hash tx) = false ->
      forall acceptedTxs ledger',
        ProcessTransaction tx false false 0 (ledger vm) = (Ok acceptedTxs, ledger') ->
        err = None
        /\ vm' = bloom_Add item (set_ledger ledger' vm)
        /\ bloom vm' = bloom vm ++ [GossipID item]
        /\ (exists before,
              pushed before = []
              /\ acts
                 = before
                     ++ match OnTxRelay vm, acceptedTxs with
                        | Some relay, _ :: _ => relay acceptedTxs
                        | _, _ => []
                        end
                     ++ [Unlock set_lock])
        /\ (forall pushGossiper,
              OnTxRelay vm = Some (Initialize_OnTxRelay pushGossiper) ->
              pushed acts
              = if pushGossiper
                then map (fun txD => NewTxGossip (Some (desc_Tx txD))) acceptedTxs
                else [])
        /\ (OnTxRelay vm = None -> pushed acts = [])).
Proof.
  intros Hkind Htx. cbv zeta.
  rewrite (Add_tx_dispatch item vm Hkind). cbn [fst snd].
  unfold Add_tx. rewrite Htx. cbv zeta.
  destruct (HaveTransaction (ledger vm) (Tx_Hash tx)) eqn:Hhave.
  - split; [intros _ | split; discriminate].
    cbn [fst snd]. repeat apply conj; reflexivity.
  - split; [discriminate |].
    split; intros _.
    + intros e ledger' Hproc. rewrite Hproc. cbn [fst snd].
      repeat apply conj; reflexivity.
    + intros acceptedTxs ledger' Hproc. rewrite Hproc. cbn [fst snd].
      assert (Hrelay : OnTxRelay (set_ledger ledger' vm) = OnTxRelay vm) by reflexivity.
      rewrite Hrelay.
      split; [reflexivity |]. split; [reflexivity |]. split; [reflexivity |].
      split; [| split].
      * exists [Lock set_lock;
                Log LvlDebug "UnifiedBTCSet.Add: received transaction";
                Log LvlInfo "UnifiedBTCSet.Add: successfully processed transaction"].
        split; [reflexivity |].
        destruct acceptedTxs as [| txD rest]; destruct (OnTxRelay vm); reflexivity.
      * intros pushGossiper Hinit. rewrite Hinit.
        destruct acceptedTxs as [| txD rest]; [now destruct pushGossiper |].
        cbn [List.length Nat.ltb Nat.leb app pushed].
        rewrite pushed_app, Initialize_OnTxRelay_pushed. cbn [pushed].
        now rewrite app_nil_r.
      * intros Hnone. rewrite Hnone.
        now destruct acceptedTxs.
Qed.

(** C3.  [Add] on a Tx item with a transaction, in a VM whose gossip is set
    up (as it is whenever the set exists):
    - the mempool has the transaction: the item is added to the filter and
      [Add] returns [nil], without processing (the ledger is not touched and
      nothing is announced);
    - processing fails: [Add] returns the engine's error and the filter is
      as before;
    - processing succeeds: the item is added to the filter, [Add] returns
      [nil], and every transaction the engine reports as accepted is handed
      to the push gossiper, in the engine's order. *)
Theorem Add_tx_spec (item : BTCGossip) (tx : btcutil_Tx) (vm : VM) :
  ItemType item = GossipItemTypeTx ->
  Tx item = Some tx ->
  gossip_ready vm ->
  let err := fst (fst (Add (Some item) vm)) in
  let vm' := snd (fst (Add (Some item) vm)) in
  let acts := snd (Add (Some item) vm) in
  (HaveTransaction (ledger vm) (Tx_Hash tx) = true ->
   err = None
   /\ vm' = bloom_Add item vm
   /\ bloom vm' = bloom vm ++ [GossipID item]
   /\ ledger vm' = ledger vm
   /\ pushed acts = [])
  /\ (HaveTransaction (ledger vm) (Tx_Hash tx) = false ->
      forall e ledger',
        ProcessTransaction tx false false 0 (ledger vm) = (Err e, ledger') ->
        err = Some e
        /\ vm' = set_ledger ledger' vm
        /\ bloom vm' = bloom vm
        /\ pushed acts = []
        /\ logged LvlError acts = ["UnifiedBTCSet.Add: failed to process transaction"%string])
  /\ (HaveTransaction (ledger vm) (Tx_Hash tx) = false ->
      forall acceptedTxs ledger',
        ProcessTransaction tx false false 0 (ledger vm) = (Ok acceptedTxs, ledger') ->
        err = None
        /\ vm' = bloom_Add item (set_ledger ledger' vm)
        /\ bloom vm' = bloom vm ++ [GossipID item]
        /\ pushed acts = map (fun txD => NewTxGossip (Some (desc_Tx txD))) acceptedTxs).
Proof.
  intros Hkind Htx Hready.
  destruct (Add_tx_cases item tx vm Hkind Htx) as (Hknown & Hfailed & Haccepted).
  split; [exact Hknown |]. split; [exact Hfailed |].
  intros Hnew acceptedTxs ledger' Hproc.
  destruct (Haccepted Hnew acceptedTxs ledger' Hproc)
    as (Herr & Hvm & Hbloom & _ & Hpushed & _).
  split; [exact Herr |]. split; [exact Hvm |]. split; [exact Hbloom |].
  exact (Hpushed true Hready).
Qed.

(** C4, as the code has it.  [Add] on a Block item with a block:
    - the lookup [HaveBlock] itself fails: [Add] returns that error, and
      neither marks the block nor submits it;
    - the chain has the block: the item is added to the filter and [Add]
      returns [nil], the ledger untouched;
    - otherwise the block goes to [ProcessBlock], and whatever that answers
      (an error, an orphan, a block of a side chain or of the main chain) the
      item is added to the filter and [Add] returns [nil]; the outcome is
      logged, an error of [ProcessBlock] at Debug level and any other answer,
      an orphan among them, at Info level, and nothing at Error level. *)
Theorem Add_block_spec (item : BTCGossip) (blk : btcutil_Block) (vm : VM) :
  ItemType item = GossipItemTypeBlock ->
  Block item = Some blk ->
  let err := fst (fst (Add (Some item) vm)) in
  let vm' := snd (fst (Add (Some item) vm)) in
  let acts := snd (Add (Some item) vm) in
  (forall e, HaveBlock (ledger vm) (Block_Hash blk) = Err e ->
     err = Some e /\ vm' = vm)
  /\ (HaveBlock (ledger vm) (Block_Hash blk) = Ok true ->
      err = None
      /\ vm' = bloom_Add item vm
      /\ bloom vm' = bloom vm ++ [GossipID item]
      /\ ledger vm' = ledger vm)
  /\ (HaveBlock (ledger vm) (Block_Hash blk) = Ok false ->
      forall res ledger',
        ProcessBlock blk BFNone (ledger vm) = (res, ledger') ->
        err = None
        /\ vm' = bloom_Add item (set_ledger ledger' vm)
        /\ bloom vm' = bloom vm ++ [GossipID item]
        /\ ledger vm' = ledger'
        /\ logged LvlError acts = []
        /\ (forall e, res = Err e ->
              logged LvlDebug acts
              = ["UnifiedBTCSet.Add: received block"%string;
                 "UnifiedBTCSet.Add: failed to process block"%string])
        /\ (forall isMainChain isOrphan, res = Ok (isMainChain, isOrphan) ->
              logged LvlInfo acts = ["UnifiedBTCSet.Add: processed block"%string])).
Proof.
  intros Hkind Hblk. cbv zeta.
  rewrite (Add_block_dispatch item vm Hkind). cbn [fst snd].
  unfold Add_block. rewrite Hblk. cbv zeta.
  destruct (HaveBlock (ledger vm) (Block_Hash blk)) as [[|] | e0] eqn:Hhave.
  - split; [discriminate |]. split; [intros _ | discriminate].
    cbn [fst snd]. repeat apply conj; reflexivity.
  - split; [discriminate |]. split; [discriminate | intros _].
    intros res ledger' Hproc. rewrite Hproc. cbn [fst snd].
    split; [reflexivity |]. split; [reflexivity |]. split; [reflexivity |].
    split; [reflexivity |].
    split; [now destruct res |].
    split; [intros e ->; reflexivity |].
    intros isMainChain isOrphan ->. reflexivity.
  - split; [| split; discriminate].
    intros e He. inversion He; subst e0. cbn [fst snd]. now split.
Qed.

(** [Has] answers from the engine, the mempool first and then the block
    index (a failing lookup counts as absent), and not from the filter. *)
Theorem Has_spec (i : ID) (vm : VM) :
  fst (Has i vm)
  = (HaveTransaction (ledger vm) (idToHash i)
     || match HaveBlock (ledger vm) (idToHash i) with
        | Ok haveBlock => haveBlock
        | Err _ => false
        end)
  /\ (List.length i = HashSize -> idToHash i = i)
  /\ (forall filter', fst (Has i (set_bloom filter' vm)) = fst (Has i vm))
  /\ snd (Has i vm) = [RLock set_lock; RUnlock set_lock].
Proof.
  unfold Has. cbn [fst snd].
  split; [now destruct (HaveTransaction (ledger vm) (idToHash i)) |].
  split; [| split; reflexivity].
  intros Hlen. unfold idToHash. now rewrite Hlen, Nat.eqb_refl.
Qed.

(** *** Iterate *)

Lemma visits_app (l1 l2 : list Action) : visits (l1 ++ l2) = visits l1 ++ visits l2.
Proof.
  induction l1 as [| a l1 IH]; [reflexivity |].
  destruct a; cbn; now rewrite ?IH.
Qed.

(** The loop calls [f] on the wrapped transactions in order, and its calls
    are: every transaction answered [true], when it runs to the end; or the
    transactions up to the first answered [false], that one last, when it
    returns early. *)
Lemma Iterate_loop_visits {V : Type} (f : BTCGossip -> V -> bool * V)
    (txDescs : list TxDesc) :
  forall v : V,
    let items := map (fun desc => NewTxGossip (Some (desc_Tx desc))) txDescs in
    let vs := visits (snd (fst (Iterate_loop f txDescs v))) in
    let stopped := snd (Iterate_loop f txDescs v) in
    (stopped = false /\ vs = map (fun item => (item, true)) items)
    \/ (stopped = true
        /\ exists pre item post,
             items = pre ++ item :: post
             /\ vs = map (fun item => (item, true)) pre ++ [(item, false)]).
Proof.
  induction txDescs as [| desc rest IH]; intros v; cbv zeta.
  - left. now split.
  - cbn [Iterate_loop map].
    change {| ItemType := GossipItemTypeTx; Tx := Some (desc_Tx desc); Block := None |}
      with (NewTxGossip (Some (desc_Tx desc))).
    destruct (f (NewTxGossip (Some (desc_Tx desc))) v) as [answer v1].
    destruct answer.
    + specialize (IH v1). cbv zeta in IH.
      destruct (Iterate_loop f rest v1) as [[v2 acts] stopped].
      cbn [fst snd] in IH |- *. cbn [visits].
      destruct IH as [[Hstop Hvs] | [Hstop (pre & item & post & Hitems & Hvs)]].
      * left. split; [exact Hstop |]. now rewrite Hvs.
      * right. split; [exact Hstop |].
        exists (NewTxGossip (Some (desc_Tx desc)) :: pre), item, post.
        split; [now rewrite Hitems |]. now rewrite Hvs.
    + right. split; [reflexivity |].
      exists [], (NewTxGossip (Some (desc_Tx desc))),
        (map (fun d => NewTxGossip (Some (desc_Tx d))) rest).
      now split.
Qed.

Lemma Iterate_visits_loop {V : Type} (f : BTCGossip -> V -> bool * V) (vm : VM) (v : V) :
  visits (snd (Iterate f vm v))
  = visits (snd (fst (Iterate_loop f (TxDescs (ledger vm)) v))).
Proof.
  unfold Iterate.
  destruct (Iterate_loop f (TxDescs (ledger vm)) v) as [[v' acts] stopped].
  cbn [fst snd]. cbn [app visits]. rewrite !visits_app.
  destruct stopped; cbn [visits]; now rewrite ?app_nil_r.
Qed.

Lemma map_true_answers (items : list BTCGossip) :
  map fst (map (fun item => (item, true)) items) = items
  /\ forallb snd (map (fun item : BTCGossip => (item, true)) items) = true.
Proof.
  induction items as [| item items [IHf IHs]]; [now split |].
  cbn. now rewrite IHf, IHs.
Qed.

(** C8.  The items [Iterate] visits are mempool transactions wrapped as Tx
    items, in the mempool's order, and never a block item; it visits all of
    them when the callback always answers [true]; and once the callback
    answers [false] no further item is visited. *)
Theorem Iterate_visits {V : Type} (f : BTCGossip -> V -> bool * V) (vm : VM) (v : V) :
  let vs := visits (snd (Iterate f vm v)) in
  (exists rest, mempool_items vm = map fst vs ++ rest)
  /\ Forall
       (fun item => ItemType item = GossipItemTypeTx /\ Block item = None
                    /\ exists desc, In desc (TxDescs (ledger vm))
                                    /\ Tx item = Some (desc_Tx desc))
       (map fst vs)
  /\ (forallb snd vs = true -> map fst vs = mempool_items vm)
  /\ (forall pre item post, vs = pre ++ (item, false) :: post -> post = []).
Proof.
  cbv zeta. rewrite Iterate_visits_loop.
  pose proof (Iterate_loop_visits f (TxDescs (ledger vm)) v) as Hloop.
  cbv zeta in Hloop. fold (mempool_items vm) in Hloop.
  assert (Hitems : Forall
            (fun item => ItemType item = GossipItemTypeTx /\ Block item = None
                         /\ exists desc, In desc (TxDescs (ledger vm))
                                         /\ Tx item = Some (desc_Tx desc))
            (mempool_items vm)).
  { unfold mempool_items. apply Forall_forall. intros item Hin.
    apply in_map_iff in Hin. destruct Hin as (desc & <- & Hdesc).
    repeat split. now exists desc. }
  destruct Hloop as [[_ Hvs] | [_ (pre & item & post & Hsplit & Hvs)]]; rewrite Hvs.
  - destruct (map_true_answers (mempool_items vm)) as [Hfst Hsnd].
    rewrite Hfst. repeat apply conj.
    + exists []. now rewrite app_nil_r.
    + exact Hitems.
    + reflexivity.
    + intros pre item post Heq.
      assert (Hin : In (item, false) (map (fun it : BTCGossip => (it, true)) (mempool_items vm))).
      { rewrite Heq. apply in_or_app. right. now left. }
      apply in_map_iff in Hin. destruct Hin as (it & Hit & _). discriminate.
  - destruct (map_true_answers pre) as [Hfst Hsnd].
    rewrite map_app, Hfst. cbn [map fst]. repeat apply conj.
    + exists post. rewrite Hsplit, <- app_assoc. reflexivity.
    + rewrite Hsplit in Hitems.
      replace (pre ++ item :: post) with ((pre ++ [item]) ++ post) in Hitems
        by (now rewrite <- app_assoc).
      now apply Forall_app in Hitems.
    + rewrite forallb_app, Hsnd. cbn. discriminate.
    + intros pre' item' post' Heq.
      destruct post' as [| p post'] using rev_ind; [reflexivity |].
      exfalso.
      replace (pre' ++ (item', false) :: post' ++ [p])
        with ((pre' ++ (item', false) :: post') ++ [p]) in Heq
        by (now rewrite <- app_assoc).
      apply app_inj_tail in Heq. destruct Heq as [Heq _].
      assert (Hin : In (item', false) (map (fun it : BTCGossip => (it, true)) pre)).
      { rewrite Heq. apply in_or_app. right. now left. }
      apply in_map_iff in Hin. destruct Hin as (it & Hit & _). discriminate.
Qed.

End SetProperties.

(** * The properties at concrete inputs

    The sample engine stands for the ledger; [Sample.vm0] is a VM as
    [Initialize] leaves it. *)

(** The delay on the first build, on a retry 30 ms after the last attempt,
    on a new parent 30 ms after it, and once the interval is over. *)
Example delay_first_build :
  fst (calculateBuildingDelay (W := Sample.wire) Sample.builder0 [x01] 5000) = 0.
Proof. reflexivity. Qed.

Example delay_retry :
  fst (calculateBuildingDelay (W := Sample.wire)
         {| hasPendingTxs := true; lastBuildTime := 1000000000000;
            lastBuildParentHash := [x01] |}
         [x01] 1000030000000)
  = 70000000.
Proof. reflexivity. Qed.

Example delay_new_parent :
  fst (calculateBuildingDelay (W := Sample.wire)
         {| hasPendingTxs := true; lastBuildTime := 1000000000000;
            lastBuildParentHash := [x01] |}
         [x02] 1000030000000)
  = 1970000000.
Proof. reflexivity. Qed.

Example delay_elapsed :
  fst (calculateBuildingDelay (W := Sample.wire)
         {| hasPendingTxs := true; lastBuildTime := 1000000000000;
            lastBuildParentHash := [x01] |}
         [x02] 1003000000000)
  = 0.
Proof. reflexivity. Qed.

(** Three signals to an Idle builder start one task. *)
Example three_signals_one_task :
  spawned (snd (awaitTxSubmissions (W := Sample.wire) 3 Sample.builder0)) = 1%nat.
Proof. reflexivity. Qed.

(** The transaction [Sample.tx1] goes through the codec. *)
Lemma codec_roundtrip_witness :
  MarshalGossip (Some (NewTxGossip (Some Sample.tx1))) = Ok [x01; x02; x0a; x0b]
  /\ exists y,
       UnmarshalGossip (W := Sample.wire) [x01; x02; x0a; x0b] = Ok y
       /\ ItemType y = GossipItemTypeTx
       /\ GossipID y = GossipID (NewTxGossip (Some Sample.tx1)).
Proof.
  apply (codec_roundtrip (W := Sample.wire) (NewTxGossip (Some Sample.tx1)) [x02; x0a; x0b]).
  - left. split; [reflexivity | discriminate].
  - split; intros Hkind; [| discriminate Hkind].
    intros tx Htx. injection Htx as <-. split; reflexivity.
Defined.

(** A block goes through the codec as well. *)
Example codec_roundtrip_block :
  MarshalGossip (Some (NewBlockGossip (Some Sample.block1))) = Ok [x02; x03; xb1; xb2; xb3]
  /\ UnmarshalGossip (W := Sample.wire) [x02; x03; xb1; xb2; xb3] = Ok (NewBlockGossip (Some Sample.block1)).
Proof. split; reflexivity. Qed.

(** C2, the claim as stated fails on a valid item whose encoding the wire
    decoder refuses.  In the format with a marker the transaction with no
    inputs is a valid item; it marshals to the kind byte, the count 0 and the
    closing byte; the decoder takes the count for the marker, finds no flag
    after it, and [UnmarshalGossip] fails. *)
Lemma codec_roundtrip_counterexample :
  valid_item (NewTxGossip (W := MarkerSample.wire) (Some MarkerSample.tx_no_inputs))
  /\ MarshalGossip (Some (NewTxGossip (W := MarkerSample.wire) (Some MarkerSample.tx_no_inputs)))
     = Ok [x01; x00; x00]
  /\ UnmarshalGossip (W := MarkerSample.wire) [x01; x00; x00]
     = Err (Wrapf "failed to decode tx: %w" (Errorf "witness tx but flag byte is %x")).
Proof.
  split; [left; split; [reflexivity | discriminate] |].
  split; reflexivity.
Qed.

(** In the same format a transaction with an input goes through. *)
Example codec_roundtrip_one_input :
  MarshalGossip (Some (NewTxGossip (W := MarkerSample.wire) (Some MarkerSample.tx_one_input)))
  = Ok [x01; x01; x02; x0a; x0b; x00]
  /\ UnmarshalGossip (W := MarkerSample.wire) [x01; x01; x02; x0a; x0b; x00]
     = Ok (NewTxGossip (Some MarkerSample.tx_one_input)).
Proof. split; reflexivity. Qed.

(** C10, the claim as stated fails on a Tx item whose transaction wraps a
    nil message, [NewTxGossip(btcutil.NewTx(nil))]: the transaction pointer is
    not nil, and [GossipID] panics; so does a Block item whose block wraps a
    nil message. *)
Lemma GossipID_panics_counterexample :
  Ptr.Tx (Ptr.NewTxGossip (W := Sample.wire) (Some (Ptr.NewTx None)))
  = Some (Ptr.NewTx None)
  /\ Ptr.GossipID (Ptr.NewTxGossip (W := Sample.wire) (Some (Ptr.NewTx None))) = Ptr.Panics
  /\ Ptr.GossipID (Ptr.NewBlockGossip (W := Sample.wire) (Some (Ptr.NewBlock None)))
     = Ptr.Panics.
Proof. repeat apply conj; reflexivity. Qed.

(** The same constructors on a transaction that wraps a message, and on a
    nil transaction. *)
Example GossipID_returns :
  Ptr.GossipID (Ptr.NewTxGossip (W := Sample.wire) (Some (Ptr.NewTx (Some (Tx_MsgTx Sample.tx1)))))
  = Ptr.Returns (Tx_Hash Sample.tx1)
  /\ Ptr.GossipID (Ptr.NewTxGossip (W := Sample.wire) None) = Ptr.Returns ids_Empty.
Proof. split; reflexivity. Qed.

(** [Add] of a fresh transaction on the initialised VM: accepted, marked
    and pushed for re-announcement. *)
Lemma Add_tx_spec_witness :
  fst (fst (Add (Some (NewTxGossip (Some Sample.tx1))) Sample.vm0)) = None
  /\ bloom (snd (fst (Add (Some (NewTxGossip (Some Sample.tx1))) Sample.vm0)))
     = [Tx_Hash Sample.tx1]
  /\ pushed (snd (Add (Some (NewTxGossip (Some Sample.tx1))) Sample.vm0))
     = [NewTxGossip (Some Sample.tx1)].
Proof.
  destruct (Add_tx_spec (NewTxGossip (Some Sample.tx1)) Sample.tx1 Sample.vm0
              eq_refl eq_refl eq_refl) as (_ & _ & Haccepted).
  destruct (Haccepted eq_refl [{| desc_Tx := Sample.tx1 |}] _ eq_refl)
    as (Herr & _ & Hbloom & Hpushed).
  split; [exact Herr |]. split; [exact Hbloom | exact Hpushed].
Defined.

(** [Add] of a block the engine refuses: the failure is swallowed and the
    block is marked. *)
Lemma Add_block_spec_witness :
  fst (fst (Add (Some (NewBlockGossip (Some Sample.block_bad))) Sample.vm0)) = None
  /\ bloom (snd (fst (Add (Some (NewBlockGossip (Some Sample.block_bad))) Sample.vm0)))
     = [Block_Hash Sample.block_bad]
  /\ logged LvlError (snd (Add (Some (NewBlockGossip (Some Sample.block_bad))) Sample.vm0))
     = [].
Proof.
  destruct (Add_block_spec (NewBlockGossip (Some Sample.block_bad)) Sample.block_bad
              Sample.vm0 eq_refl eq_refl) as (_ & _ & Hsubmitted).
  destruct (Hsubmitted eq_refl _ _ eq_refl) as (Herr & _ & Hbloom & _ & Hlog & _).
  split; [exact Herr |]. split; [exact Hbloom | exact Hlog].
Defined.

(** C4, the claim as stated fails where the lookup [HaveBlock] itself
    fails: the chain does not have [Sample.block1], and yet the block is not
    submitted to [ProcessBlock] (the ledger is as before), it is not added to
    the filter, and [Add] returns the lookup's error. *)
Lemma Add_block_lookup_error_counterexample :
  HaveBlock (ledger Sample.vm_index_down) (Block_Hash Sample.block1)
  = Err (Errorf "block index is not available")
  /\ Sample.index (ledger Sample.vm_index_down) = []
  /\ Add (Some (NewBlockGossip (Some Sample.block1))) Sample.vm_index_down
     = (Some (Errorf "block index is not available"),
        Sample.vm_index_down,
        [Lock set_lock;
         Log LvlDebug "UnifiedBTCSet.Add: received block";
         Log LvlError "UnifiedBTCSet.Add: failed to check for existing block";
         Unlock set_lock])
  /\ bloom_Has (NewBlockGossip (Some Sample.block1))
       (snd (fst (Add (Some (NewBlockGossip (Some Sample.block1))) Sample.vm_index_down)))
     = false
  /\ fst (ProcessBlock Sample.block1 BFNone (ledger Sample.vm_index_down))
     = Ok (true, false).
Proof. repeat apply conj; reflexivity. Qed.

(** [Iterate] over a pool of two transactions, with a callback that stops
    at the first item, and with one that never stops. *)
Example Iterate_stops_at_first :
  visits
    (snd (Iterate (fun _ (n : nat) => (false, S n)) Sample.vm_two_txs 0%nat))
  = [(NewTxGossip (Some Sample.tx1), false)].
Proof. reflexivity. Qed.

Example Iterate_visits_all :
  Iterate (fun _ (n : nat) => (true, S n)) Sample.vm_two_txs 0%nat
  = (2%nat,
     [RLock set_lock;
      Log LvlDebug "UnifiedBTCSet.Iterate: iterating over gossiped items";
      Log LvlDebug "UnifiedBTCSet.Iterate: found transactions in mempool";
      Visit (NewTxGossip (Some Sample.tx1)) true;
      Visit (NewTxGossip (Some Sample.tx2)) true;
      Log LvlDebug "UnifiedBTCSet.Iterate: finished iterating";
      RUnlock set_lock]).
Proof. reflexivity. Qed.

(** The default configuration has no NaN, and [Validate] agrees with the
    constraints on it. *)
Lemma Validate_iff_constraints_witness :
  (Validate DefaultGossipConfig = None <-> constraints_hold DefaultGossipConfig = true)
  /\ ((exists err, Validate DefaultGossipConfig = Some err)
      <-> constraints_hold DefaultGossipConfig = false).
Proof.
  apply (Validate_iff_constraints DefaultGossipConfig); reflexivity.
Defined.

(** A stake fraction of 1.5 (binary64 [3 * 2^-1]) is refused. *)
Example Validate_rejects_large_stake :
  Validate (with_floats (S754_finite false 6755399441055744 (-52)) f64_0_01 f64_0_05
              DefaultGossipConfig)
  = Some (Errorf "push gossip percent stake must be between 0 and 1, got %f").
Proof. reflexivity. Qed.

(** A build that fails at the template still records its attempt. *)
Lemma BuildBlock_records_attempt_witness :
  exists bb',
    vm_blockBuilder (snd (fst (BuildBlock Sample.build_env_failing Sample.vm_two_txs)))
    = Some bb'
    /\ lastBuildTime bb' = 1700000000000000000
    /\ lastBuildParentHash bb' = Block_Hash Sample.block1
    /\ (forall adapter,
          fst (fst (BuildBlock Sample.build_env_failing Sample.vm_two_txs)) = Ok adapter ->
          Idle bb').
Proof.
  apply (BuildBlock_records_attempt Sample.build_env_failing Sample.vm_two_txs
           Sample.builder0 (Block_Hash Sample.block1));
    reflexivity.
Defined.

Example BuildBlock_failing_result :
  fst (fst (BuildBlock Sample.build_env_failing Sample.vm_two_txs))
  = Err (Wrapf "failed to create block template: %w" (Errorf "no template"))
  /\ vm_blockBuilder (snd (fst (BuildBlock Sample.build_env_failing Sample.vm_two_txs)))
     = Some {| hasPendingTxs := true;
               lastBuildTime := 1700000000000000000;
               lastBuildParentHash := Block_Hash Sample.block1 |}
  /\ spawned (snd (BuildBlock Sample.build_env_failing Sample.vm_two_txs)) = 1%nat.
Proof. repeat apply conj; reflexivity. Qed.

(** * Properties of the rest of the repository *)

(** ** cmd/genesis-generator: targets, hashes and the mining loop *)

Section GenesisProperties.

Lemma byte_value_range (b : byte) : 0 <= genesis.byte_value b < 256.
Proof.
  unfold genesis.byte_value. pose proof (Byte.to_N_bounded b). lia.
Qed.

Lemma byte_value_inj (a b : byte) : genesis.byte_value a = genesis.byte_value b -> a = b.
Proof.
  unfold genesis.byte_value. intros Heq. apply N2Z.inj in Heq.
  pose proof (Byte.of_to_N a) as Ha. pose proof (Byte.of_to_N b) as Hb.
  rewrite Heq in Ha. congruence.
Qed.

Lemma SetBytes_snoc (l : list byte) (b : byte) :
  genesis.SetBytes (l ++ [b]) = genesis.SetBytes l * 256 + genesis.byte_value b.
Proof. unfold genesis.SetBytes. now rewrite fold_left_app. Qed.

Lemma SetBytes_rev (l : list byte) : genesis.SetBytes (rev l) = genesis.little_endian l.
Proof.
  induction l as [| b rest IH]; [reflexivity |].
  cbn [rev genesis.little_endian]. rewrite SetBytes_snoc, IH. lia.
Qed.

Lemma reversed_buffer (l : list byte) :
  map (fun i => nth (List.length l - 1 - i) l x00) (seq 0 (List.length l)) = rev l.
Proof.
  apply (nth_ext _ _ x00 x00).
  - now rewrite length_map, length_seq, length_rev.
  - intros i Hi. rewrite length_map, length_seq in Hi.
    rewrite (nth_indep _ x00 ((fun i => nth (List.length l - 1 - i) l x00) 0%nat))
      by now rewrite length_map, length_seq.
    rewrite (map_nth (fun i => nth (List.length l - 1 - i) l x00)).
    rewrite seq_nth by exact Hi. rewrite rev_nth by exact Hi.
    f_equal. lia.
Qed.

Lemma little_endian_range (l : list byte) :
  0 <= genesis.little_endian l < 256 ^ Z.of_nat (List.length l).
Proof.
  induction l as [| b rest IH]; [cbn; lia |].
  cbn [genesis.little_endian List.length]. rewrite Nat2Z.inj_succ, Z.pow_succ_r by lia.
  pose proof (byte_value_range b). lia.
Qed.

Lemma little_endian_inj (l1 l2 : list byte) :
  List.length l1 = List.length l2 ->
  genesis.little_endian l1 = genesis.little_endian l2 -> l1 = l2.
Proof.
  revert l2. induction l1 as [| a r1 IH]; intros [| b r2] Hlen Heq;
    try discriminate; [reflexivity |].
  cbn [genesis.little_endian] in Heq. injection Hlen as Hlen.
  pose proof (byte_value_range a). pose proof (byte_value_range b).
  assert (Hb : genesis.byte_value a = genesis.byte_value b) by lia.
  assert (Hr : genesis.little_endian r1 = genesis.little_endian r2) by lia.
  f_equal; [now apply byte_value_inj | now apply IH].
Qed.

Lemma little_endian_app (l1 l2 : list byte) :
  genesis.little_endian (l1 ++ l2)
  = genesis.little_endian l1 + 256 ^ Z.of_nat (List.length l1) * genesis.little_endian l2.
Proof.
  induction l1 as [| a r1 IH]; [cbn [app genesis.little_endian List.length]; lia |].
  cbn [app genesis.little_endian List.length].
  rewrite IH, Nat2Z.inj_succ, Z.pow_succ_r by lia. lia.
Qed.

Lemma little_endian_zero (l : list byte) :
  genesis.little_endian l = 0 -> l = repeat x00 (List.length l).
Proof.
  induction l as [| a r IH]; [reflexivity |].
  cbn [genesis.little_endian List.length repeat]. intros Hz.
  pose proof (byte_value_range a). pose proof (little_endian_range r).
  assert (Ha : genesis.byte_value a = genesis.byte_value x00) by (cbn; lia).
  assert (Hr : genesis.little_endian r = 0) by lia.
  f_equal; [now apply byte_value_inj | now apply IH].
Qed.

Lemma hashToBig_as_little_endian (hash : Hash) :
  List.length hash = HashSize -> genesis.hashToBig hash = genesis.little_endian hash.
Proof.
  intros Hlen. unfold genesis.hashToBig. cbv zeta.
  rewrite <- Hlen, reversed_buffer. apply SetBytes_rev.
Qed.

(** [hashToBig] reads the 32 bytes of a hash as a little-endian number:
    byte 0 is the least significant one.  The number is below [2^256], and two
    hashes that give the same number are the same hash. *)
Theorem hashToBig_little_endian (hash : Hash) :
  List.length hash = HashSize ->
  genesis.hashToBig hash = genesis.little_endian hash
  /\ 0 <= genesis.hashToBig hash < 2 ^ 256
  /\ (forall other : Hash,
        List.length other = HashSize ->
        genesis.hashToBig other = genesis.hashToBig hash -> other = hash).
Proof.
  intros Hlen. split; [now apply hashToBig_as_little_endian |]. split.
  - rewrite (hashToBig_as_little_endian _ Hlen).
    pose proof (little_endian_range hash) as Hr. rewrite Hlen in Hr.
    change (256 ^ Z.of_nat HashSize) with (2 ^ 256) in Hr. exact Hr.
  - intros other Hother Heq.
    rewrite (hashToBig_as_little_endian _ Hlen),
      (hashToBig_as_little_endian _ Hother) in Heq.
    apply little_endian_inj; congruence.
Qed.

Lemma compactToBig_arith (compact : Z) :
  genesis.compactToBig compact
  = if compact / 2 ^ 24 <=? 3 then (compact mod 2 ^ 24) / 2 ^ (8 * (3 - compact / 2 ^ 24))
    else (compact mod 2 ^ 24) * 2 ^ (8 * (compact / 2 ^ 24 - 3)).
Proof.
  unfold genesis.compactToBig. cbv zeta.
  change 16777215 with (Z.ones 24).
  rewrite Z.land_ones, Z.shiftr_div_pow2 by lia.
  destruct (Z.leb_spec (compact / 2 ^ 24) 3).
  - now rewrite Z.shiftr_div_pow2 by lia.
  - now rewrite Z.shiftl_mul_pow2 by lia.
Qed.

(** [compactToBig] on a [uint32]: with [exponent] the high byte and
    [mantissa] the low 24 bits, the value is [mantissa] divided by
    [256^(3-exponent)] when [exponent <= 3] and [mantissa * 256^(exponent-3)]
    above; it is never negative (bit 23, the sign bit of the compact form, is
    read as part of the mantissa) and stays below [256^exponent]. *)
Theorem compactToBig_value (compact : Z) :
  0 <= compact < 2 ^ 32 ->
  let exponent := compact / 2 ^ 24 in
  let mantissa := compact mod 2 ^ 24 in
  0 <= exponent < 256
  /\ (exponent <= 3 -> genesis.compactToBig compact = mantissa / 256 ^ (3 - exponent))
  /\ (3 < exponent -> genesis.compactToBig compact = mantissa * 256 ^ (exponent - 3))
  /\ 0 <= genesis.compactToBig compact < 256 ^ exponent.
Proof.
  intros Hrange exponent mantissa.
  assert (He : 0 <= exponent < 256).
  { subst exponent. split; [apply Z.div_pos; lia |].
    apply Z.div_lt_upper_bound; lia. }
  assert (Hm : 0 <= mantissa < 2 ^ 24) by (subst mantissa; apply Z.mod_pos_bound; lia).
  assert (Hpow : forall k, 0 <= k -> 2 ^ (8 * k) = 256 ^ k).
  { intros k Hk. change 256 with (2 ^ 8). now rewrite <- Z.pow_mul_r by lia. }
  rewrite compactToBig_arith. fold exponent mantissa.
  split; [exact He |].
  destruct (Z.leb_spec exponent 3) as [Hle | Hgt].
  - rewrite Hpow by lia.
    split; [reflexivity |]. split; [lia |].
    split; [apply Z.div_pos; lia |].
    apply Z.div_lt_upper_bound; [lia |].
    rewrite <- Z.pow_add_r by lia.
    replace (3 - exponent + exponent) with 3 by lia. lia.
  - rewrite Hpow by lia.
    split; [lia |]. split; [reflexivity |].
    split; [apply Z.mul_nonneg_nonneg; lia |].
    replace exponent with (3 + (exponent - 3)) at 2 by lia.
    rewrite Z.pow_add_r by lia.
    apply Z.mul_lt_mono_pos_r; lia.
Qed.

Variable BlockHash : genesis.BlockHeader -> Hash.

Lemma set_Nonce_same (header : genesis.BlockHeader) :
  genesis.set_Nonce (genesis.Nonce header) header = header.
Proof. now destruct header. Qed.

Lemma set_Nonce_twice (n m : Z) (header : genesis.BlockHeader) :
  genesis.set_Nonce n (genesis.set_Nonce m header) = genesis.set_Nonce n header.
Proof. reflexivity. Qed.

Lemma uint32_incr_after (n : Z) (j : nat) :
  uint32_incr ((n + Z.of_nat j) mod 2 ^ 32) = (n + Z.of_nat (S j)) mod 2 ^ 32.
Proof.
  unfold uint32_incr. rewrite Z.add_mod_idemp_l by lia. f_equal. lia.
Qed.

Lemma mine_step (target : Z) (fuel : nat) (header : genesis.BlockHeader) :
  genesis.mine BlockHash target (S fuel) header
  = if genesis.hashToBig (BlockHash header) <=? target then Some header
    else genesis.mine BlockHash target fuel
           (genesis.set_Nonce (uint32_incr (genesis.Nonce header)) header).
Proof. reflexivity. Qed.

Lemma uint32_incr_range (n : Z) : 0 <= uint32_incr n < 2 ^ 32.
Proof. unfold uint32_incr. apply Z.mod_pos_bound. lia. Qed.

Lemma mine_from (target : Z) (header : genesis.BlockHeader) (k : nat) :
  forall j : nat,
    (forall i : nat,
       (i < k)%nat ->
       target
       < genesis.hashToBig
           (BlockHash
              (genesis.set_Nonce ((genesis.Nonce header + Z.of_nat (j + i)) mod 2 ^ 32) header))) ->
    genesis.hashToBig
      (BlockHash
         (genesis.set_Nonce ((genesis.Nonce header + Z.of_nat (j + k)) mod 2 ^ 32) header))
    <= target ->
    forall fuel : nat,
      genesis.mine BlockHash target fuel
        (genesis.set_Nonce ((genesis.Nonce header + Z.of_nat j) mod 2 ^ 32) header)
      = if (k <? fuel)%nat then
          Some (genesis.set_Nonce ((genesis.Nonce header + Z.of_nat (j + k)) mod 2 ^ 32) header)
        else None.
Proof.
  induction k as [| k IH]; intros j Hbefore Hat fuel.
  - rewrite Nat.add_0_r in Hat. destruct fuel as [| fuel]; [reflexivity |].
    cbn [genesis.mine Nat.ltb Nat.leb]. rewrite Nat.add_0_r.
    destruct (Z.leb_spec
                (genesis.hashToBig
                   (BlockHash
                      (genesis.set_Nonce ((genesis.Nonce header + Z.of_nat j) mod 2 ^ 32)
                         header))) target); [reflexivity | lia].
  - destruct fuel as [| fuel]; [reflexivity |].
    cbn [genesis.mine].
    pose proof (Hbefore 0%nat ltac:(lia)) as Hnow. rewrite Nat.add_0_r in Hnow.
    destruct (Z.leb_spec
                (genesis.hashToBig
                   (BlockHash
                      (genesis.set_Nonce ((genesis.Nonce header + Z.of_nat j) mod 2 ^ 32)
                         header))) target); [lia |].
    rewrite set_Nonce_twice.
    change (genesis.Nonce
              (genesis.set_Nonce ((genesis.Nonce header + Z.of_nat j) mod 2 ^ 32) header))
      with ((genesis.Nonce header + Z.of_nat j) mod 2 ^ 32).
    rewrite uint32_incr_after.
    rewrite (IH (S j)).
    + replace (S j + k)%nat with (j + S k)%nat by lia.
      change (S k <? S fuel)%nat with (k <? fuel)%nat. reflexivity.
    + intros i Hi. replace (S j + i)%nat with (j + S i)%nat by lia.
      apply Hbefore. lia.
    + replace (S j + k)%nat with (j + S k)%nat by lia. exact Hat.
Qed.

(** The mining loop tries the nonces in the order of the [uint32]
    increments from the header's own.  When the [k]-th of them is the first
    whose header hash is at most the target, the loop returns the header with
    that nonce as soon as it is given more than [k] rounds, and is still
    running after [k] rounds or fewer. *)
Theorem mine_finds_first_nonce (target : Z) (header : genesis.BlockHeader) (k : nat) :
  0 <= genesis.Nonce header < 2 ^ 32 ->
  (forall i : nat,
     (i < k)%nat ->
     target
     < genesis.hashToBig
         (BlockHash
            (genesis.set_Nonce ((genesis.Nonce header + Z.of_nat i) mod 2 ^ 32) header))) ->
  genesis.hashToBig
    (BlockHash (genesis.set_Nonce ((genesis.Nonce header + Z.of_nat k) mod 2 ^ 32) header))
  <= target ->
  (forall fuel : nat,
     (k < fuel)%nat ->
     genesis.mine BlockHash target fuel header
     = Some (genesis.set_Nonce ((genesis.Nonce header + Z.of_nat k) mod 2 ^ 32) header))
  /\ (forall fuel : nat,
        (fuel <= k)%nat -> genesis.mine BlockHash target fuel header = None).
Proof.
  intros Hnonce Hbefore Hat.
  assert (Hstart :
            genesis.set_Nonce ((genesis.Nonce header + Z.of_nat 0) mod 2 ^ 32) header = header).
  { rewrite Z.add_0_r, Z.mod_small by exact Hnonce. apply set_Nonce_same. }
  pose proof (mine_from target header k 0 Hbefore Hat) as Hrun.
  rewrite Hstart in Hrun. cbn [Nat.add] in Hrun.
  split; intros fuel Hfuel; rewrite Hrun.
  - destruct (Nat.ltb_spec k fuel); [reflexivity | lia].
  - destruct (Nat.ltb_spec k fuel); [lia | reflexivity].
Qed.

(** The loop changes nothing but the nonce, and the nonce is a
    [uint32] that wraps around: when no nonce gives a header hash at most the
    target, the loop does not return, however many rounds it is given. *)
Theorem mine_never_returns (target : Z) (header : genesis.BlockHeader) :
  0 <= genesis.Nonce header < 2 ^ 32 ->
  (forall n : Z,
     0 <= n < 2 ^ 32 ->
     target < genesis.hashToBig (BlockHash (genesis.set_Nonce n header))) ->
  forall fuel : nat, genesis.mine BlockHash target fuel header = None.
Proof.
  intros Hnonce Hall fuel.
  rewrite <- (set_Nonce_same header).
  generalize (genesis.Nonce header) Hnonce. clear Hnonce.
  induction fuel as [| fuel IH]; intros n Hn; [reflexivity |].
  cbn [genesis.mine].
  pose proof (Hall n Hn) as Hmiss.
  destruct (Z.leb_spec (genesis.hashToBig (BlockHash (genesis.set_Nonce n header))) target);
    [lia |].
  rewrite set_Nonce_twice. apply IH.
  unfold uint32_incr. apply Z.mod_pos_bound. lia.
Qed.

Lemma mine_result (target : Z) (fuel : nat) :
  forall header mined : genesis.BlockHeader,
    0 <= genesis.Nonce header < 2 ^ 32 ->
    genesis.mine BlockHash target fuel header = Some mined ->
    genesis.hashToBig (BlockHash mined) <= target
    /\ 0 <= genesis.Nonce mined < 2 ^ 32
    /\ mined = genesis.set_Nonce (genesis.Nonce mined) header.
Proof.
  induction fuel as [| fuel IH]; intros header mined Hnonce Hmine; [discriminate |].
  rewrite mine_step in Hmine.
  destruct (Z.leb_spec (genesis.hashToBig (BlockHash header)) target) as [Hhit | Hmiss].
  - injection Hmine as <-. split; [exact Hhit |]. split; [exact Hnonce |].
    symmetry. apply set_Nonce_same.
  - apply IH in Hmine; [| exact (uint32_incr_range (genesis.Nonce header))].
    destruct Hmine as (Hhit & Hn & Hshape). split; [exact Hhit |]. split; [exact Hn |].
    rewrite set_Nonce_twice in Hshape. exact Hshape.
Qed.

Variable Address : Type.
Variable PayToAddrScript : Address -> result (list byte).
Variable TxHash : genesis.MsgTx -> Hash.
Variable TxVersion : Z.

(** The header before mining, and the coinbase transaction. *)
Lemma createGenesisBlock_eq (addr : Address) (coinbaseMsg : list byte)
    (reward timestamp : Z) (now : gotime.Time) (fuel : nat) (pkScript : list byte) :
  PayToAddrScript addr = Ok pkScript ->
  let coinbaseTx :=
    {| genesis.tx_Version := TxVersion;
       genesis.tx_TxIn :=
         [{| genesis.PreviousOutPoint :=
               {| genesis.op_Hash := repeat x00 HashSize; genesis.op_Index := 4294967295 |};
             genesis.SignatureScript := coinbaseMsg;
             genesis.Sequence := 4294967295 |}];
       genesis.tx_TxOut := [{| genesis.Value := reward; genesis.PkScript := pkScript |}];
       genesis.tx_LockTime := 0 |} in
  let header :=
    {| genesis.Version := 1; genesis.PrevBlock := repeat x00 HashSize;
       genesis.MerkleRoot := TxHash coinbaseTx;
       genesis.Timestamp := (if timestamp =? 0 then now else genesis.time_Unix timestamp);
       genesis.Bits := 486604799; genesis.Nonce := 0 |} in
  genesis.createGenesisBlock Address PayToAddrScript TxHash BlockHash TxVersion
    addr coinbaseMsg reward timestamp now fuel
  = match genesis.mine BlockHash (65535 * 2 ^ 208) fuel header with
    | None => None
    | Some mined =>
        Some (Ok {| genesis.Header := mined; genesis.Transactions := [coinbaseTx] |})
    end.
Proof.
  intros Hscript. unfold genesis.createGenesisBlock. rewrite Hscript. reflexivity.
Qed.

Lemma high_bytes_zero (hash : Hash) :
  List.length hash = HashSize ->
  genesis.little_endian hash <= 65535 * 2 ^ 208 ->
  skipn 28 hash = repeat x00 4.
Proof.
  intros Hlen Hhit.
  rewrite <- (firstn_skipn 28 hash), little_endian_app in Hhit.
  assert (Hfirst : List.length (firstn 28 hash) = 28%nat)
    by (rewrite length_firstn, Hlen; reflexivity).
  assert (Hlast : List.length (skipn 28 hash) = 4%nat)
    by (rewrite length_skipn, Hlen; reflexivity).
  rewrite Hfirst in Hhit.
  pose proof (little_endian_range (firstn 28 hash)) as Hlo.
  pose proof (little_endian_range (skipn 28 hash)) as Hhi.
  replace (repeat x00 4) with (repeat x00 (List.length (skipn 28 hash)))
    by now rewrite Hlast.
  apply little_endian_zero.
  destruct (Z.eq_dec (genesis.little_endian (skipn 28 hash)) 0) as [Hz | Hnz];
    [exact Hz | exfalso].
  assert (Hone : 256 ^ Z.of_nat 28 * 1
                 <= 256 ^ Z.of_nat 28 * genesis.little_endian (skipn 28 hash))
    by (apply Z.mul_le_mono_nonneg_l; lia).
  assert (Hbig : 65535 * 2 ^ 208 < 256 ^ Z.of_nat 28 * 1) by reflexivity.
  lia.
Qed.

(** [createGenesisBlock] fails, before any mining, exactly with the
    wrapped error of the output script.  A block it returns has a header hash
    that, read as a number, is at most the target [0xffff * 2^208] of the
    compact difficulty [0x1d00ffff] (so the last four bytes of a 32-byte hash
    are zero); the block holds the one coinbase transaction, whose input
    spends the null outpoint with the message as its script and whose output
    pays the reward to the address; the header has version 1, no parent, the
    hash of the coinbase as merkle root, and the requested time (the clock
    when the timestamp is 0). *)
Theorem createGenesisBlock_spec (addr : Address) (coinbaseMsg : list byte)
    (reward timestamp : Z) (now : gotime.Time) (fuel : nat) :
  let run := genesis.createGenesisBlock Address PayToAddrScript TxHash BlockHash TxVersion
               addr coinbaseMsg reward timestamp now in
  (forall err,
     PayToAddrScript addr = Err err ->
     run fuel = Some (Err (Wrapf "failed to create output script: %w" err)))
  /\ (forall err, run fuel = Some (Err err) -> exists cause, PayToAddrScript addr = Err cause)
  /\ (forall block,
        run fuel = Some (Ok block) ->
        exists pkScript,
          PayToAddrScript addr = Ok pkScript
          /\ genesis.compactToBig 486604799 = 65535 * 2 ^ 208
          /\ genesis.hashToBig (BlockHash (genesis.Header block)) <= 65535 * 2 ^ 208
          /\ (List.length (BlockHash (genesis.Header block)) = HashSize ->
              skipn 28 (BlockHash (genesis.Header block)) = repeat x00 4)
          /\ genesis.Transactions block
             = [{| genesis.tx_Version := TxVersion;
                   genesis.tx_TxIn :=
                     [{| genesis.PreviousOutPoint :=
                           {| genesis.op_Hash := repeat x00 HashSize;
                              genesis.op_Index := 4294967295 |};
                         genesis.SignatureScript := coinbaseMsg;
                         genesis.Sequence := 4294967295 |}];
                   genesis.tx_TxOut :=
                     [{| genesis.Value := reward; genesis.PkScript := pkScript |}];
                   genesis.tx_LockTime := 0 |}]
          /\ (forall coinbaseTx,
                genesis.Transactions block = [coinbaseTx] ->
                genesis.MerkleRoot (genesis.Header block) = TxHash coinbaseTx)
          /\ genesis.Version (genesis.Header block) = 1
          /\ genesis.PrevBlock (genesis.Header block) = repeat x00 HashSize
          /\ genesis.Bits (genesis.Header block) = 486604799
          /\ genesis.Timestamp (genesis.Header block)
             = (if timestamp =? 0 then now else genesis.time_Unix timestamp)
          /\ 0 <= genesis.Nonce (genesis.Header block) < 2 ^ 32).
Proof.
  cbv zeta. split; [| split].
  - intros err Herr. unfold genesis.createGenesisBlock. now rewrite Herr.
  - intros err Hrun. destruct (PayToAddrScript addr) as [pkScript | cause] eqn:Hscript.
    + rewrite (createGenesisBlock_eq _ _ _ _ _ _ _ Hscript) in Hrun. cbv zeta in Hrun.
      destruct (genesis.mine BlockHash _ fuel _); discriminate.
    + now exists cause.
  - intros block Hrun. destruct (PayToAddrScript addr) as [pkScript | cause] eqn:Hscript.
    + rewrite (createGenesisBlock_eq _ _ _ _ _ _ _ Hscript) in Hrun. cbv zeta in Hrun.
      exists pkScript. split; [reflexivity |]. split; [reflexivity |].
      destruct (genesis.mine BlockHash _ fuel _) as [mined |] eqn:Hmine; [| discriminate].
      injection Hrun as <-.
      apply mine_result in Hmine; [| split; [reflexivity | reflexivity]].
      destruct Hmine as (Hhit & Hn & Hshape).
      split; [exact Hhit |]. split.
      * intros Hlen. apply high_bytes_zero; [exact Hlen |].
        now rewrite <- (hashToBig_as_little_endian _ Hlen).
      * rewrite Hshape.
        split; [reflexivity |].
        split; [intros coinbaseTx Htx; now injection Htx as <- |].
        split; [reflexivity |]. split; [reflexivity |]. split; [reflexivity |].
        split; [reflexivity | exact Hn].
    + unfold genesis.createGenesisBlock in Hrun. rewrite Hscript in Hrun. discriminate.
Qed.

End GenesisProperties.

(** ** The block adapter's constructors and the VM's queries *)

Section AdapterProperties.

Context {W : Wire} {E : LedgerEngine} {C : ChainAccess}.

Lemma Hash_IsEqual_refl (h : Hash) : Hash_IsEqual h h = true.
Proof. now apply Hash_IsEqual_true_iff. Qed.

Lemma uint64_of_int32_cases (x : Z) :
  - 2 ^ 31 <= x < 2 ^ 31 ->
  uint64_of_int32 x = if x <? 0 then 2 ^ 64 + x else x.
Proof.
  intros Hrange. unfold uint64_of_int32.
  destruct (Z.ltb_spec x 0).
  - rewrite <- (Z.mod_add x 1 (2 ^ 64)) by lia.
    rewrite Z.mod_small by lia. lia.
  - apply Z.mod_small. lia.
Qed.

(** [NewBlockAdapter] fails exactly when the block cannot be serialised.
    The adapter it returns has, as its consensus identity, the gossip
    identity of the same block; its parent is the header's previous block;
    its height is the block's [int32] height converted to [uint64], which is
    the height itself when that is not negative, and [2^64 + height] when it
    is (a block of unknown height, [-1], gets the height [2^64 - 1]). *)
Theorem NewBlockAdapter_spec (btcBlock : BlockObj) :
  - 2 ^ 31 <= obj_height btcBlock < 2 ^ 31 ->
  (forall err,
     Block_Bytes (obj_block btcBlock) = Err err ->
     NewBlockAdapter btcBlock = Err (Wrapf "failed to serialize block: %w" err))
  /\ (forall bytes,
        Block_Bytes (obj_block btcBlock) = Ok bytes ->
        exists a,
          NewBlockAdapter btcBlock = Ok a
          /\ adapter_btcBlock a = Some (obj_block btcBlock)
          /\ adapter_id a = GossipID (NewBlockGossip (Some (obj_block btcBlock)))
          /\ adapter_id a = Block_Hash (obj_block btcBlock)
          /\ adapter_parentID a = Header_PrevBlock (Block_MsgBlock (obj_block btcBlock))
          /\ adapter_timestamp a = Header_Timestamp (Block_MsgBlock (obj_block btcBlock))
          /\ adapter_bytes a = bytes
          /\ (0 <= obj_height btcBlock -> adapter_height a = obj_height btcBlock)
          /\ (obj_height btcBlock < 0 -> adapter_height a = 2 ^ 64 + obj_height btcBlock)).
Proof.
  intros Hrange. unfold NewBlockAdapter. cbv zeta. split.
  - intros err Herr. now rewrite Herr.
  - intros bytes Hbytes. rewrite Hbytes. eexists. split; [reflexivity |].
    cbn [adapter_btcBlock adapter_id adapter_parentID adapter_timestamp adapter_bytes
           adapter_height].
    pose proof (uint64_of_int32_cases _ Hrange) as Hheight.
    repeat apply conj; try reflexivity.
    + intros Hpos. rewrite Hheight.
      destruct (Z.ltb_spec (obj_height btcBlock) 0); [lia | reflexivity].
    + intros Hneg. rewrite Hheight.
      destruct (Z.ltb_spec (obj_height btcBlock) 0); [reflexivity | lia].
Qed.

Lemma NewBlockAdapter_id (btcBlock : BlockObj) (a : BlockAdapter) :
  NewBlockAdapter btcBlock = Ok a -> adapter_id a = Block_Hash (obj_block btcBlock).
Proof.
  unfold NewBlockAdapter. cbv zeta.
  destruct (Block_Bytes (obj_block btcBlock)); [| discriminate].
  intros Hok. injection Hok as <-. reflexivity.
Qed.

(** What [NewBlockAdapterFromBytes] does, by the answers of the decoder and
    of the chain. *)
Lemma NewBlockAdapterFromBytes_cases (blockBytes : list byte) (vm : VM) :
  (forall err,
     MsgBlock_BtcDecode blockBytes 0 WitnessEncoding = Err err ->
     NewBlockAdapterFromBytes blockBytes vm
     = (Err (Wrapf "failed to deserialize block: %w" err), vm, []))
  /\ (forall msgBlock res ledger',
        MsgBlock_BtcDecode blockBytes 0 WitnessEncoding = Ok msgBlock ->
        ProcessBlock (NewBlock msgBlock) BFNone (ledger vm) = (res, ledger') ->
        snd (fst (NewBlockAdapterFromBytes blockBytes vm)) = set_ledger ledger' vm
        /\ (forall err,
              res = Err err ->
              fst (fst (NewBlockAdapterFromBytes blockBytes vm))
              = Err (Wrapf "failed to process block: %w" err)
              /\ logged LvlError (snd (NewBlockAdapterFromBytes blockBytes vm))
                 = ["Failed to process parsed block"%string])
        /\ (forall outcome,
              res = Ok outcome ->
              fst (fst (NewBlockAdapterFromBytes blockBytes vm))
              = match BlockByHashAny ledger' (BlockHash msgBlock) with
                | Err err => Err (Wrapf "failed to retrieve processed block: %w" err)
                | Ok storedBlock => NewBlockAdapter storedBlock
                end
              /\ logged LvlError (snd (NewBlockAdapterFromBytes blockBytes vm)) = [])).
Proof.
  unfold NewBlockAdapterFromBytes. split.
  - intros err Hdec. now rewrite Hdec.
  - intros msgBlock res ledger' Hdec Hproc. rewrite Hdec. cbv zeta. rewrite Hproc.
    split; [| split].
    + destruct res as [outcome | err]; [| reflexivity].
      now destruct (BlockByHashAny ledger' (Block_Hash (NewBlock msgBlock))).
    + intros err ->. split; reflexivity.
    + intros outcome ->. unfold Block_Hash. cbn [Block_MsgBlock].
      destruct (BlockByHashAny ledger' (BlockHash msgBlock)); split; reflexivity.
Qed.

(** [ParseBlock].  Before [Initialize] it refuses, and touches nothing.
    Bytes the wire decoder refuses are an error, and the VM is as before: the
    chain is not asked anything.  A block that decodes is submitted to
    [ProcessBlock] with no flags, and the ledger is the one [ProcessBlock]
    leaves, whatever it answers; the filter, the preference and the last
    accepted block are never changed.  A failure of [ProcessBlock] is
    returned as an error and logged at Error level.  When [ProcessBlock]
    succeeds, the adapter is made from the block that the chain then holds
    under the hash of the decoded block, not from the decoded bytes; a block
    the chain does not hand back is an error. *)
Theorem ParseBlock_spec (blockBytes : list byte) (vm : VM) :
  (initialized vm = false ->
   ParseBlock blockBytes vm = (Err errNotInitialized, vm, []))
  /\ (forall err,
        initialized vm = true ->
        MsgBlock_BtcDecode blockBytes 0 WitnessEncoding = Err err ->
        ParseBlock blockBytes vm
        = (Err (Wrapf "failed to parse block: %w"
                  (Wrapf "failed to deserialize block: %w" err)), vm, []))
  /\ (forall msgBlock res ledger',
        initialized vm = true ->
        MsgBlock_BtcDecode blockBytes 0 WitnessEncoding = Ok msgBlock ->
        ProcessBlock (NewBlock msgBlock) BFNone (ledger vm) = (res, ledger') ->
        snd (fst (ParseBlock blockBytes vm)) = set_ledger ledger' vm
        /\ (forall err,
              res = Err err ->
              fst (fst (ParseBlock blockBytes vm))
              = Err (Wrapf "failed to parse block: %w"
                       (Wrapf "failed to process block: %w" err))
              /\ logged LvlError (snd (ParseBlock blockBytes vm))
                 = ["Failed to process parsed block"%string])
        /\ (forall outcome err,
              res = Ok outcome ->
              BlockByHashAny ledger' (BlockHash msgBlock) = Err err ->
              fst (fst (ParseBlock blockBytes vm))
              = Err (Wrapf "failed to parse block: %w"
                       (Wrapf "failed to retrieve processed block: %w" err)))
        /\ (forall outcome storedBlock,
              res = Ok outcome ->
              BlockByHashAny ledger' (BlockHash msgBlock) = Ok storedBlock ->
              fst (fst (ParseBlock blockBytes vm))
              = match NewBlockAdapter storedBlock with
                | Ok blockAdapter => Ok blockAdapter
                | Err err => Err (Wrapf "failed to parse block: %w" err)
                end)).
Proof.
  destruct (NewBlockAdapterFromBytes_cases blockBytes vm) as [Hrefused Hdecoded].
  unfold ParseBlock. split; [| split].
  - intros Hinit. now rewrite Hinit.
  - intros err Hinit Hdec. rewrite Hinit, (Hrefused err Hdec). reflexivity.
  - intros msgBlock res ledger' Hinit Hdec Hproc. rewrite Hinit. cbn [negb].
    destruct (Hdecoded msgBlock res ledger' Hdec Hproc) as (Hvm & Hfail & Hok).
    destruct (NewBlockAdapterFromBytes blockBytes vm) as [[r vm1] acts].
    cbn [fst snd] in *. subst vm1.
    split; [now destruct r |]. split; [| split].
    + intros err Hres. destruct (Hfail err Hres) as [-> Hlog]. split; [reflexivity | exact Hlog].
    + intros outcome err Hres Hget. destruct (Hok outcome Hres) as [-> _].
      now rewrite Hget.
    + intros outcome storedBlock Hres Hget. destruct (Hok outcome Hres) as [-> _].
      rewrite Hget. now destruct (NewBlockAdapter storedBlock).
Qed.

(** [ParseBlock] on bytes that decode, in an initialised VM. *)
Lemma ParseBlock_spec_aux (blockBytes : list byte) (msgBlock : MsgBlock)
    (res : result (bool * bool)) (ledger' : Ledger) (vm : VM) :
  initialized vm = true ->
  MsgBlock_BtcDecode blockBytes 0 WitnessEncoding = Ok msgBlock ->
  ProcessBlock (NewBlock msgBlock) BFNone (ledger vm) = (res, ledger') ->
  snd (fst (ParseBlock blockBytes vm)) = set_ledger ledger' vm
  /\ (forall err,
        res = Err err ->
        fst (fst (ParseBlock blockBytes vm))
        = Err (Wrapf "failed to parse block: %w" (Wrapf "failed to process block: %w" err))).
Proof.
  intros Hinit Hdec Hproc.
  destruct (NewBlockAdapterFromBytes_cases blockBytes vm) as [_ Hdecoded].
  destruct (Hdecoded msgBlock res ledger' Hdec Hproc) as (Hvm & Hfail & _).
  unfold ParseBlock. rewrite Hinit. cbn [negb].
  destruct (NewBlockAdapterFromBytes blockBytes vm) as [[r vm1] acts].
  cbn [fst snd] in *. subst vm1.
  split; [now destruct r |].
  intros err Hres. destruct (Hfail err Hres) as [-> _]. reflexivity.
Qed.

(** A block takes the same way into the chain whether it comes through
    [ParseBlock] or through the gossip set: for bytes that decode to a block
    the chain does not have yet, both submit that block to [ProcessBlock]
    with no flags and leave the same ledger.  They differ in what they make
    of a failure: [ParseBlock] returns it, [Add] returns [nil] and marks the
    block in the filter, which [ParseBlock] never touches. *)
Theorem ParseBlock_and_Add_agree (blockBytes : list byte) (msgBlock : MsgBlock) (vm : VM) :
  initialized vm = true ->
  MsgBlock_BtcDecode blockBytes 0 WitnessEncoding = Ok msgBlock ->
  HaveBlock (ledger vm) (BlockHash msgBlock) = Ok false ->
  let item := NewBlockGossip (Some (NewBlock msgBlock)) in
  ledger (snd (fst (ParseBlock blockBytes vm))) = ledger (snd (fst (Add (Some item) vm)))
  /\ bloom (snd (fst (ParseBlock blockBytes vm))) = bloom vm
  /\ bloom (snd (fst (Add (Some item) vm))) = bloom vm ++ [BlockHash msgBlock]
  /\ fst (fst (Add (Some item) vm)) = None
  /\ (forall err,
        fst (ProcessBlock (NewBlock msgBlock) BFNone (ledger vm)) = Err err ->
        fst (fst (ParseBlock blockBytes vm))
        = Err (Wrapf "failed to parse block: %w" (Wrapf "failed to process block: %w" err))).
Proof.
  intros Hinit Hdec Hhave. cbv zeta.
  destruct (ProcessBlock (NewBlock msgBlock) BFNone (ledger vm)) as [res ledger'] eqn:Hproc.
  destruct (ParseBlock_spec_aux blockBytes msgBlock res ledger' vm Hinit Hdec Hproc)
    as (Hvm & Hfail).
  assert (Hadd : Add (Some (NewBlockGossip (Some (NewBlock msgBlock)))) vm
                 = (None,
                    bloom_Add (NewBlockGossip (Some (NewBlock msgBlock))) (set_ledger ledger' vm),
                    [Lock set_lock] ++
                    [Log LvlDebug "UnifiedBTCSet.Add: received block";
                     match res with
                     | Err _ => Log LvlDebug "UnifiedBTCSet.Add: failed to process block"
                     | Ok _ => Log LvlInfo "UnifiedBTCSet.Add: processed block"
                     end] ++ [Unlock set_lock])).
  { unfold Add, Add_block, NewBlockGossip, GossipItemTypeBlock. cbn [ItemType Block].
    unfold Block_Hash. cbn [Block_MsgBlock]. rewrite Hhave. cbv zeta.
    change (ProcessBlock {| Block_MsgBlock := msgBlock |} BFNone (ledger vm))
      with (ProcessBlock (NewBlock msgBlock) BFNone (ledger vm)).
    rewrite Hproc. reflexivity. }
  rewrite Hadd, Hvm. cbn [fst snd].
  split; [reflexivity |]. split; [reflexivity |]. split; [reflexivity |].
  split; [reflexivity |].
  intros err Herr. cbn [fst] in Herr. exact (Hfail err Herr).
Qed.

End AdapterProperties.

Section QueryProperties.

Context {W : Wire} {E : LedgerEngine} {C : ChainAccess}.

Lemma idToHash_sized (i : ID) : List.length i = HashSize -> idToHash i = i.
Proof. intros Hlen. unfold idToHash. now rewrite Hlen, Nat.eqb_refl. Qed.

(** A block that [ParseBlock] returned is found again by its identity: on a
    chain that hands back, for a hash, a block of that hash, and with block
    hashes of 32 bytes, the identity of the adapter is the hash of the
    decoded block, and [GetBlock] of that identity in the VM that [ParseBlock]
    left returns the same adapter. *)
Theorem GetBlock_after_ParseBlock (blockBytes : list byte) (vm vm' : VM)
    (a : BlockAdapter) (acts : list Action) :
  (forall m, List.length (BlockHash m) = HashSize) ->
  (forall l h b, BlockByHashAny l h = Ok b -> Block_Hash (obj_block b) = h) ->
  ParseBlock blockBytes vm = (Ok a, vm', acts) ->
  GetBlock (adapter_id a) vm' = (Ok a, [Log LvlDebug "getting block"])
  /\ exists msgBlock,
       MsgBlock_BtcDecode blockBytes 0 WitnessEncoding = Ok msgBlock
       /\ adapter_id a = BlockHash msgBlock.
Proof.
  intros Hsize Hlaw Hparse.
  unfold ParseBlock in Hparse.
  destruct (initialized vm) eqn:Hinit; [| discriminate]. cbn [negb] in Hparse.
  unfold NewBlockAdapterFromBytes in Hparse.
  destruct (MsgBlock_BtcDecode blockBytes 0 WitnessEncoding) as [msgBlock | e];
    [| discriminate].
  cbv zeta in Hparse.
  destruct (ProcessBlock (NewBlock msgBlock) BFNone (ledger vm)) as [res ledger'].
  destruct res as [outcome | e]; [| discriminate].
  destruct (BlockByHashAny ledger' (Block_Hash (NewBlock msgBlock)))
    as [storedBlock | e] eqn:Hget; [| discriminate].
  destruct (NewBlockAdapter storedBlock) as [a0 | e] eqn:Hnew; [| discriminate].
  injection Hparse as <- <- _.
  pose proof (NewBlockAdapter_id _ _ Hnew) as Hid.
  rewrite (Hlaw _ _ _ Hget) in Hid.
  split.
  - unfold GetBlock, getBlock, NewBlockAdapterFromID, NewBlockAdapterFromHash.
    cbn [initialized set_ledger ledger]. rewrite Hinit. cbn [negb].
    rewrite Hid, idToHash_sized by apply Hsize.
    rewrite Hget, Hnew. reflexivity.
  - exists msgBlock. split; [reflexivity | exact Hid].
Qed.



(** [GetBlock] looks the block up under the identity read as a hash, on
    any branch of the chain.  Before [Initialize] it refuses.  A block the
    chain does not hand back, and a block that cannot be serialised, are
    errors, wrapped by each caller on the way up and logged at Error level;
    the adapter of a block found has the hash of that block as its
    identity.  The VM is never changed. *)
Theorem GetBlock_spec (blockID : ID) (vm : VM) :
  (initialized vm = false -> GetBlock blockID vm = (Err errNotInitialized, []))
  /\ (initialized vm = true ->
      (forall err,
         BlockByHashAny (ledger vm) (idToHash blockID) = Err err ->
         GetBlock blockID vm
         = (Err (Wrapf "failed to get block adapter: %w"
                   (Wrapf "failed to get block by hash: %w" err)),
            [Log LvlDebug "getting block"; Log LvlError "failed to get block"]))
      /\ (forall block err,
            BlockByHashAny (ledger vm) (idToHash blockID) = Ok block ->
            Block_Bytes (obj_block block) = Err err ->
            GetBlock blockID vm
            = (Err (Wrapf "failed to get block adapter: %w"
                      (Wrapf "failed to serialize block: %w" err)),
               [Log LvlDebug "getting block"; Log LvlError "failed to get block"]))
      /\ (forall block bytes,
            BlockByHashAny (ledger vm) (idToHash blockID) = Ok block ->
            Block_Bytes (obj_block block) = Ok bytes ->
            exists a,
              GetBlock blockID vm = (Ok a, [Log LvlDebug "getting block"])
              /\ NewBlockAdapter block = Ok a
              /\ adapter_id a = Block_Hash (obj_block block)
              /\ adapter_bytes a = bytes)).
Proof.
  unfold GetBlock, getBlock, NewBlockAdapterFromID, NewBlockAdapterFromHash.
  split; [intros Hinit; now rewrite Hinit |].
  intros Hinit. rewrite Hinit. cbn [negb].
  split; [| split].
  - intros err Hget. now rewrite Hget.
  - intros block err Hget Hbytes. rewrite Hget.
    unfold NewBlockAdapter. cbv zeta. now rewrite Hbytes.
  - intros block bytes Hget Hbytes. rewrite Hget.
    unfold NewBlockAdapter. cbv zeta. rewrite Hbytes.
    eexists. split; [reflexivity |]. now repeat split.
Qed.

(** Accepting a block makes it both the last accepted and the preferred
    one; a later [SetPreference] moves the preference only, and accepting
    again overrides it.  None of them touches the ledger, the filter or the
    block builder.  Before [Initialize], [SetPreference] and [LastAccepted]
    refuse and change nothing. *)
Theorem Accept_then_SetPreference (b b2 : BlockAdapter) (blockID : ID) (vm : VM) :
  let vm1 := snd (fst (Accept b vm)) in
  let vm2 := snd (fst (SetPreference blockID vm1)) in
  let vm3 := snd (fst (Accept b2 vm2)) in
  (initialized vm = false ->
   SetPreference blockID vm = (Some errNotInitialized, vm, [])
   /\ LastAccepted vm = Err errNotInitialized)
  /\ (initialized vm = true ->
      LastAccepted vm1 = Ok (adapter_id b)
      /\ preferred vm1 = adapter_id b
      /\ fst (fst (SetPreference blockID vm1)) = None
      /\ preferred vm2 = blockID
      /\ LastAccepted vm2 = Ok (adapter_id b)
      /\ LastAccepted vm3 = Ok (adapter_id b2)
      /\ preferred vm3 = adapter_id b2
      /\ ledger vm3 = ledger vm
      /\ bloom vm3 = bloom vm
      /\ vm_blockBuilder vm3 = vm_blockBuilder vm).
Proof.
  cbv zeta. unfold LastAccepted, SetPreference, Accept.
  cbn [fst snd initialized set_preferred set_lastAccepted].
  split; intros Hinit; rewrite Hinit;
    cbn [negb fst snd initialized set_preferred set_lastAccepted preferred
           lastAccepted ledger bloom vm_blockBuilder];
    rewrite ?Hinit; repeat apply conj; reflexivity.
Qed.

End QueryProperties.

(** ** More of the set and the codec *)

Section MoreSetProperties.

Context {W : Wire} {E : LedgerEngine}.

Lemma bloom_Has_after_Add (item : BTCGossip) (vm : VM) :
  bloom_Has item (bloom_Add item vm) = true.
Proof.
  unfold bloom_Has, bloom_Add. cbn [bloom set_bloom].
  rewrite existsb_app. cbn [existsb].
  rewrite Hash_IsEqual_refl. now rewrite orb_true_r.
Qed.

Lemma Add_block_success (blk : btcutil_Block) (vm vm' : VM) (acts : list Action) :
  Add (Some (NewBlockGossip (Some blk))) vm = (None, vm', acts) ->
  exists vm0, vm' = bloom_Add (NewBlockGossip (Some blk)) vm0.
Proof.
  unfold Add, Add_block, NewBlockGossip, GossipItemTypeBlock. cbn [ItemType Block].
  destruct (HaveBlock (ledger vm) (Block_Hash blk)) as [[|] | e].
  - intros Hadd. injection Hadd as <- _. now exists vm.
  - cbv zeta. destruct (ProcessBlock blk BFNone (ledger vm)) as [res ledger'].
    intros Hadd. injection Hadd as <- _. now exists (set_ledger ledger' vm).
  - discriminate.
Qed.

(** A block that the set has taken is not pushed again by the relay
    callback: once [Add] has returned [nil] for a block, the callback of
    [Initialize], run on that block with the set in place, finds it in the
    filter and hands nothing to the push gossiper.  With no set in place the
    filter is not asked and the block is pushed; with no push gossiper the
    callback does nothing; and a block the filter does not know is pushed
    once. *)
Theorem OnBlockRelay_after_Add (blk : btcutil_Block) (vm vm' : VM) (acts : list Action) :
  Add (Some (NewBlockGossip (Some blk))) vm = (None, vm', acts) ->
  Initialize_OnBlockRelay true true blk vm'
  = [Log LvlDebug "Skipping block gossip - already in bloom filter"]
  /\ pushed (Initialize_OnBlockRelay true true blk vm') = []
  /\ pushed (Initialize_OnBlockRelay true false blk vm') = [NewBlockGossip (Some blk)]
  /\ (forall btcSet, Initialize_OnBlockRelay false btcSet blk vm' = [])
  /\ (bloom_Has (NewBlockGossip (Some blk)) vm = false ->
      pushed (Initialize_OnBlockRelay true true blk vm) = [NewBlockGossip (Some blk)]).
Proof.
  intros Hadd. destruct (Add_block_success blk vm vm' acts Hadd) as [vm0 ->].
  unfold Initialize_OnBlockRelay. rewrite bloom_Has_after_Add. cbn [andb].
  repeat apply conj; try reflexivity.
  intros Hnew. now rewrite Hnew.
Qed.

Lemma Add_tx_outcome (x : BTCGossip) (vm : VM) :
  ItemType x = GossipItemTypeTx ->
  let err := fst (fst (Add_tx x vm)) in
  let vm' := snd (fst (Add_tx x vm)) in
  (err = None -> Tx x <> None /\ bloom vm' = bloom vm ++ [GossipID x])
  /\ (err <> None -> bloom vm' = bloom vm /\ pushed (snd (Add_tx x vm)) = [])
  /\ OnTxRelay vm' = OnTxRelay vm /\ preferred vm' = preferred vm
  /\ lastAccepted vm' = lastAccepted vm /\ vm_blockBuilder vm' = vm_blockBuilder vm
  /\ initialized vm' = initialized vm.
Proof.
  intros Hkind. cbv zeta. unfold Add_tx.
  destruct (Tx x) as [tx |]; [| cbn; repeat split; congruence].
  cbv zeta. destruct (HaveTransaction (ledger vm) (Tx_Hash tx)).
  - cbn. repeat split; congruence.
  - destruct (ProcessTransaction tx false false 0 (ledger vm)) as [[acceptedTxs | e] ledger'].
    + cbn [fst snd]. repeat split; try congruence; try reflexivity.
    + cbn. repeat split; congruence.
Qed.

Lemma Add_block_outcome (x : BTCGossip) (vm : VM) :
  ItemType x = GossipItemTypeBlock ->
  let err := fst (fst (Add_block x vm)) in
  let vm' := snd (fst (Add_block x vm)) in
  (err = None -> Block x <> None /\ bloom vm' = bloom vm ++ [GossipID x])
  /\ (err <> None -> bloom vm' = bloom vm /\ pushed (snd (Add_block x vm)) = [])
  /\ OnTxRelay vm' = OnTxRelay vm /\ preferred vm' = preferred vm
  /\ lastAccepted vm' = lastAccepted vm /\ vm_blockBuilder vm' = vm_blockBuilder vm
  /\ initialized vm' = initialized vm.
Proof.
  intros Hkind. cbv zeta. unfold Add_block.
  destruct (Block x) as [blk |]; [| cbn; repeat split; congruence].
  cbv zeta. destruct (HaveBlock (ledger vm) (Block_Hash blk)) as [[|] | e].
  - cbn. repeat split; congruence.
  - destruct (ProcessBlock blk BFNone (ledger vm)) as [res ledger'].
    cbn [fst snd]. repeat split; try congruence; try reflexivity.
  - cbn. repeat split; congruence.
Qed.

(** [Add] returns [nil] exactly when it has marked the item: on success the
    item is a valid one and the filter has gained its identity, as the last
    entry, so that the filter knows it; on every error (a nil item, a nil
    payload, an unknown kind, a refused transaction, a failed block lookup)
    the filter is as before and nothing is handed to the push gossiper.  No
    call changes the relay callback, the preference, the last accepted block,
    the block builder or the initialisation flag, and the set's lock is taken
    first and released last. *)
Theorem Add_marks_iff_success (item : option BTCGossip) (vm : VM) :
  let err := fst (fst (Add item vm)) in
  let vm' := snd (fst (Add item vm)) in
  let acts := snd (Add item vm) in
  (err = None ->
   exists x,
     item = Some x /\ valid_item x
     /\ bloom vm' = bloom vm ++ [GossipID x]
     /\ bloom_Has x vm' = true)
  /\ (err <> None -> bloom vm' = bloom vm /\ pushed acts = [])
  /\ OnTxRelay vm' = OnTxRelay vm
  /\ preferred vm' = preferred vm
  /\ lastAccepted vm' = lastAccepted vm
  /\ vm_blockBuilder vm' = vm_blockBuilder vm
  /\ initialized vm' = initialized vm
  /\ (exists inner, acts = Lock set_lock :: inner ++ [Unlock set_lock]).
Proof.
  cbv zeta.
  assert (Hknown : forall x v, bloom v = bloom vm ++ [GossipID x] -> bloom_Has x v = true).
  { intros x v Hb. unfold bloom_Has. rewrite Hb, existsb_app. cbn [existsb].
    rewrite Hash_IsEqual_refl. now rewrite orb_true_r. }
  destruct item as [x |].
  2: { cbn. repeat split; try congruence. now exists []. }
  destruct (Byte.byte_eq_dec (ItemType x) GossipItemTypeTx) as [Htx | Hntx].
  - rewrite (Add_tx_dispatch x vm Htx). cbn [fst snd].
    destruct (Add_tx_outcome x vm Htx) as (Hok & Hfail & Hrest).
    split; [| split; [| repeat split; try apply Hrest]].
    + intros Herr. destruct (Hok Herr) as [Hsome Hbloom].
      exists x. split; [reflexivity |]. split; [left; now split |].
      split; [exact Hbloom | now apply Hknown].
    + intros Herr. destruct (Hfail Herr) as [Hbloom Hpushed].
      split; [exact Hbloom |]. cbn [app pushed]. now rewrite pushed_app, Hpushed.
    + now exists (snd (Add_tx x vm)).
  - destruct (Byte.byte_eq_dec (ItemType x) GossipItemTypeBlock) as [Hblk | Hnblk].
    + rewrite (Add_block_dispatch x vm Hblk). cbn [fst snd].
      destruct (Add_block_outcome x vm Hblk) as (Hok & Hfail & Hrest).
      split; [| split; [| repeat split; try apply Hrest]].
      * intros Herr. destruct (Hok Herr) as [Hsome Hbloom].
        exists x. split; [reflexivity |]. split; [right; now split |].
        split; [exact Hbloom | now apply Hknown].
      * intros Herr. destruct (Hfail Herr) as [Hbloom Hpushed].
        split; [exact Hbloom |]. cbn [app pushed]. now rewrite pushed_app, Hpushed.
      * now exists (snd (Add_block x vm)).
    + assert (Hadd : Add (Some x) vm
                     = (Some (Errorf "unknown gossip item type: %d"), vm,
                        [Lock set_lock] ++ [] ++ [Unlock set_lock])).
      { unfold Add. unfold GossipItemTypeTx, GossipItemTypeBlock in *.
        destruct (ItemType x); try reflexivity; congruence. }
      rewrite Hadd. cbn [fst snd]. repeat split; try congruence. now exists [].
Qed.

(** What [UnmarshalGossip] returns is a valid item of the kind of the first
    byte, with the payload of that kind, decoded from the rest of the bytes,
    and no other payload; [MarshalGossip] can refuse it only through the wire
    encoder. *)
Theorem UnmarshalGossip_valid (data : list byte) (item : BTCGossip) :
  UnmarshalGossip data = Ok item ->
  valid_item item
  /\ (exists rest,
        data = ItemType item :: rest
        /\ (ItemType item = GossipItemTypeTx ->
            Block item = None
            /\ exists m, MsgTx_BtcDecode rest 0 WitnessEncoding = Ok m
                         /\ Tx item = Some (NewTx m))
        /\ (ItemType item = GossipItemTypeBlock ->
            Tx item = None
            /\ exists m, MsgBlock_BtcDecode rest 0 WitnessEncoding = Ok m
                         /\ Block item = Some (NewBlock m)))
  /\ (forall err,
        MarshalGossip (Some item) = Err err ->
        exists cause,
          err = Wrapf "failed to encode tx: %w" cause
          \/ err = Wrapf "failed to encode block: %w" cause).
Proof.
  unfold UnmarshalGossip. destruct data as [| itemType rest]; [discriminate |].
  intros Hdec.
  assert (Hshape :
            (exists m, MsgTx_BtcDecode rest 0 WitnessEncoding = Ok m
                       /\ item = {| ItemType := x01; Tx := Some (NewTx m); Block := None |})
            \/ (exists m, MsgBlock_BtcDecode rest 0 WitnessEncoding = Ok m
                          /\ item = {| ItemType := x02; Tx := None;
                                       Block := Some (NewBlock m) |})).
  { destruct itemType; try discriminate Hdec.
    - destruct (MsgTx_BtcDecode rest 0 WitnessEncoding) as [m | e]; [| discriminate].
      injection Hdec as <-. left. now exists m.
    - destruct (MsgBlock_BtcDecode rest 0 WitnessEncoding) as [m | e]; [| discriminate].
      injection Hdec as <-. right. now exists m. }
  assert (Hfirst : itemType = ItemType item).
  { destruct itemType; try discriminate Hdec.
    - destruct (MsgTx_BtcDecode rest 0 WitnessEncoding); [| discriminate].
      now injection Hdec as <-.
    - destruct (MsgBlock_BtcDecode rest 0 WitnessEncoding); [| discriminate].
      now injection Hdec as <-. }
  clear Hdec. rewrite Hfirst. clear Hfirst itemType.
  destruct Hshape as [(m & Hm & ->) | (m & Hm & ->)]; cbn [ItemType Tx Block].
  - split; [left; split; [reflexivity | discriminate] |].
    split.
    + exists rest. split; [reflexivity |].
      split; [intros _; split; [reflexivity | now exists m] |].
      intros Hk. discriminate Hk.
    + intros err. unfold MarshalGossip. cbn [ItemType Tx Tx_MsgTx].
      destruct (MsgTx_BtcEncode m 0 WitnessEncoding) as [w | cause]; [discriminate |].
      intros Herr. injection Herr as <-. exists cause. now left.
  - split; [right; split; [reflexivity | discriminate] |].
    split.
    + exists rest. split; [reflexivity |].
      split; [intros Hk; discriminate Hk |].
      intros _. split; [reflexivity | now exists m].
    + intros err. unfold MarshalGossip. cbn [ItemType Block Block_MsgBlock].
      destruct (MsgBlock_BtcEncode m 0 WitnessEncoding) as [w | cause]; [discriminate |].
      intros Herr. injection Herr as <-. exists cause. now right.
Qed.

End MoreSetProperties.

(** ** The builder after an attempt, and bursts of accepted transactions *)

Section MoreBuilderProperties.

Context {W : Wire} {E : LedgerEngine}.

(** The delay computed after a recorded attempt, on a clock that does not
    run backwards: with the attempt recorded at [now] and the delay asked at
    [later], what is left of 100 ms after [now] when the current block is
    still the parent of the attempt, and of 2 s when it is another block.
    The delay is never above 2 s, never above 100 ms on a retry, and
    zero once 2 s have passed. *)
Theorem delay_after_attempt (parentHash currentBlockHash : Hash) (now later : gotime.Time)
    (mempool : option Ledger) (b : blockBuilder) :
  0 < now ->
  now <= later < now + 2 ^ 62 ->
  let b' := fst (handleBuildAttempt parentHash now mempool b) in
  let delay := fst (calculateBuildingDelay b' currentBlockHash later) in
  (parentHash = currentBlockHash -> delay = Z.max 0 (now + 100000000 - later))
  /\ (parentHash <> currentBlockHash -> delay = Z.max 0 (now + 2000000000 - later))
  /\ 0 <= delay <= 2000000000
  /\ (parentHash = currentBlockHash -> delay <= 100000000)
  /\ (now + 2000000000 <= later -> delay = 0).
Proof.
  intros Hnow Hlater. cbv zeta.
  destruct (handleBuildAttempt_fields parentHash now mempool b) as [Htime Hparent].
  assert (Hzero : gotime.IsZero
                    (lastBuildTime (fst (handleBuildAttempt parentHash now mempool b)))
                  = false).
  { rewrite Htime. unfold gotime.IsZero. apply Z.eqb_neq. lia. }
  rewrite (calculateBuildingDelay_later _ _ _ Hzero), Htime, Hparent.
  assert (Hretry : gotime.Sub (gotime.Add now RetryDelay) later = now + 100000000 - later).
  { unfold gotime.Add. rewrite Sub_exact.
    - reflexivity.
    - change RetryDelay with 100000000.
      change gotime.minDuration with (- 2 ^ 63).
      change gotime.maxDuration with (2 ^ 63 - 1). lia. }
  assert (Htarget : gotime.Sub (gotime.Add now TargetBlockTime) later
                    = now + 2000000000 - later).
  { unfold gotime.Add. rewrite Sub_exact.
    - reflexivity.
    - change TargetBlockTime with 2000000000.
      change gotime.minDuration with (- 2 ^ 63).
      change gotime.maxDuration with (2 ^ 63 - 1). lia. }
  destruct (Hash_IsEqual parentHash currentBlockHash) eqn:Heq.
  - apply Hash_IsEqual_true_iff in Heq. rewrite Hretry.
    repeat apply conj; intros; try congruence; lia.
  - apply Hash_IsEqual_false_iff in Heq. rewrite Htarget.
    repeat apply conj; intros; try congruence; lia.
Qed.

Lemma onTxAccepted_queue (queued : nat) :
  fst (onTxAccepted queued)
  = if (queued <? txSubmitChannelSize)%nat then S queued else queued.
Proof.
  unfold onTxAccepted. now destruct (queued <? txSubmitChannelSize)%nat.
Qed.

Lemma onTxAccepted_burst_queue (n : nat) :
  forall queued : nat,
    (queued <= txSubmitChannelSize)%nat ->
    onTxAccepted_burst n queued = Nat.min (queued + n) txSubmitChannelSize.
Proof.
  induction n as [| n IH]; intros queued Hq.
  - cbn [onTxAccepted_burst]. lia.
  - cbn [onTxAccepted_burst]. rewrite onTxAccepted_queue.
    destruct (Nat.ltb_spec queued txSubmitChannelSize).
    + rewrite IH by lia. lia.
    + rewrite IH by lia. lia.
Qed.

(** The channel of [onTxAccepted] holds 1024 signals and drops the rest:
    after [n] calls on a channel with [queued] signals waiting there are
    [min(queued + n, 1024)].  However many transactions are accepted in a
    burst, when the listener has taken the signals of the burst from an
    empty channel, an Idle builder has become Pending and exactly one
    scheduling task has been started; nothing has been sent to the host
    engine yet. *)
Theorem onTxAccepted_burst_one_task (n queued : nat) (b : blockBuilder) :
  (queued <= txSubmitChannelSize)%nat ->
  onTxAccepted_burst n queued = Nat.min (queued + n) txSubmitChannelSize
  /\ (onTxAccepted_burst n queued <= txSubmitChannelSize)%nat
  /\ (Idle b ->
      (0 < n)%nat ->
      Pending (fst (awaitTxSubmissions (onTxAccepted_burst n 0) b))
      /\ spawned (snd (awaitTxSubmissions (onTxAccepted_burst n 0) b)) = 1%nat
      /\ sent (snd (awaitTxSubmissions (onTxAccepted_burst n 0) b)) = []).
Proof.
  intros Hq. rewrite (onTxAccepted_burst_queue n queued Hq).
  split; [reflexivity |]. split; [lia |].
  intros Hidle Hn.
  rewrite (onTxAccepted_burst_queue n 0) by lia.
  assert (Hsome : exists k, Nat.min (0 + n) txSubmitChannelSize = S k).
  { destruct (Nat.min (0 + n) txSubmitChannelSize) as [| k] eqn:Hmin.
    - unfold txSubmitChannelSize in Hmin. lia.
    - now exists k. }
  destruct Hsome as [k ->].
  destruct (awaitTxSubmissions_idle k b Hidle) as (Hb & Hs & _).
  split; [now rewrite Hb |]. split; [exact Hs |].
  clear Hb Hs. generalize (S k). intros m. revert b Hidle.
  induction m as [| m IH]; intros b Hidle; [reflexivity |].
  rewrite awaitTxSubmissions_step. cbn [snd]. rewrite sent_app.
  assert (Hquiet : forall b0, sent (snd (signalCanBuild b0)) = []).
  { intros b0. unfold signalCanBuild. cbn [snd]. now destruct (hasPendingTxs b0). }
  rewrite Hquiet. cbn [app].
  destruct m as [| m']; [reflexivity |].
  clear IH. generalize (fst (signalCanBuild b)). clear b Hidle.
  induction (S m') as [| j IHj]; intros b; [reflexivity |].
  rewrite awaitTxSubmissions_step. cbn [snd]. rewrite sent_app, Hquiet. apply IHj.
Qed.

End MoreBuilderProperties.

(** ** The VM's life cycle *)

Section LifecycleProperties.

Context {W : Wire} {E : LedgerEngine}.

Lemma goroutines_app (l1 l2 : list LifeEvent) :
  goroutines (l1 ++ l2) = goroutines l1 ++ goroutines l2.
Proof. apply filter_app. Qed.

Lemma gossip_initializations_app (l1 l2 : list LifeEvent) :
  gossip_initializations (l1 ++ l2)
  = (gossip_initializations l1 + gossip_initializations l2)%nat.
Proof. unfold gossip_initializations. now rewrite filter_app, length_app. Qed.

Lemma goroutines_Did (acts : list Action) :
  goroutines (map Did acts) = repeat (Did Go_scheduleBlockBuild) (spawned acts).
Proof.
  unfold goroutines, spawned.
  induction acts as [| a acts IH]; [reflexivity |].
  destruct a; cbn [map filter is_goroutine is_spawn List.length repeat]; now rewrite ?IH.
Qed.

Lemma on_builderLock_Did (acts : list Action) : on_builderLock (map Did acts) = [].
Proof.
  unfold on_builderLock. induction acts as [| a acts IH]; [reflexivity |].
  cbn [map filter]. exact IH.
Qed.

Lemma gossip_initializations_Did (acts : list Action) :
  gossip_initializations (map Did acts) = 0%nat.
Proof.
  unfold gossip_initializations. induction acts as [| a acts IH]; [reflexivity |].
  cbn [map filter]. exact IH.
Qed.

Lemma initBlockBuilding_eq (mempool : option Ledger) (vm : VM) (bb : blockBuilder) :
  vm_blockBuilder vm = Some bb ->
  initBlockBuilding mempool vm
  = (None,
     set_blockBuilder (Some (if needToBuild mempool then fst (signalCanBuild bb) else bb)) vm,
     [Did (Log LvlInfo "initBlockBuilding starting"); Lock_builderLock]
       ++ [Go_awaitTxSubmissions; Did (Log LvlInfo "initBlockBuilding blockBuilder started")]
       ++ match mempool with
          | None => []
          | Some _ =>
              Did (Log LvlInfo "initBlockBuilding checking mempool")
                :: (if needToBuild mempool then
                      map Did (snd (signalCanBuild bb))
                        ++ [Did (Log LvlInfo
                                   "initBlockBuilding signaled can build due to existing transactions")]
                    else [])
          end
       ++ [Did (Log LvlInfo "initBlockBuilding completed"); Unlock_builderLock]).
Proof.
  intros Hbb. unfold initBlockBuilding, needToBuild. rewrite Hbb. cbv zeta.
  destruct mempool as [mp |]; [| reflexivity].
  destruct (0 <? List.length (MiningDescs mp))%nat; [| reflexivity].
  now destruct (signalCanBuild bb).
Qed.

Lemma on_builderLock_app (l1 l2 : list LifeEvent) :
  on_builderLock (l1 ++ l2) = on_builderLock l1 ++ on_builderLock l2.
Proof. apply filter_app. Qed.

(** [initBlockBuilding].  With no block builder it fails and starts
    nothing.  Otherwise it succeeds, starts the listener of the submission
    channel, and signals the builder if and only if the mempool holds
    transactions to mine: the builder ends Pending exactly when it was
    Pending or the mempool is not empty, its record of the last attempt is
    kept, and one scheduling task is started exactly when the mempool is not
    empty and the builder was Idle.  In every case [vm.builderLock] is taken
    once and released once, and nothing but the block builder changes. *)
Theorem initBlockBuilding_spec (mempool : option Ledger) (vm : VM) :
  let err := fst (fst (initBlockBuilding mempool vm)) in
  let vm' := snd (fst (initBlockBuilding mempool vm)) in
  let evs := snd (initBlockBuilding mempool vm) in
  (vm_blockBuilder vm = None ->
   err = Some (Errorf "block builder not initialized")
   /\ vm' = vm
   /\ goroutines evs = [])
  /\ (forall bb,
        vm_blockBuilder vm = Some bb ->
        err = None
        /\ vm' = set_blockBuilder
                   (Some (set_hasPendingTxs (hasPendingTxs bb || needToBuild mempool) bb)) vm
        /\ goroutines evs
           = Go_awaitTxSubmissions
               :: (if needToBuild mempool && negb (hasPendingTxs bb)
                   then [Did Go_scheduleBlockBuild] else []))
  /\ on_builderLock evs = [Lock_builderLock; Unlock_builderLock]
  /\ gossip_initializations evs = 0%nat.
Proof.
  cbv zeta. destruct (vm_blockBuilder vm) as [bb |] eqn:Hbb.
  - rewrite (initBlockBuilding_eq mempool vm bb Hbb). cbn [fst snd].
    split; [discriminate |].
    assert (Hstate : (if needToBuild mempool then fst (signalCanBuild bb) else bb)
                     = set_hasPendingTxs (hasPendingTxs bb || needToBuild mempool) bb).
    { destruct (needToBuild mempool).
      - now rewrite orb_true_r.
      - now rewrite orb_false_r, set_hasPendingTxs_same. }
    split; [| split].
    + intros bb0 Hsome. injection Hsome as <-.
      split; [reflexivity |]. split; [now rewrite Hstate |].
      rewrite !goroutines_app.
      destruct mempool as [mp |]; [| reflexivity].
      destruct (needToBuild (Some mp)); [| reflexivity].
      cbn [goroutines filter is_goroutine app andb].
      change (filter is_goroutine) with goroutines.
      rewrite goroutines_app, goroutines_Did, signalCanBuild_spawned.
      now destruct (hasPendingTxs bb).
    + rewrite !on_builderLock_app.
      destruct mempool as [mp |]; [| reflexivity].
      destruct (needToBuild (Some mp)); [| reflexivity].
      cbn [on_builderLock filter app].
      change (filter (fun ev => match ev with
                                | Lock_builderLock | Unlock_builderLock => true
                                | _ => false
                                end)) with on_builderLock.
      now rewrite on_builderLock_app, on_builderLock_Did.
    + rewrite !gossip_initializations_app.
      destruct mempool as [mp |]; [| reflexivity].
      destruct (needToBuild (Some mp)); [| reflexivity].
      unfold gossip_initializations at 3. cbn [filter].
      change (List.length
                (filter (fun ev => match ev with
                                   | Call_initializeGossip => true
                                   | _ => false
                                   end)
                   (map Did (snd (signalCanBuild bb))
                      ++ [Did (Log LvlInfo
                                 "initBlockBuilding signaled can build due to existing transactions")])))
        with (gossip_initializations
                (map Did (snd (signalCanBuild bb))
                   ++ [Did (Log LvlInfo
                              "initBlockBuilding signaled can build due to existing transactions")])).
      now rewrite gossip_initializations_app, gossip_initializations_Did.
  - unfold initBlockBuilding. rewrite Hbb. cbn [fst snd].
    split; [intros _; now repeat split |].
    split; [discriminate |]. split; reflexivity.
Qed.

(** *** SetState *)

Lemma SetState_again (env : NormalOpEnv) (node : Node) :
  bootstrapped node = true ->
  SetState NormalOp env node
  = (None, node,
     [Did (Log LvlDebug "entering SetState"); Did (Log LvlInfo "setting VM state");
      Did (Log LvlDebug "Bitcoin VM already bootstrapped, skipping gossip initialization");
      Did (Log LvlDebug "exiting SetState")]).
Proof. intros Hb. unfold SetState, SetState_switch. now rewrite Hb. Qed.

Lemma initBlockBuilding_no_gossip (mempool : option Ledger) (vm : VM) :
  gossip_initializations (snd (initBlockBuilding mempool vm)) = 0%nat.
Proof.
  destruct (vm_blockBuilder vm) as [bb |] eqn:Hbb.
  - rewrite (initBlockBuilding_eq mempool vm bb Hbb). cbn [snd].
    rewrite !gossip_initializations_app.
    destruct mempool as [mp |]; [| reflexivity].
    destruct (needToBuild (Some mp)); [| reflexivity].
    unfold gossip_initializations. cbn [filter app List.length Nat.add].
    rewrite filter_app, length_app.
    change (List.length
              (filter (fun ev => match ev with
                                 | Call_initializeGossip => true
                                 | _ => false
                                 end)
                 (map Did (snd (signalCanBuild bb)))))
      with (gossip_initializations (map Did (snd (signalCanBuild bb)))).
    now rewrite gossip_initializations_Did.
  - unfold initBlockBuilding. now rewrite Hbb.
Qed.

Lemma SetState_first (env : NormalOpEnv) (node : Node) :
  bootstrapped node = false ->
  SetState NormalOp env node
  = match env_initializeGossip env with
    | Some e =>
        (Some (Wrapf "failed to initialize gossip: %w" e),
         set_bootstrapped true node,
         [Did (Log LvlDebug "entering SetState");
          Did (Log LvlInfo "setting VM state");
          Did (Log LvlInfo "Bitcoin VM entering normal operation");
          Did (Log LvlInfo "Starting normal operations");
          Call_initializeGossip;
          Did (Log LvlDebug "exiting SetState")])
    | None =>
        (fst (fst (initBlockBuilding (env_pool env) (node_vm node))),
         {| node_vm := snd (fst (initBlockBuilding (env_pool env) (node_vm node)));
            bootstrapped := true |},
         [Did (Log LvlDebug "entering SetState");
          Did (Log LvlInfo "setting VM state");
          Did (Log LvlInfo "Bitcoin VM entering normal operation");
          Did (Log LvlInfo "Starting normal operations");
          Call_initializeGossip;
          Did (Log LvlInfo "Starting gossip loops");
          Go_pushGossipLoop;
          Go_pullGossipLoop;
          Did (Log LvlInfo "Gossip loops started successfully");
          Did (Log LvlInfo "Normal operations started successfully")]
           ++ snd (initBlockBuilding (env_pool env) (node_vm node))
           ++ [Did (Log LvlDebug "exiting SetState")])
    end.
Proof.
  intros Hb. unfold SetState, SetState_switch. rewrite Hb.
  destruct (env_initializeGossip env) as [e |]; [reflexivity |].
  cbn [onNormalOperationsStarted fst snd node_vm set_bootstrapped].
  now destruct (initBlockBuilding (env_pool env) (node_vm node)) as [[err vm'] evs'].
Qed.

Lemma SetState_first_count (env : NormalOpEnv) (node : Node) :
  bootstrapped node = false ->
  gossip_initializations (snd (SetState NormalOp env node)) = 1%nat.
Proof.
  intros Hb. rewrite (SetState_first env node Hb).
  destruct (env_initializeGossip env) as [e |]; [reflexivity |].
  cbn [snd]. rewrite !gossip_initializations_app, initBlockBuilding_no_gossip.
  reflexivity.
Qed.



Lemma SetState_run_again (later : list NormalOpEnv) (node : Node) :
  bootstrapped node = true ->
  fst (SetState_run (map (pair NormalOp) later) node) = (map (fun _ => None) later, node)
  /\ gossip_initializations (snd (SetState_run (map (pair NormalOp) later) node)) = 0%nat
  /\ goroutines (snd (SetState_run (map (pair NormalOp) later) node)) = [].
Proof.
  intros Hb. induction later as [| env later IH]; [now repeat split |].
  cbn [map SetState_run]. rewrite (SetState_again env node Hb).
  destruct (SetState_run (map (pair NormalOp) later) node) as [[errs node2] evs2].
  cbn [fst snd] in *. destruct IH as (Hfst & Hinit & Hgo).
  injection Hfst as -> ->.
  split; [reflexivity |].
  rewrite gossip_initializations_app, goroutines_app, Hinit, Hgo. now split.
Qed.

(** Entering normal operation is done at most once until the next reset.
    In a run of calls of [SetState] with the state of normal operation, only
    the first one can do anything: the calls after it return [nil] and
    leave the node as the first call left it, gossip is initialised once if
    the node was not bootstrapped and not at all if it was, and the
    goroutines of the run are those of the first call.  In particular, after
    a first call that failed, the later calls report success although
    gossip and block building were not set up. *)
Theorem SetState_NormalOp_once (env : NormalOpEnv) (later : list NormalOpEnv)
    (node : Node) :
  let first := SetState NormalOp env node in
  let run := SetState_run ((NormalOp, env) :: map (pair NormalOp) later) node in
  fst (fst run) = fst (fst first) :: map (fun _ => None) later
  /\ snd (fst run) = snd (fst first)
  /\ bootstrapped (snd (fst run)) = true
  /\ gossip_initializations (snd run) = (if bootstrapped node then 0%nat else 1%nat)
  /\ goroutines (snd run) = goroutines (snd first).
Proof.
  cbv zeta. cbn [SetState_run].
  assert (Hb1 : bootstrapped (snd (fst (SetState NormalOp env node))) = true).
  { destruct (bootstrapped node) eqn:Hb.
    - now rewrite (SetState_again env node Hb).
    - rewrite (SetState_first env node Hb). now destruct (env_initializeGossip env). }
  assert (Hcount : gossip_initializations (snd (SetState NormalOp env node))
                   = (if bootstrapped node then 0%nat else 1%nat)).
  { destruct (bootstrapped node) eqn:Hb.
    - now rewrite (SetState_again env node Hb).
    - now apply SetState_first_count. }
  destruct (SetState NormalOp env node) as [[err node1] evs1]. cbn [fst snd] in *.
  destruct (SetState_run_again later node1 Hb1) as (Hfst & Hinit & Hgo).
  destruct (SetState_run (map (pair NormalOp) later) node1) as [[errs node2] evs2].
  cbn [fst snd] in *. injection Hfst as -> ->.
  split; [reflexivity |]. split; [reflexivity |]. split; [exact Hb1 |].
  rewrite gossip_initializations_app, goroutines_app, Hinit, Hgo, Hcount.
  split; [lia | now rewrite app_nil_r].
Qed.

End LifecycleProperties.

(** ** cmd/btcvm: configuration and profiling *)

Section CmdProperties.

Context {os : btcvm_cmd.OS}.

Lemma validLevel_In (level : string) :
  existsb (String.eqb level) btcvm_cmd.validLevels = true
  <-> In level btcvm_cmd.validLevels.
Proof.
  rewrite existsb_exists. split.
  - intros (x & Hin & Heq). apply String.eqb_eq in Heq. now subst x.
  - intros Hin. exists level. split; [exact Hin | apply String.eqb_refl].
Qed.

Lemma mkdir_dirs_app (done rest : list string) (fs : btcvm_cmd.FS) :
  btcvm_cmd.mkdir_dirs (done ++ rest) fs
  = match btcvm_cmd.mkdir_dirs done fs with
    | (Some err, fs1) => (Some err, fs1)
    | (None, fs1) => btcvm_cmd.mkdir_dirs rest fs1
    end.
Proof.
  revert fs. induction done as [| d done IH]; intros fs; [reflexivity |].
  cbn [app btcvm_cmd.mkdir_dirs].
  destruct (btcvm_cmd.MkdirAll d 448 fs) as [[cause |] fs1]; [reflexivity | apply IH].
Qed.

(** The loop that makes the directories, in [validate] and in
    [checkRequiredDirectories], stops at the first directory that cannot be
    made.  When it reports success, every directory of the list was made, in
    the order of the list, each on the file system the ones before it left.
    When it reports an error, that is the wrapped error of one directory of
    the list; the directories before it were made, and the ones after it
    were not attempted: the file system is the one the failed call left.
    [checkRequiredDirectories] runs it on the data directory and then the
    log directory, the empty string included. *)
Theorem mkdir_dirs_stops_at_first_failure (dirs : list string) (fs : btcvm_cmd.FS) :
  (forall fs',
     btcvm_cmd.mkdir_dirs dirs fs = (None, fs') ->
     forall done d rest,
       dirs = done ++ d :: rest ->
       exists fs1 fs2,
         btcvm_cmd.mkdir_dirs done fs = (None, fs1)
         /\ btcvm_cmd.MkdirAll d 448 fs1 = (None, fs2)
         /\ btcvm_cmd.mkdir_dirs rest fs2 = (None, fs'))
  /\ (forall err fs',
        btcvm_cmd.mkdir_dirs dirs fs = (Some err, fs') ->
        exists done d rest fs1 cause,
          dirs = done ++ d :: rest
          /\ btcvm_cmd.mkdir_dirs done fs = (None, fs1)
          /\ btcvm_cmd.MkdirAll d 448 fs1 = (Some cause, fs')
          /\ err = Wrapf "failed to create directory %s: %w" cause)
  /\ (forall dataDir logDir,
        btcvm_cmd.checkRequiredDirectories dataDir logDir fs
        = match btcvm_cmd.MkdirAll dataDir 448 fs with
          | (Some cause, fs1) =>
              (Some (Wrapf "failed to create directory %s: %w" cause), fs1)
          | (None, fs1) =>
              match btcvm_cmd.MkdirAll logDir 448 fs1 with
              | (Some cause, fs2) =>
                  (Some (Wrapf "failed to create directory %s: %w" cause), fs2)
              | (None, fs2) => (None, fs2)
              end
          end).
Proof.
  split; [| split].
  - intros fs' Hok done d rest ->.
    rewrite mkdir_dirs_app in Hok.
    destruct (btcvm_cmd.mkdir_dirs done fs) as [[err |] fs1] eqn:Hdone; [discriminate |].
    change (btcvm_cmd.mkdir_dirs (d :: rest) fs1)
      with (match btcvm_cmd.MkdirAll d 448 fs1 with
            | (Some err, fs0) =>
                (Some (Wrapf "failed to create directory %s: %w" err), fs0)
            | (None, fs0) => btcvm_cmd.mkdir_dirs rest fs0
            end) in Hok.
    destruct (btcvm_cmd.MkdirAll d 448 fs1) as [[cause |] fs2] eqn:Hd; [discriminate |].
    now exists fs1, fs2.
  - revert fs. induction dirs as [| d dirs IH]; intros fs err fs' Hfail; [discriminate |].
    cbn [btcvm_cmd.mkdir_dirs] in Hfail.
    destruct (btcvm_cmd.MkdirAll d 448 fs) as [[cause |] fs1] eqn:Hmk.
    + injection Hfail as <- <-. exists [], d, dirs, fs, cause. now repeat split.
    + destruct (IH fs1 err fs' Hfail) as (done & d' & rest & fs2 & cause & -> & Hdone & Hd & ->).
      exists (d :: done), d', rest, fs2, cause.
      split; [reflexivity |]. split; [| now split].
      cbn [btcvm_cmd.mkdir_dirs]. now rewrite Hmk.
  - intros dataDir logDir. unfold btcvm_cmd.checkRequiredDirectories.
    cbn [btcvm_cmd.mkdir_dirs].
    destruct (btcvm_cmd.MkdirAll dataDir 448 fs) as [[cause |] fs1]; [reflexivity |].
    now destruct (btcvm_cmd.MkdirAll logDir 448 fs1) as [[cause |] fs2].
Qed.

(** [validate] refuses a log level that is not one of the six names, before
    it touches the file system.  With a valid level it makes the data
    directory first and then the log directory, unless that is the empty
    string; a failure on the data directory is returned without an attempt
    on the log directory. *)
Theorem validate_spec (c : btcvm_cmd.config) (fs : btcvm_cmd.FS) :
  (~ In (btcvm_cmd.cfg_LogLevel c)
        ["trace"; "debug"; "info"; "warn"; "error"; "crit"]%string ->
   btcvm_cmd.validate c fs = (Some (Errorf "invalid log level: %s (valid: %v)"), fs))
  /\ (In (btcvm_cmd.cfg_LogLevel c)
         ["trace"; "debug"; "info"; "warn"; "error"; "crit"]%string ->
      (forall cause fs1,
         btcvm_cmd.MkdirAll (btcvm_cmd.cfg_DataDir c) 448 fs = (Some cause, fs1) ->
         btcvm_cmd.validate c fs
         = (Some (Wrapf "failed to create directory %s: %w" cause), fs1))
      /\ (forall fs1,
            btcvm_cmd.MkdirAll (btcvm_cmd.cfg_DataDir c) 448 fs = (None, fs1) ->
            (btcvm_cmd.cfg_LogDir c = ""%string -> btcvm_cmd.validate c fs = (None, fs1))
            /\ (btcvm_cmd.cfg_LogDir c <> ""%string ->
                btcvm_cmd.validate c fs
                = match btcvm_cmd.MkdirAll (btcvm_cmd.cfg_LogDir c) 448 fs1 with
                  | (Some cause, fs2) =>
                      (Some (Wrapf "failed to create directory %s: %w" cause), fs2)
                  | (None, fs2) => (None, fs2)
                  end))).
Proof.
  change ["trace"; "debug"; "info"; "warn"; "error"; "crit"]%string
    with btcvm_cmd.validLevels.
  unfold btcvm_cmd.validate. cbv zeta. split.
  - intros Hnot.
    destruct (existsb (String.eqb (btcvm_cmd.cfg_LogLevel c)) btcvm_cmd.validLevels)
      eqn:Hlevel; [| reflexivity].
    apply validLevel_In in Hlevel. contradiction.
  - intros Hin. apply validLevel_In in Hin. rewrite Hin. cbn [negb].
    split.
    + intros cause fs1 Hmk. cbn [app btcvm_cmd.mkdir_dirs]. now rewrite Hmk.
    + intros fs1 Hmk. split.
      * intros ->. cbn [String.eqb app btcvm_cmd.mkdir_dirs]. now rewrite Hmk.
      * intros Hdir. apply String.eqb_neq in Hdir. rewrite Hdir.
        cbn [app btcvm_cmd.mkdir_dirs]. rewrite Hmk.
        now destruct (btcvm_cmd.MkdirAll (btcvm_cmd.cfg_LogDir c) 448 fs1) as [[cause |] fs2].
Qed.

End CmdProperties.

Section ProfilerProperties.

Lemma open_files_app (l1 l2 : list btcvm_cmd.ProfEvent) (files : list string) :
  btcvm_cmd.open_files (l1 ++ l2) files
  = btcvm_cmd.open_files l2 (btcvm_cmd.open_files l1 files).
Proof.
  revert files. induction l1 as [| ev l1 IH]; intros files; [reflexivity |].
  destruct ev as [path [|] | path | ok | | | ok | port | lvl msg];
    cbn [app btcvm_cmd.open_files]; apply IH.
Qed.

Lemma cpu_profiling_app (l1 l2 : list btcvm_cmd.ProfEvent) (running : bool) :
  btcvm_cmd.cpu_profiling (l1 ++ l2) running
  = btcvm_cmd.cpu_profiling l2 (btcvm_cmd.cpu_profiling l1 running).
Proof.
  revert running. induction l1 as [| ev l1 IH]; intros running; [reflexivity |].
  destruct ev as [path ok | path | [|] | | | ok | port | lvl msg];
    cbn [app btcvm_cmd.cpu_profiling]; apply IH.
Qed.

Lemma remove_one_head (path : string) (files : list string) :
  btcvm_cmd.remove_one path (path :: files) = files.
Proof. cbn [btcvm_cmd.remove_one]. now rewrite String.eqb_refl. Qed.

(** The cleanup of the memory profile closes the file it opens, and leaves
    the CPU profiler as it is. *)
Lemma cleanup_mem_balanced (env : btcvm_cmd.ProfEnv) (path : string)
    (files : list string) (running : bool) :
  btcvm_cmd.open_files (btcvm_cmd.run_one_cleanup env (btcvm_cmd.CleanupMem path)) files
  = files
  /\ btcvm_cmd.cpu_profiling (btcvm_cmd.run_one_cleanup env (btcvm_cmd.CleanupMem path))
       running
     = running.
Proof.
  cbn [btcvm_cmd.run_one_cleanup].
  destruct (btcvm_cmd.env_Create_mem env); [now split |].
  destruct (btcvm_cmd.env_WriteHeapProfile env);
    cbn [btcvm_cmd.open_files btcvm_cmd.cpu_profiling];
    now rewrite remove_one_head.
Qed.

(** The cleanup of the CPU profile stops the profiler and closes its file. *)
Lemma cleanup_cpu_balanced (env : btcvm_cmd.ProfEnv) (path : string)
    (files : list string) (running : bool) :
  btcvm_cmd.open_files (btcvm_cmd.run_one_cleanup env (btcvm_cmd.CleanupCPU path))
    (path :: files)
  = files
  /\ btcvm_cmd.cpu_profiling (btcvm_cmd.run_one_cleanup env (btcvm_cmd.CleanupCPU path))
       running
     = false.
Proof.
  cbn [btcvm_cmd.run_one_cleanup btcvm_cmd.open_files btcvm_cmd.cpu_profiling].
  now rewrite remove_one_head.
Qed.

(** What [startProfiler] does once the CPU profile is settled: the cleanup
    of the memory profile is added when a file is given, and the server is
    started when a port is given. *)
Lemma startProfiler_finish (memProfile httpProfile : string) (env : btcvm_cmd.ProfEnv)
    (cleanupFuncs : list btcvm_cmd.Cleanup) (evs : list btcvm_cmd.ProfEvent)
    (files : list string) (running : bool) :
  let cleanupFuncs' :=
    if String.eqb memProfile "" then cleanupFuncs
    else cleanupFuncs ++ [btcvm_cmd.CleanupMem memProfile] in
  let evs' :=
    if String.eqb httpProfile "" then evs
    else evs ++ [btcvm_cmd.Go_httpServer httpProfile] in
  btcvm_cmd.open_files evs' files = btcvm_cmd.open_files evs files
  /\ btcvm_cmd.cpu_profiling evs' running = btcvm_cmd.cpu_profiling evs running
  /\ btcvm_cmd.open_files (btcvm_cmd.run_cleanup env cleanupFuncs') files
     = btcvm_cmd.open_files (btcvm_cmd.run_cleanup env cleanupFuncs) files
  /\ btcvm_cmd.cpu_profiling (btcvm_cmd.run_cleanup env cleanupFuncs') running
     = btcvm_cmd.cpu_profiling (btcvm_cmd.run_cleanup env cleanupFuncs) running
  /\ ((forall port, ~ In (btcvm_cmd.Go_httpServer port) evs) ->
      (In (btcvm_cmd.Go_httpServer httpProfile) evs' <-> httpProfile <> ""%string)).
Proof.
  cbv zeta. split; [| split; [| split; [| split]]].
  - destruct (String.eqb httpProfile ""); [reflexivity |]. now rewrite open_files_app.
  - destruct (String.eqb httpProfile ""); [reflexivity |]. now rewrite cpu_profiling_app.
  - destruct (String.eqb memProfile ""); [reflexivity |].
    unfold btcvm_cmd.run_cleanup. rewrite flat_map_app, open_files_app.
    cbn [flat_map]. rewrite app_nil_r.
    exact (proj1 (cleanup_mem_balanced env memProfile _ false)).
  - destruct (String.eqb memProfile ""); [reflexivity |].
    unfold btcvm_cmd.run_cleanup. rewrite flat_map_app, cpu_profiling_app.
    cbn [flat_map]. rewrite app_nil_r.
    exact (proj2 (cleanup_mem_balanced env memProfile [] _)).
  - intros Hnone. destruct (String.eqb httpProfile "") eqn:Hhttp.
    + apply String.eqb_eq in Hhttp. split; [intros Hin; now apply Hnone in Hin | congruence].
    + apply String.eqb_neq in Hhttp. split; [intros _; exact Hhttp |].
      intros _. apply in_or_app. right. now left.
Qed.

(** [startProfiler] fails only when a CPU profile is asked for and its file
    cannot be made or the profiler cannot be started; a failing call leaves
    no file open, no profiler running and no server started.  A call that
    succeeds leaves the CPU profile's file open and the profiler running
    exactly when a CPU profile is asked for, and starts the HTTP server
    exactly when a port is given; once the cleanup it returns has run, no
    file is open and the profiler is stopped, whatever happens to the memory
    profile, whose failures are logged and never returned. *)
Theorem startProfiler_balanced (cpuProfile memProfile httpProfile : string)
    (env : btcvm_cmd.ProfEnv) :
  let result := fst (btcvm_cmd.startProfiler cpuProfile memProfile httpProfile env) in
  let evs := snd (btcvm_cmd.startProfiler cpuProfile memProfile httpProfile env) in
  ((exists err, result = Err err)
   <-> cpuProfile <> ""%string
       /\ (btcvm_cmd.env_Create_cpu env <> None
           \/ btcvm_cmd.env_StartCPUProfile env <> None))
  /\ (forall err,
        result = Err err ->
        btcvm_cmd.open_files evs [] = []
        /\ btcvm_cmd.cpu_profiling evs false = false
        /\ ~ In (btcvm_cmd.Go_httpServer httpProfile) evs)
  /\ (forall cleanupFuncs,
        result = Ok cleanupFuncs ->
        btcvm_cmd.open_files evs []
        = (if String.eqb cpuProfile "" then [] else [cpuProfile])
        /\ btcvm_cmd.cpu_profiling evs false = negb (String.eqb cpuProfile "")
        /\ (In (btcvm_cmd.Go_httpServer httpProfile) evs <-> httpProfile <> ""%string)
        /\ btcvm_cmd.open_files (evs ++ btcvm_cmd.run_cleanup env cleanupFuncs) [] = []
        /\ btcvm_cmd.cpu_profiling (evs ++ btcvm_cmd.run_cleanup env cleanupFuncs) false
           = false).
Proof.
  cbv zeta. unfold btcvm_cmd.startProfiler. cbv zeta.
  destruct (String.eqb cpuProfile "") eqn:Hcpu.
  - (* no CPU profile *)
    cbn [fst snd].
    destruct (startProfiler_finish memProfile httpProfile env [] [] [] false)
      as (Hopen & Hrun & Hopen' & Hrun' & Hserver).
    split; [| split].
    + split; [intros [err Herr]; discriminate Herr |].
      intros [Hne _]. apply String.eqb_eq in Hcpu. contradiction.
    + discriminate.
    + intros cleanupFuncs Hok. injection Hok as <-.
      cbn [app btcvm_cmd.open_files btcvm_cmd.cpu_profiling btcvm_cmd.run_cleanup flat_map]
        in Hopen, Hrun, Hopen', Hrun', Hserver.
      cbn [app].
      rewrite open_files_app, cpu_profiling_app, Hopen, Hrun, Hopen', Hrun'.
      split; [reflexivity |]. split; [reflexivity |].
      split; [apply Hserver; intros port [] |]. split; reflexivity.
  - (* a CPU profile *)
    apply String.eqb_neq in Hcpu.
    destruct (btcvm_cmd.env_Create_cpu env) as [e1 |] eqn:Hcreate.
    + cbn [fst snd]. split; [| split].
      * split; [intros _; split; [exact Hcpu | left; discriminate] | intros _; now eexists].
      * intros err _. cbn [btcvm_cmd.open_files btcvm_cmd.cpu_profiling In].
        repeat apply conj; try reflexivity. intros [Hin | []]. discriminate Hin.
      * discriminate.
    + destruct (btcvm_cmd.env_StartCPUProfile env) as [e2 |] eqn:Hstart.
      * cbn [fst snd]. split; [| split].
        -- split; [intros _; split; [exact Hcpu | right; discriminate] | intros _; now eexists].
        -- intros err _.
           cbn [btcvm_cmd.open_files btcvm_cmd.cpu_profiling In].
           rewrite remove_one_head. repeat apply conj; try reflexivity.
           intros [Hin | [Hin | [Hin | []]]]; discriminate Hin.
        -- discriminate.
      * cbn [fst snd].
        destruct (startProfiler_finish memProfile httpProfile env
                    [btcvm_cmd.CleanupCPU cpuProfile]
                    [btcvm_cmd.os_Create cpuProfile true; btcvm_cmd.StartCPUProfile true;
                     btcvm_cmd.ProfLog LvlInfo "CPU profiling enabled"] [] false)
          as (Hopen & Hrun & _ & _ & Hserver).
        split; [| split].
        -- split; [intros [err Herr]; discriminate Herr |].
           intros [_ [Hc | Hs]]; congruence.
        -- discriminate.
        -- intros cleanupFuncs Hok. injection Hok as <-.
           destruct (startProfiler_finish memProfile httpProfile env
                       [btcvm_cmd.CleanupCPU cpuProfile] [] [cpuProfile] true)
             as (_ & _ & Hopen' & Hrun' & _).
           cbn [app btcvm_cmd.open_files btcvm_cmd.cpu_profiling]
             in Hopen, Hrun, Hopen', Hrun', Hserver.
           cbn [app].
           rewrite open_files_app, cpu_profiling_app, Hopen, Hrun.
           cbn [negb]. rewrite Hopen', Hrun'.
           split; [reflexivity |]. split; [reflexivity |].
           split.
           { apply Hserver. intros port [Hin | [Hin | [Hin | []]]]; discriminate Hin. }
           unfold btcvm_cmd.run_cleanup. cbn [flat_map]. rewrite app_nil_r.
           destruct (cleanup_cpu_balanced env cpuProfile [] true) as [Hfiles Hstopped].
           now split.
Qed.

End ProfilerProperties.

(** * The properties of the rest of the repository at concrete inputs *)

(** The target of the genesis block, a compact target with a small exponent,
    and one with bit 23 set, which is read as part of the mantissa. *)
Example compactToBig_genesis : genesis.compactToBig 486604799 = 65535 * 2 ^ 208.
Proof. reflexivity. Qed.

Example compactToBig_small : genesis.compactToBig 17965110 = 18.
Proof. reflexivity. Qed.

Example compactToBig_bit23 : genesis.compactToBig 76690518 = 2452903424.
Proof. reflexivity. Qed.

Lemma compactToBig_value_witness :
  0 <= 486604799 / 2 ^ 24 < 256
  /\ (486604799 / 2 ^ 24 <= 3 ->
      genesis.compactToBig 486604799
      = 486604799 mod 2 ^ 24 / 256 ^ (3 - 486604799 / 2 ^ 24))
  /\ (3 < 486604799 / 2 ^ 24 ->
      genesis.compactToBig 486604799
      = 486604799 mod 2 ^ 24 * 256 ^ (486604799 / 2 ^ 24 - 3))
  /\ 0 <= genesis.compactToBig 486604799 < 256 ^ (486604799 / 2 ^ 24).
Proof. apply (compactToBig_value 486604799). lia. Defined.

(** A hash whose first two bytes are 1 and 2 is the number [1 + 2 * 256]. *)
Example hashToBig_513 : genesis.hashToBig (Sample.pad32 [x01; x02]) = 513.
Proof. reflexivity. Qed.

Lemma hashToBig_little_endian_witness :
  genesis.hashToBig (Sample.pad32 [x01; x02])
  = genesis.little_endian (Sample.pad32 [x01; x02])
  /\ 0 <= genesis.hashToBig (Sample.pad32 [x01; x02]) < 2 ^ 256
  /\ (forall other : Hash,
        List.length other = HashSize ->
        genesis.hashToBig other = genesis.hashToBig (Sample.pad32 [x01; x02]) ->
        other = Sample.pad32 [x01; x02]).
Proof. apply (hashToBig_little_endian (Sample.pad32 [x01; x02])). reflexivity. Defined.

(** Mining with a header hash that meets the target at nonce 3 only: found
    in the fourth round. *)
Lemma mine_finds_first_nonce_witness :
  (forall fuel : nat,
     (3 < fuel)%nat ->
     genesis.mine SampleChain.header_hash (65535 * 2 ^ 208) fuel SampleChain.header0
     = Some (genesis.set_Nonce
               ((genesis.Nonce SampleChain.header0 + Z.of_nat 3) mod 2 ^ 32)
               SampleChain.header0))
  /\ (forall fuel : nat,
        (fuel <= 3)%nat ->
        genesis.mine SampleChain.header_hash (65535 * 2 ^ 208) fuel SampleChain.header0
        = None).
Proof.
  apply (mine_finds_first_nonce SampleChain.header_hash (65535 * 2 ^ 208)
           SampleChain.header0 3).
  - cbn. lia.
  - intros [| [| [| i]]] Hi; [reflexivity | reflexivity | reflexivity | lia].
  - vm_compute. discriminate.
Defined.

Example mine_four_rounds :
  genesis.mine SampleChain.header_hash (65535 * 2 ^ 208) 4 SampleChain.header0
  = Some (genesis.set_Nonce 3 SampleChain.header0)
  /\ genesis.mine SampleChain.header_hash (65535 * 2 ^ 208) 3 SampleChain.header0 = None.
Proof. split; reflexivity. Qed.

(** Mining with a header hash that never meets the target. *)
Lemma mine_never_returns_witness :
  genesis.mine SampleChain.header_hash_never (65535 * 2 ^ 208) 1000 SampleChain.header0
  = None.
Proof.
  apply (mine_never_returns SampleChain.header_hash_never (65535 * 2 ^ 208)
           SampleChain.header0).
  - cbn. lia.
  - intros n _. reflexivity.
Defined.

(** The generator on the sample parameters: the genesis block, and the
    refused address. *)
Example createGenesisBlock_sample :
  genesis.createGenesisBlock string SampleChain.pay_to_addr_script SampleChain.tx_hash
    SampleChain.header_hash 1 "addr"%string [x68; x69] 5000000000 1700000000 0 10
  = Some (Ok {| genesis.Header :=
                  {| genesis.Version := 1;
                     genesis.PrevBlock := repeat x00 HashSize;
                     genesis.MerkleRoot := repeat x11 HashSize;
                     genesis.Timestamp := 63835596800000000000;
                     genesis.Bits := 486604799;
                     genesis.Nonce := 3 |};
                genesis.Transactions :=
                  [{| genesis.tx_Version := 1;
                      genesis.tx_TxIn :=
                        [{| genesis.PreviousOutPoint :=
                              {| genesis.op_Hash := repeat x00 HashSize;
                                 genesis.op_Index := 4294967295 |};
                            genesis.SignatureScript := [x68; x69];
                            genesis.Sequence := 4294967295 |}];
                      genesis.tx_TxOut :=
                        [{| genesis.Value := 5000000000;
                            genesis.PkScript := [x76; xa9] |}];
                      genesis.tx_LockTime := 0 |}] |})
  /\ genesis.createGenesisBlock string SampleChain.pay_to_addr_script SampleChain.tx_hash
       SampleChain.header_hash 1 ""%string [x68; x69] 5000000000 1700000000 0 0
     = Some (Err (Wrapf "failed to create output script: %w"
                    (Errorf "unsupported address type"))).
Proof. split; reflexivity. Qed.

(** The sample chain hands back, for a hash, a block of that hash, and its
    hashes have 32 bytes. *)
Lemma pad32_length (m : list byte) : List.length (Sample.pad32 m) = HashSize.
Proof.
  unfold Sample.pad32. rewrite length_firstn, length_app, repeat_length. lia.
Qed.

Lemma pad32_sized (h : list byte) : List.length h = HashSize -> Sample.pad32 h = h.
Proof.
  intros Hlen. unfold Sample.pad32. rewrite firstn_app, Hlen, Nat.sub_diag.
  cbn [firstn]. rewrite app_nil_r. rewrite <- Hlen. apply firstn_all.
Qed.

Lemma block_by_hash_law (l : Sample.ledger_state) (h : Hash) (b : BlockObj) :
  SampleChain.block_by_hash l h = Ok b -> Block_Hash (obj_block b) = h.
Proof.
  unfold SampleChain.block_by_hash.
  destruct (List.length h =? HashSize)%nat eqn:Hlen; [| discriminate].
  destruct (existsb (Hash_IsEqual h) (Sample.index l)); [| discriminate].
  cbn [andb]. intros Hok. injection Hok as <-.
  apply Nat.eqb_eq in Hlen. exact (pad32_sized h Hlen).
Qed.

(** A block of unknown height. *)
Lemma NewBlockAdapter_spec_witness :
  exists a,
    NewBlockAdapter (C := SampleChain.chain)
      {| obj_block := Sample.block1; obj_height := -1 |} = Ok a
    /\ adapter_id a = Block_Hash Sample.block1
    /\ adapter_height a = 2 ^ 64 + -1.
Proof.
  destruct (NewBlockAdapter_spec (C := SampleChain.chain)
              {| obj_block := Sample.block1; obj_height := -1 |})
    as [_ Hok]; [cbn; lia |].
  destruct (Hok _ eq_refl) as (a & Ha & _ & _ & Hid & _ & _ & _ & _ & Hneg).
  exists a. split; [exact Ha |]. split; [exact Hid |].
  apply Hneg. cbn. lia.
Defined.

(** [Sample.block1] through [ParseBlock] and through the set. *)
Lemma ParseBlock_and_Add_agree_witness :
  ledger (snd (fst (ParseBlock (C := SampleChain.chain) SampleChain.block1_bytes Sample.vm0)))
  = ledger (snd (fst (Add (Some (NewBlockGossip (Some Sample.block1))) Sample.vm0)))
  /\ bloom (snd (fst (ParseBlock (C := SampleChain.chain) SampleChain.block1_bytes
                        Sample.vm0))) = []
  /\ bloom (snd (fst (Add (Some (NewBlockGossip (Some Sample.block1))) Sample.vm0)))
     = [Block_Hash Sample.block1].
Proof.
  destruct (ParseBlock_and_Add_agree (C := SampleChain.chain) SampleChain.block1_bytes
              (Block_MsgBlock Sample.block1) Sample.vm0 eq_refl eq_refl eq_refl)
    as (Hledger & Hparse & Hadd & _).
  split; [exact Hledger |]. split; [exact Hparse | exact Hadd].
Defined.

Lemma GetBlock_after_ParseBlock_witness :
  exists a,
    fst (fst (ParseBlock (C := SampleChain.chain) SampleChain.block1_bytes Sample.vm0)) = Ok a
    /\ GetBlock (C := SampleChain.chain) (adapter_id a)
         (snd (fst (ParseBlock (C := SampleChain.chain) SampleChain.block1_bytes
                      Sample.vm0)))
       = (Ok a, [Log LvlDebug "getting block"])
    /\ adapter_id a = Block_Hash Sample.block1.
Proof.
  eexists. split; [reflexivity |].
  destruct (GetBlock_after_ParseBlock (C := SampleChain.chain) SampleChain.block1_bytes
              Sample.vm0 _ _ _ pad32_length block_by_hash_law eq_refl)
    as (Hget & m & Hdec & Hid).
  split; [exact Hget |]. reflexivity.
Defined.

(** The relay callback after the set has taken [Sample.block1]. *)
Lemma OnBlockRelay_after_Add_witness :
  pushed
    (Initialize_OnBlockRelay true true Sample.block1
       (snd (fst (Add (Some (NewBlockGossip (Some Sample.block1))) Sample.vm0))))
  = []
  /\ pushed (Initialize_OnBlockRelay true true Sample.block1 Sample.vm0)
     = [NewBlockGossip (Some Sample.block1)].
Proof.
  destruct (OnBlockRelay_after_Add Sample.block1 Sample.vm0 _ _ eq_refl)
    as (_ & Hafter & _ & _ & Hbefore).
  split; [exact Hafter | exact (Hbefore eq_refl)].
Defined.

(** What the decoder gives for the bytes of [Sample.tx1]. *)
Lemma UnmarshalGossip_valid_witness :
  valid_item (W := Sample.wire) (NewTxGossip (Some Sample.tx1))
  /\ exists rest,
       [x01; x02; x0a; x0b] = ItemType (NewTxGossip (W := Sample.wire) (Some Sample.tx1)) :: rest.
Proof.
  destruct (UnmarshalGossip_valid (W := Sample.wire) [x01; x02; x0a; x0b]
              (NewTxGossip (Some Sample.tx1)) eq_refl)
    as (Hvalid & (rest & Hrest & _) & _).
  split; [exact Hvalid | now exists rest].
Defined.

(** A retry 30 ms after an attempt waits the 70 ms that are left. *)
Lemma delay_after_attempt_witness :
  fst (calculateBuildingDelay (W := Sample.wire)
         (fst (handleBuildAttempt (E := Sample.engine) [x01] 1000000000000 None
                 Sample.builder0))
         [x01] 1000030000000)
  = Z.max 0 (1000000000000 + 100000000 - 1000030000000).
Proof.
  destruct (delay_after_attempt (W := Sample.wire) (E := Sample.engine)
              [x01] [x01] 1000000000000 1000030000000 None Sample.builder0)
    as (Hretry & _); [lia | lia |].
  exact (Hretry eq_refl).
Defined.

(** Three transactions accepted while the channel holds 1023 signals: one is
    taken, two are dropped. *)
Lemma onTxAccepted_burst_one_task_witness :
  onTxAccepted_burst (W := Sample.wire) 3 1023
  = Nat.min (1023 + 3) txSubmitChannelSize.
Proof.
  destruct (onTxAccepted_burst_one_task (W := Sample.wire) 3 1023 Sample.builder0)
    as (Hqueue & _); [unfold txSubmitChannelSize; lia |].
  exact Hqueue.
Defined.

(** Entering normal operation with a gossip that cannot be initialised, and
    entering it again: the second call reports success. *)
Example SetState_failed_then_again :
  fst (fst (SetState_run (W := Sample.wire) (E := Sample.engine)
              [(NormalOp, {| env_initializeGossip := Some (Errorf "no validators");
                             env_pool := None |});
               (NormalOp, {| env_initializeGossip := None; env_pool := None |})]
              {| node_vm := Sample.vm0; bootstrapped := false |}))
  = [Some (Wrapf "failed to initialize gossip: %w" (Errorf "no validators")); None]
  /\ goroutines
       (snd (SetState_run (W := Sample.wire) (E := Sample.engine)
               [(NormalOp, {| env_initializeGossip := Some (Errorf "no validators");
                              env_pool := None |});
                (NormalOp, {| env_initializeGossip := None; env_pool := None |})]
               {| node_vm := Sample.vm0; bootstrapped := false |}))
     = [].
Proof. split; reflexivity. Qed.

(** Entering normal operation with transactions in the pool. *)
Example SetState_with_pool :
  goroutines
    (snd (SetState (W := Sample.wire) (E := Sample.engine) NormalOp
            {| env_initializeGossip := None;
               env_pool := Some (ledger Sample.vm_two_txs) |}
            {| node_vm := Sample.vm_two_txs; bootstrapped := false |}))
  = [Go_pushGossipLoop; Go_pullGossipLoop; Go_awaitTxSubmissions;
     Did Go_scheduleBlockBuild].
Proof. reflexivity. Qed.

(** The configuration with an empty log directory, and the check of the
    required directories on the same paths. *)
Example validate_sample :
  btcvm_cmd.validate (os := SampleChain.os) SampleChain.config0 [] = (None, ["data"%string])
  /\ btcvm_cmd.checkRequiredDirectories (os := SampleChain.os) "data"%string ""%string []
     = (Some (Wrapf "failed to create directory %s: %w"
                (Errorf "mkdir : no such file or directory")),
        ["data"%string]).
Proof. split; reflexivity. Qed.

(** A CPU and a memory profile, with a heap profile that cannot be written. *)
Example startProfiler_sample :
  btcvm_cmd.startProfiler "cpu.prof"%string "mem.prof"%string ""%string
    {| btcvm_cmd.env_Create_cpu := None; btcvm_cmd.env_StartCPUProfile := None;
       btcvm_cmd.env_Create_mem := None;
       btcvm_cmd.env_WriteHeapProfile := Some (Errorf "disk full") |}
  = (Ok [btcvm_cmd.CleanupCPU "cpu.prof"%string; btcvm_cmd.CleanupMem "mem.prof"%string],
     [btcvm_cmd.os_Create "cpu.prof"%string true; btcvm_cmd.StartCPUProfile true;
      btcvm_cmd.ProfLog LvlInfo "CPU profiling enabled"]).
Proof. reflexivity. Qed.

(** On a chain of one block, the heights [2^32] and 0 get the same answer,
    and the height [2^31] is asked as a negative one. *)
Example GetBlockIDAtHeight_wraps :
  fst (GetBlockIDAtHeight (C := SampleChain.chain) (2 ^ 32) SampleChain.vm_one_block)
  = Ok (Block_Hash Sample.block1)
  /\ fst (GetBlockIDAtHeight (C := SampleChain.chain) 0 SampleChain.vm_one_block)
     = Ok (Block_Hash Sample.block1)
  /\ fst (GetBlockIDAtHeight (C := SampleChain.chain) (2 ^ 31) SampleChain.vm_one_block)
     = Err (Wrapf "failed to get block hash at height %d: %w" (Errorf "no block at height")).
Proof. repeat apply conj; reflexivity. Qed.
